(** * Order engine, design votes and coupon ledger of the shop backend

    A shallow embedding of the functions of [app/crud.py] that create
    orders (registered and guest), tally design votes and keep the coupon
    ledger, with the properties of the specification stated over them.

    Conventions of the embedding.
    - A database session is an explicit store value threaded through each
      function; a function returns the store it leaves behind together with
      its result.  A raised exception is an [Err] result.
    - A table is the list of its rows in insertion order; a query
      [filter(...).first()] is the first row of the list that satisfies the
      filter.
    - Python [int] is [Z]; the width of a database column is not modelled.
      Python [float] (prices, amounts) is an abstract carrier with the
      operations the code applies to it (class [PriceOps]), so that what
      is proved of a total holds for whatever these operations compute;
      the conversion of an [int] to a [float] fails on an [int] outside the
      range of a [float], as in the interpreter.  Exact integer amounts
      are the instance the examples run on.
    - A Python [str] that the code takes apart (the two strings of a guest
      cart) is the list of its code points; a [str] that is only stored or
      compared is a [string].
    - One call runs at a time: a store is read and written by the call
      that holds it.
    - Record fields keep the column names of [app/models.py]; each record
      lives in a module of its own so that [Product.id] and [Order.id] can
      coexist. *)

From Stdlib Require Import ZArith Lia Ascii String DecimalFacts DecimalPos.
From stdpp Require Import base tactics option list strings.

Local Open Scope Z_scope.

(** ** Results of fallible operations *)

(** The three messages [create_order] and [create_guest_order] raise a
    [ValueError] with; the [OverflowError] of [unit_price * item.quantity]
    on a quantity that does not convert to a [float]; and the
    [AttributeError] the second loop would raise on a missing product
    row. *)
Inductive error : Type :=
  | NotFound (product_id : Z)
  | InsufficientStock (product_name : string)
  | InvalidFormat
  | OverflowError
  | AttributeError.

(** [except ValueError] catches the first three. *)
Definition is_value_error (e : error) : bool :=
  match e with
  | NotFound _ | InsufficientStock _ | InvalidFormat => true
  | OverflowError | AttributeError => false
  end.

Inductive result (A : Type) : Type :=
  | Ok (a : A)
  | Err (e : error).
Arguments Ok {A} a.
Arguments Err {A} e.

Definition is_ok {A} (r : result A) : bool :=
  match r with Ok _ => true | Err _ => false end.

(** ** Prices *)

(** What the code does with a [float]: it converts an [int] to it (the
    literal [0] the total starts from, the quantity a unit price is
    multiplied with), adds, multiplies and tests truthiness.  The
    conversion is partial: [float * int] raises [OverflowError] when the
    [int] is too large in magnitude for a [float]; [int_converts n] tells
    whether [n] converts, and [price_of_int n] is the [float] it converts
    to when it does.  (Sums and products of floats never raise: they
    overflow to an infinity.) *)
Class PriceOps (price : Type) : Type := {
  int_converts : Z -> bool;
  price_of_int : Z -> price;
  padd : price -> price -> price;
  pmul : price -> price -> price;
  ptruthy : price -> bool
}.

(** The integers that convert to a binary64 [float] are those that round
    to a finite one: up to, and not including, [2^1024 - 2^970] in
    magnitude. *)
Definition float_int_bound : Z := 2 ^ 1024 - 2 ^ 970.

(** Exact amounts (an integer number of minor units), with the range of
    the conversion as the interpreter has it: [bool(x)] is [x != 0]. *)
#[export] Instance exact_price : PriceOps Z := {
  int_converts := fun n => Z.abs n <? float_int_bound;
  price_of_int := fun n => n;
  padd := Z.add;
  pmul := Z.mul;
  ptruthy := fun x => negb (x =? 0)
}.

(** [sum(xs)]: a left fold of [+] from the integer [0]. *)
Definition price_sum {price} `{PriceOps price} (xs : list price) : price :=
  fold_left padd xs (price_of_int 0).

(** ** Tables *)

Section Table.
Context {A : Type}.

(** [query.filter(p).first()] *)
Fixpoint first_row (p : A -> bool) (rows : list A) : option A :=
  match rows with
  | [] => None
  | r :: rows' => if p r then Some r else first_row p rows'
  end.

(** Assigning to attributes of the object [first_row p] returned, then
    committing: the first matching row is replaced by its image. *)
Fixpoint update_first (p : A -> bool) (f : A -> A) (rows : list A) : list A :=
  match rows with
  | [] => []
  | r :: rows' => if p r then f r :: rows' else r :: update_first p f rows'
  end.

(** [db.delete(first_row p)] *)
Fixpoint delete_first (p : A -> bool) (rows : list A) : list A :=
  match rows with
  | [] => []
  | r :: rows' => if p r then rows' else r :: delete_first p rows'
  end.

(** [query.filter(p).count()] *)
Definition count_rows (p : A -> bool) (rows : list A) : Z :=
  Z.of_nat (length (List.filter p rows)).
End Table.

(** ** Python strings *)

(** The functions of the Python runtime the guest parser calls on a
    [str]: [split], [strip] and [int], over strings as lists of code
    points. *)
Module PyStr.

Definition t : Type := list Z.

(** The [str] a literal of ASCII characters denotes. *)
Definition of_string (s : string) : t :=
  (fun c => Z.of_N (Ascii.N_of_ascii c)) <$> list_ascii_of_string s.

Definition comma : Z := 44.

(** [str.isspace] on one character, which is what [strip] removes: TAB
    to CR, FS to US, space, NEL, NBSP and the space separators and line
    and paragraph separators beyond Latin-1. *)
Definition is_space (c : Z) : bool :=
  (9 <=? c) && (c <=? 13) || (28 <=? c) && (c <=? 32) || (c =? 133) || (c =? 160)
  || (c =? 5760) || (8192 <=? c) && (c <=? 8202) || (c =? 8232) || (c =? 8233)
  || (c =? 8239) || (c =? 8287) || (c =? 12288).

Fixpoint lstrip_by (p : Z -> bool) (s : t) : t :=
  match s with
  | c :: s' => if p c then lstrip_by p s' else s
  | [] => []
  end.

Fixpoint rstrip_by (p : Z -> bool) (s : t) : t :=
  match s with
  | [] => []
  | c :: s' =>
      match rstrip_by p s' with
      | [] => if p c then [] else [c]
      | t => c :: t
      end
  end.

(** [s.strip()] *)
Definition strip (s : t) : t := rstrip_by is_space (lstrip_by is_space s).

(** [s.split(sep)] for a one-character separator: never empty, one more
    piece than there are separators. *)
Fixpoint split (sep : Z) (s : t) : list t :=
  match s with
  | [] => [[]]
  | c :: s' =>
      if c =? sep then [] :: split sep s'
      else match split sep s' with
           | [] => [[c]]
           | t :: ts => (c :: t) :: ts
           end
  end.

(** The code points of the digit zero of each decimal digit set of
    Unicode 14 (the table of CPython 3.11); the digits one to nine of a
    set follow its zero. *)
Definition decimal_zeros : list Z :=
  [48; 1632; 1776; 1984; 2406; 2534; 2662; 2790; 2918; 3046; 3174; 3302;
   3430; 3558; 3664; 3792; 3872; 4160; 4240; 6112; 6160; 6470; 6608; 6784;
   6800; 6992; 7088; 7232; 7248; 42528; 43216; 43264; 43472; 43504; 43600;
   44016; 65296; 66720; 68912; 69734; 69872; 69942; 70096; 70384; 70736;
   70864; 71248; 71360; 71472; 71904; 72016; 72784; 73040; 73120; 92768;
   92864; 93008; 120782; 120792; 120802; 120812; 120822; 123200; 123632;
   125264; 130032].

(** The value of a decimal digit, ASCII or not. *)
Definition digit_value (c : Z) : option Z :=
  (fun zero => c - zero)
    <$> List.find (fun zero => (zero <=? c) && (c <? zero + 10)) decimal_zeros.

Definition is_digit (c : Z) : bool :=
  match digit_value c with Some _ => true | None => false end.

(** Decimal digits, with single underscores allowed between two digits.
    [after_digit] tells whether the previous character was a digit. *)
Fixpoint digits (s : t) (acc : Z) (after_digit : bool) : option Z :=
  match s with
  | [] => if after_digit then Some acc else None
  | c :: s' =>
      match digit_value c with
      | Some d => digits s' (10 * acc + d) true
      | None =>
          if (c =? 95) && after_digit then digits s' acc false else None
      end
  end.

(** The interpreter's default limit on the digits of a decimal literal
    that [int] converts ([sys.int_info.default_max_str_digits]), which the
    application does not change. *)
Definition max_str_digits : Z := 4300.

(** The digits after the sign: more of them than the limit, leading
    zeros counted and underscores not, are a [ValueError]. *)
Definition number (s : t) : option Z :=
  if max_str_digits <? Z.of_nat (length (List.filter is_digit s)) then None
  else digits s 0 false.

(** The white space [int] itself skips at both ends: ASCII white space,
    and white space beyond ASCII; not FS to US. *)
Definition int_space (c : Z) : bool :=
  (9 <=? c) && (c <=? 13) || (c =? 32) || (127 <? c) && is_space c.

(** [int(s)] in base ten: surrounding white space, an optional sign, the
    digits.  [None] is the [ValueError]. *)
Definition int (s : t) : option Z :=
  match rstrip_by int_space (lstrip_by int_space s) with
  | c :: r =>
      if c =? 43 then number r
      else if c =? 45 then Z.opp <$> number r
      else number (c :: r)
  | [] => None
  end.

(** [sep.join(parts)] *)
Fixpoint join (sep : t) (parts : list t) : t :=
  match parts with
  | [] => []
  | [p] => p
  | p :: rest => p ++ sep ++ join sep rest
  end.

Definition all_space (s : t) : Prop := forallb is_space s = true.

Definition no_comma (s : t) : Prop :=
  forallb (fun c => negb (c =? comma)) s = true.

(** A token between white space, and the string it is written as. *)
Definition padded (tok : t * t * t) : t := tok.1.1 ++ tok.1.2 ++ tok.2.

Definition bare (tok : t * t * t) : t := tok.1.2.

Definition well_padded (tok : t * t * t) : Prop :=
  all_space tok.1.1 /\ no_comma tok.1.2 /\ all_space tok.2.

Fixpoint uint_codes (d : Decimal.uint) : t :=
  match d with
  | Decimal.Nil => []
  | Decimal.D0 d => 48 :: uint_codes d
  | Decimal.D1 d => 49 :: uint_codes d
  | Decimal.D2 d => 50 :: uint_codes d
  | Decimal.D3 d => 51 :: uint_codes d
  | Decimal.D4 d => 52 :: uint_codes d
  | Decimal.D5 d => 53 :: uint_codes d
  | Decimal.D6 d => 54 :: uint_codes d
  | Decimal.D7 d => 55 :: uint_codes d
  | Decimal.D8 d => 56 :: uint_codes d
  | Decimal.D9 d => 57 :: uint_codes d
  end.

(** The characters of a numeral: the minus sign and the ten ASCII
    digits. *)
Definition numeral_chars : list Z := [45; 48; 49; 50; 51; 52; 53; 54; 55; 56; 57].

(** The decimal numeral of an integer: a minus sign when it is negative,
    then its digits, without a leading zero. *)
Definition decimal (n : Z) : t :=
  match n with
  | Z0 => [48]
  | Zpos p => uint_codes (Pos.to_uint p)
  | Zneg p => 45 :: uint_codes (Pos.to_uint p)
  end.

End PyStr.

(** ** Order engine *)

Module Product.
Record t {price : Type} : Type := mk {
  id : Z;
  name : string;
  original_price : price;
  discount_price : option price;
  stock_quantity : Z;
  is_active : bool
}.
Arguments t : clear implicits.
Arguments mk {price}.
End Product.

Module OrderItemBase.
Record t : Type := mk {
  product_id : Z;
  quantity : Z
}.
End OrderItemBase.

(** The shipping and contact columns an order copies from the request. *)
Module Contact.
Record t : Type := mk {
  shipping_address : string;
  contact_name : string;
  contact_email : string;
  contact_phone : option string;
  payment_method : string;
  special_instructions : option string
}.
End Contact.

Module OrderCreate.
Record t : Type := mk {
  items : list OrderItemBase.t;
  contact : Contact.t
}.
End OrderCreate.

Module GuestOrderCreate.
Record t : Type := mk {
  product_ids : PyStr.t;
  quantities : PyStr.t;
  contact : Contact.t
}.
End GuestOrderCreate.

Module Order.
Record t {price : Type} : Type := mk {
  id : Z;
  user_id : option Z;
  total_amount : price;
  status : string;
  contact : Contact.t
}.
Arguments t : clear implicits.
Arguments mk {price}.
End Order.

(** The dictionaries the first loop collects, one per cart line. *)
Module ItemData.
Record t {price : Type} : Type := mk {
  product_id : Z;
  quantity : Z;
  unit_price : price;
  total_price : price
}.
Arguments t : clear implicits.
Arguments mk {price}.
End ItemData.

Module OrderItem.
Record t {price : Type} : Type := mk {
  id : Z;
  order_id : Z;
  product_id : Z;
  quantity : Z;
  unit_price : price;
  total_price : price
}.
Arguments t : clear implicits.
Arguments mk {price}.
End OrderItem.

Module Shop.
(** The tables order creation reads and writes, and the two id
    sequences. *)
Record t {price : Type} : Type := mk {
  products : list (Product.t price);
  orders : list (Order.t price);
  order_items : list (OrderItem.t price);
  next_order_id : Z;
  next_order_item_id : Z
}.
Arguments t : clear implicits.
Arguments mk {price}.
End Shop.

Section OrderEngine.
Context {price : Type} `{PriceOps price}.

Definition has_id (product_id : Z) (p : Product.t price) : bool :=
  Product.id p =? product_id.

Definition get_product_by_id (db : Shop.t price) (product_id : Z)
  : option (Product.t price) :=
  first_row (has_id product_id) (Shop.products db).

(** [product.discount_price if product.discount_price else
    product.original_price]: the condition is the truthiness of an
    [Optional[float]], so [None] and a falsy number both take the [else]
    branch. *)
Definition unit_price_of (product : Product.t price) : price :=
  match Product.discount_price product with
  | Some d => if ptruthy d then d else Product.original_price product
  | None => Product.original_price product
  end.

(** The first loop of [create_order]: look each line up, check the stock,
    price the line (which raises on a quantity that does not convert), add
    to the running total and collect the line. *)
Fixpoint price_lines (db : Shop.t price) (items : list OrderItemBase.t)
    (total_amount : price) (order_items : list (ItemData.t price))
  : result (price * list (ItemData.t price)) :=
  match items with
  | [] => Ok (total_amount, order_items)
  | item :: rest =>
      match get_product_by_id db (OrderItemBase.product_id item) with
      | None => Err (NotFound (OrderItemBase.product_id item))
      | Some product =>
          if Product.stock_quantity product <? OrderItemBase.quantity item
          then Err (InsufficientStock (Product.name product))
          else
            let unit_price := unit_price_of product in
            if negb (int_converts (OrderItemBase.quantity item))
            then Err OverflowError
            else
              let item_total :=
                pmul unit_price (price_of_int (OrderItemBase.quantity item)) in
              price_lines db rest (padd total_amount item_total)
                (order_items ++
                 [ItemData.mk (OrderItemBase.product_id item)
                    (OrderItemBase.quantity item) unit_price item_total])
      end
  end.

(** [db.add(db_order); db.commit(); db.refresh(db_order)] *)
Definition add_order (db : Shop.t price) (o : Order.t price) : Shop.t price :=
  Shop.mk (Shop.products db) (Shop.orders db ++ [o]) (Shop.order_items db)
    (Shop.next_order_id db + 1) (Shop.next_order_item_id db).

Definition add_order_item (db : Shop.t price) (order_id : Z)
    (d : ItemData.t price) : Shop.t price :=
  Shop.mk (Shop.products db) (Shop.orders db)
    (Shop.order_items db ++
     [OrderItem.mk (Shop.next_order_item_id db) order_id
        (ItemData.product_id d) (ItemData.quantity d)
        (ItemData.unit_price d) (ItemData.total_price d)])
    (Shop.next_order_id db) (Shop.next_order_item_id db + 1).

Definition set_stock_quantity (q : Z) (p : Product.t price) : Product.t price :=
  Product.mk (Product.id p) (Product.name p) (Product.original_price p)
    (Product.discount_price p) q (Product.is_active p).

(** [product.stock_quantity -= quantity] on the row fetched by id. *)
Definition decrement_stock (db : Shop.t price) (product_id quantity : Z)
  : Shop.t price :=
  Shop.mk
    (update_first (has_id product_id)
       (fun p => set_stock_quantity (Product.stock_quantity p - quantity) p)
       (Shop.products db))
    (Shop.orders db) (Shop.order_items db)
    (Shop.next_order_id db) (Shop.next_order_item_id db).

(** The second loop: one [OrderItem] row per collected line, and the
    stock of its product lowered.  The product is fetched again; on
    [None] the attribute access raises. *)
Fixpoint persist_lines (db : Shop.t price) (order_id : Z)
    (order_items : list (ItemData.t price)) : result (Shop.t price) :=
  match order_items with
  | [] => Ok db
  | item_data :: rest =>
      let db1 := add_order_item db order_id item_data in
      match get_product_by_id db1 (ItemData.product_id item_data) with
      | None => Err AttributeError
      | Some _ =>
          persist_lines
            (decrement_stock db1 (ItemData.product_id item_data)
               (ItemData.quantity item_data))
            order_id rest
      end
  end.

(** The body of [create_order] from the first loop on.
    [create_guest_order] repeats it line for line with [user_id=None], so
    the two share it here, with the owner of the order as a parameter. *)
Definition place_order (db : Shop.t price) (user_id : option Z)
    (contact : Contact.t) (items : list OrderItemBase.t)
  : Shop.t price * result (Order.t price) :=
  match price_lines db items (price_of_int 0) [] with
  | Err e => (db, Err e)
  | Ok (total_amount, order_items) =>
      let db_order :=
        Order.mk (Shop.next_order_id db) user_id total_amount "pending" contact in
      let db1 := add_order db db_order in
      match persist_lines db1 (Order.id db_order) order_items with
      | Ok db2 => (db2, Ok db_order)
      | Err e => (db1, Err e)
      end
  end.

Definition create_order (db : Shop.t price) (order : OrderCreate.t) (user_id : Z)
  : Shop.t price * result (Order.t price) :=
  place_order db (Some user_id) (OrderCreate.contact order) (OrderCreate.items order).
End OrderEngine.


Module ProductUpdate.
Record t {price : Type} : Type := mk {
  name : option string;
  original_price : option price;
  discount_price : option price;
  stock_quantity : option Z;
  is_active : option bool
}.
Arguments t : clear implicits.
Arguments mk {price}.
End ProductUpdate.

(** ** Guest checkout: the comma-separated cart *)

Section GuestCheckout.
Context {price : Type} `{PriceOps price}.

(** [[int(tok.strip()) for tok in s.split(',')]] *)
Definition parse_int_list (s : PyStr.t) : option (list Z) :=
  mapM (fun tok => PyStr.int (PyStr.strip tok)) (PyStr.split PyStr.comma s).

(** The [try] block of [create_guest_order]: every [ValueError] raised in
    it, by [int] or by the length test, leaves as the one re-raised
    [ValueError] of the [except] clause. *)
Definition parse_guest_items (product_ids quantities : PyStr.t)
  : result (list OrderItemBase.t) :=
  match parse_int_list product_ids with
  | None => Err InvalidFormat
  | Some product_id_list =>
      match parse_int_list quantities with
      | None => Err InvalidFormat
      | Some quantity_list =>
          if negb (Nat.eqb (length product_id_list) (length quantity_list))
          then Err InvalidFormat
          else Ok (zip_with OrderItemBase.mk product_id_list quantity_list)
      end
  end.

(** After the [try] block the body is that of [create_order] line for
    line, with [user_id=None]. *)
Definition create_guest_order (db : Shop.t price) (order : GuestOrderCreate.t)
  : Shop.t price * result (Order.t price) :=
  match parse_guest_items (GuestOrderCreate.product_ids order)
          (GuestOrderCreate.quantities order) with
  | Err e => (db, Err e)
  | Ok order_items => place_order db None (GuestOrderCreate.contact order) order_items
  end.

End GuestCheckout.

(** ** The catalog side: price updates, and what an order reads back *)

Section Catalog.
Context {price : Type} `{PriceOps price}.

(** The [setattr] loop of [update_product]: a key whose value is [None]
    is skipped. *)
Definition apply_update (u : ProductUpdate.t price) (p : Product.t price)
  : Product.t price :=
  Product.mk (Product.id p)
    (default (Product.name p) (ProductUpdate.name u))
    (default (Product.original_price p) (ProductUpdate.original_price u))
    (match ProductUpdate.discount_price u with
     | Some d => Some d
     | None => Product.discount_price p
     end)
    (default (Product.stock_quantity p) (ProductUpdate.stock_quantity u))
    (default (Product.is_active p) (ProductUpdate.is_active u)).

Definition with_products (db : Shop.t price) (ps : list (Product.t price))
  : Shop.t price :=
  Shop.mk ps (Shop.orders db) (Shop.order_items db)
    (Shop.next_order_id db) (Shop.next_order_item_id db).

Definition update_product (db : Shop.t price) (product_id : Z)
    (product_update : ProductUpdate.t price)
  : Shop.t price * option (Product.t price) :=
  match get_product_by_id db product_id with
  | Some db_product =>
      (with_products db
         (update_first (has_id product_id) (apply_update product_update)
            (Shop.products db)),
       Some (apply_update product_update db_product))
  | None => (db, None)
  end.

(** [order.items]: the rows of [order_items] that point to the order. *)
Definition items_of (db : Shop.t price) (order_id : Z) : list (OrderItem.t price) :=
  List.filter (fun it => OrderItem.order_id it =? order_id) (Shop.order_items db).

Definition stock_of (db : Shop.t price) (product_id : Z) : option Z :=
  Product.stock_quantity <$> get_product_by_id db product_id.
End Catalog.


(** ** Design votes *)

Module Design.
Record t : Type := mk {
  id : Z;
  user_id : Z;
  status : string;
  total_votes : Z
}.
End Design.

Module DesignVote.
Record t : Type := mk {
  id : Z;
  design_id : Z;
  user_id : Z;
  vote_type : string
}.
End DesignVote.

Module Studio.
Record t : Type := mk {
  designs : list Design.t;
  votes : list DesignVote.t;
  next_vote_id : Z
}.
End Studio.

Module Votes.

(** [DesignVote.design_id == design_id, DesignVote.user_id == user_id] *)
Definition by_pair (design_id user_id : Z) (v : DesignVote.t) : bool :=
  (DesignVote.design_id v =? design_id) && (DesignVote.user_id v =? user_id).

(** [DesignVote.design_id == design_id, DesignVote.vote_type == kind] *)
Definition by_kind (design_id : Z) (kind : string) (v : DesignVote.t) : bool :=
  (DesignVote.design_id v =? design_id) && String.eqb (DesignVote.vote_type v) kind.

Definition is_design (design_id : Z) (d : Design.t) : bool :=
  Design.id d =? design_id.

Definition get_design_by_id (db : Studio.t) (design_id : Z) : option Design.t :=
  first_row (is_design design_id) (Studio.designs db).

(** upvotes minus downvotes over the vote rows of the design *)
Definition tally (db : Studio.t) (design_id : Z) : Z :=
  count_rows (by_kind design_id "upvote") (Studio.votes db)
  - count_rows (by_kind design_id "downvote") (Studio.votes db).

Definition set_total_votes (n : Z) (d : Design.t) : Design.t :=
  Design.mk (Design.id d) (Design.user_id d) (Design.status d) n.

Definition update_design_vote_count (db : Studio.t) (design_id : Z) : Studio.t :=
  match get_design_by_id db design_id with
  | Some _ =>
      let upvotes := count_rows (by_kind design_id "upvote") (Studio.votes db) in
      let downvotes := count_rows (by_kind design_id "downvote") (Studio.votes db) in
      Studio.mk
        (update_first (is_design design_id) (set_total_votes (upvotes - downvotes))
           (Studio.designs db))
        (Studio.votes db) (Studio.next_vote_id db)
  | None => db
  end.

Definition set_vote_type (vote_type : string) (v : DesignVote.t) : DesignVote.t :=
  DesignVote.mk (DesignVote.id v) (DesignVote.design_id v) (DesignVote.user_id v)
    vote_type.

Definition create_vote (db : Studio.t) (design_id user_id : Z) (vote_type : string)
  : Studio.t * DesignVote.t :=
  match first_row (by_pair design_id user_id) (Studio.votes db) with
  | Some existing_vote =>
      (* existing_vote.vote_type = vote_type; commit; refresh; return *)
      (Studio.mk (Studio.designs db)
         (update_first (by_pair design_id user_id) (set_vote_type vote_type)
            (Studio.votes db))
         (Studio.next_vote_id db),
       set_vote_type vote_type existing_vote)
  | None =>
      let db_vote :=
        DesignVote.mk (Studio.next_vote_id db) design_id user_id vote_type in
      let db1 :=
        Studio.mk (Studio.designs db) (Studio.votes db ++ [db_vote])
          (Studio.next_vote_id db + 1) in
      (update_design_vote_count db1 design_id, db_vote)
  end.

Definition delete_vote (db : Studio.t) (design_id user_id : Z) : Studio.t * bool :=
  match first_row (by_pair design_id user_id) (Studio.votes db) with
  | Some _ =>
      let db1 :=
        Studio.mk (Studio.designs db)
          (delete_first (by_pair design_id user_id) (Studio.votes db))
          (Studio.next_vote_id db) in
      (update_design_vote_count db1 design_id, true)
  | None => (db, false)
  end.

Definition total_votes_of (db : Studio.t) (design_id : Z) : option Z :=
  Design.total_votes <$> get_design_by_id db design_id.

End Votes.

(** ** Coupon ledger *)

(** Points in time ([datetime]) are integers (microseconds on the UTC
    clock); the amount of a usage is a [float] the ledger only stores. *)
Module CouponCode.
Record t : Type := mk {
  id : Z;
  code : string;
  user_id : Z;
  discount_percentage : Z;
  max_uses : Z;
  used_count : Z;
  is_active : bool;
  expires_at : option Z;
  created_by_admin : option Z
}.
End CouponCode.

Module CouponUsage.
Record t {amount : Type} : Type := mk {
  id : Z;
  coupon_id : Z;
  order_id : Z;
  discount_amount : amount
}.
Arguments t : clear implicits.
Arguments mk {amount}.
End CouponUsage.

Module Ledger.
Record t {amount : Type} : Type := mk {
  coupons : list CouponCode.t;
  usages : list (CouponUsage.t amount);
  next_coupon_id : Z;
  next_usage_id : Z
}.
Arguments t : clear implicits.
Arguments mk {amount}.
End Ledger.

Module Coupons.
Section Ops.
Context {amount : Type}.

Definition has_code (code : string) (c : CouponCode.t) : bool :=
  String.eqb (CouponCode.code c) code.

Definition has_id (coupon_id : Z) (c : CouponCode.t) : bool :=
  CouponCode.id c =? coupon_id.

Definition get_coupon_by_code (db : Ledger.t amount) (code : string)
  : option CouponCode.t :=
  first_row (has_code code) (Ledger.coupons db).

Definition get_coupon_by_id (db : Ledger.t amount) (coupon_id : Z)
  : option CouponCode.t :=
  first_row (has_id coupon_id) (Ledger.coupons db).

(** [generate_coupon_code] is random; [draws] lists the eight-character
    strings it will produce, in order.  The loop keeps the first code no
    coupon has; [None] stands for a loop that has not ended when the draws
    are used up. *)
Fixpoint fresh_code (db : Ledger.t amount) (draws : list string) : option string :=
  match draws with
  | [] => None
  | d :: rest =>
      let code := ("LOYALTY" ++ d)%string in
      match get_coupon_by_code db code with
      | Some _ => fresh_code db rest
      | None => Some code
      end
  end.

Definition create_coupon_code (db : Ledger.t amount) (draws : list string)
    (user_id discount_percentage max_uses : Z) (expires_at created_by_admin : option Z)
  : option (Ledger.t amount * CouponCode.t) :=
  match fresh_code db draws with
  | None => None
  | Some code =>
      let db_coupon :=
        CouponCode.mk (Ledger.next_coupon_id db) code user_id discount_percentage
          max_uses 0 true expires_at created_by_admin in
      Some (Ledger.mk (Ledger.coupons db ++ [db_coupon]) (Ledger.usages db)
              (Ledger.next_coupon_id db + 1) (Ledger.next_usage_id db),
            db_coupon)
  end.

(** [utcnow] is the reading of the clock at the call. *)
Definition validate_coupon (db : Ledger.t amount) (code : string) (user_id utcnow : Z)
  : option CouponCode.t :=
  match get_coupon_by_code db code with
  | None => None
  | Some coupon =>
      if negb (CouponCode.user_id coupon =? user_id) then None
      else if negb (CouponCode.is_active coupon) then None
      else if match CouponCode.expires_at coupon with
              | Some t => t <? utcnow
              | None => false
              end then None
      else if CouponCode.max_uses coupon <=? CouponCode.used_count coupon then None
      else Some coupon
  end.

Definition set_is_active (b : bool) (c : CouponCode.t) : CouponCode.t :=
  CouponCode.mk (CouponCode.id c) (CouponCode.code c) (CouponCode.user_id c)
    (CouponCode.discount_percentage c) (CouponCode.max_uses c)
    (CouponCode.used_count c) b (CouponCode.expires_at c)
    (CouponCode.created_by_admin c).

Definition set_used_count (n : Z) (c : CouponCode.t) : CouponCode.t :=
  CouponCode.mk (CouponCode.id c) (CouponCode.code c) (CouponCode.user_id c)
    (CouponCode.discount_percentage c) (CouponCode.max_uses c)
    n (CouponCode.is_active c) (CouponCode.expires_at c)
    (CouponCode.created_by_admin c).

(** [coupon.used_count += 1], then [is_active = False] when
    [coupon.used_count >= coupon.max_uses]. *)
Definition redeem (c : CouponCode.t) : CouponCode.t :=
  let c1 := set_used_count (CouponCode.used_count c + 1) c in
  if CouponCode.max_uses c1 <=? CouponCode.used_count c1
  then set_is_active false c1 else c1.

Definition use_coupon (db : Ledger.t amount) (coupon_id order_id : Z)
    (discount_amount : amount) : Ledger.t amount * CouponUsage.t amount :=
  let db_usage :=
    CouponUsage.mk (Ledger.next_usage_id db) coupon_id order_id discount_amount in
  (Ledger.mk
     (match get_coupon_by_id db coupon_id with
      | Some _ => update_first (has_id coupon_id) redeem (Ledger.coupons db)
      | None => Ledger.coupons db
      end)
     (Ledger.usages db ++ [db_usage])
     (Ledger.next_coupon_id db) (Ledger.next_usage_id db + 1),
   db_usage).

Definition deactivate_coupon (db : Ledger.t amount) (coupon_id : Z)
  : Ledger.t amount * option CouponCode.t :=
  match get_coupon_by_id db coupon_id with
  | Some db_coupon =>
      (Ledger.mk (update_first (has_id coupon_id) (set_is_active false)
                    (Ledger.coupons db))
         (Ledger.usages db) (Ledger.next_coupon_id db) (Ledger.next_usage_id db),
       Some (set_is_active false db_coupon))
  | None => (db, None)
  end.

(** The calls a client of the ledger can make, and the store each leaves. *)
Inductive call : Type :=
  | IssueCoupon (draws : list string) (user_id discount_percentage max_uses : Z)
      (expires_at created_by_admin : option Z)
  | ValidateCoupon (code : string) (user_id utcnow : Z)
  | RedeemCoupon (coupon_id order_id : Z) (discount_amount : amount)
  | DeactivateCoupon (coupon_id : Z).

Definition step (db : Ledger.t amount) (c : call) : Ledger.t amount :=
  match c with
  | IssueCoupon draws user_id discount_percentage max_uses expires_at admin =>
      match create_coupon_code db draws user_id discount_percentage max_uses
              expires_at admin with
      | Some (db', _) => db'
      | None => db
      end
  | ValidateCoupon _ _ _ => db
  | RedeemCoupon coupon_id order_id discount_amount =>
      fst (use_coupon db coupon_id order_id discount_amount)
  | DeactivateCoupon coupon_id => fst (deactivate_coupon db coupon_id)
  end.

Definition run (db : Ledger.t amount) (calls : list call) : Ledger.t amount :=
  fold_left step calls db.

Definition empty : Ledger.t amount := Ledger.mk [] [] 1 1.

Definition reachable (db : Ledger.t amount) : Prop :=
  exists calls, db = run empty calls.

End Ops.
End Coupons.


(** ** Vocabulary of the statements *)

Section OrderVocabulary.
Context {price : Type} `{PriceOps price}.

(** The error a cart line meets in the first loop, if any. *)
Definition line_error (db : Shop.t price) (item : OrderItemBase.t) : option error :=
  match get_product_by_id db (OrderItemBase.product_id item) with
  | None => Some (NotFound (OrderItemBase.product_id item))
  | Some product =>
      if Product.stock_quantity product <? OrderItemBase.quantity item
      then Some (InsufficientStock (Product.name product))
      else if negb (int_converts (OrderItemBase.quantity item))
           then Some OverflowError
           else None
  end.

(** The line the first loop collects for a cart line that passes. *)
Definition priced_line (db : Shop.t price) (item : OrderItemBase.t)
  : option (ItemData.t price) :=
  match get_product_by_id db (OrderItemBase.product_id item) with
  | None => None
  | Some product =>
      if Product.stock_quantity product <? OrderItemBase.quantity item then None
      else if negb (int_converts (OrderItemBase.quantity item)) then None
      else Some (ItemData.mk (OrderItemBase.product_id item)
                   (OrderItemBase.quantity item) (unit_price_of product)
                   (pmul (unit_price_of product)
                      (price_of_int (OrderItemBase.quantity item))))
  end.

(** The [OrderItem] rows of an order, numbered from [n]. *)
Fixpoint item_rows (n order_id : Z) (ds : list (ItemData.t price))
  : list (OrderItem.t price) :=
  match ds with
  | [] => []
  | d :: rest =>
      OrderItem.mk n order_id (ItemData.product_id d) (ItemData.quantity d)
        (ItemData.unit_price d) (ItemData.total_price d)
      :: item_rows (n + 1) order_id rest
  end.

(** The quantity of one product over all lines of a cart. *)
Fixpoint ordered_quantity (product_id : Z) (items : list OrderItemBase.t) : Z :=
  match items with
  | [] => 0
  | item :: rest =>
      (if OrderItemBase.product_id item =? product_id
       then OrderItemBase.quantity item else 0)
      + ordered_quantity product_id rest
  end.

Definition cart_line (it : OrderItem.t price) : OrderItemBase.t :=
  OrderItemBase.mk (OrderItem.product_id it) (OrderItem.quantity it).

Definition line_of (d : ItemData.t price) : OrderItemBase.t :=
  OrderItemBase.mk (ItemData.product_id d) (ItemData.quantity d).

(** Referential integrity of the order tables: every id in use was handed
    out by the order sequence. *)
Definition fresh_order_ids (db : Shop.t price) : Prop :=
  Forall (fun it => OrderItem.order_id it < Shop.next_order_id db) (Shop.order_items db)
  /\ Forall (fun o => Order.id o < Shop.next_order_id db) (Shop.orders db).

(** [total_price == unit_price * quantity] on a stored row *)
Definition line_total_ok (it : OrderItem.t price) : Prop :=
  OrderItem.total_price it
  = pmul (OrderItem.unit_price it) (price_of_int (OrderItem.quantity it)).

(** The claim's words for a line that fails validation with error [e]:
    the product is absent, or its stock is less than the quantity asked. *)
Definition line_fails (db : Shop.t price) (item : OrderItemBase.t) (e : error) : Prop :=
  (get_product_by_id db (OrderItemBase.product_id item) = None
   /\ e = NotFound (OrderItemBase.product_id item))
  \/ (exists product,
        get_product_by_id db (OrderItemBase.product_id item) = Some product
        /\ Product.stock_quantity product < OrderItemBase.quantity item
        /\ e = InsufficientStock (Product.name product)).

(** A line that passes the first loop: its product exists, has the stock
    the line asks for, and the quantity converts to a [float]. *)
Definition line_passes (db : Shop.t price) (item : OrderItemBase.t) : Prop :=
  exists product,
    get_product_by_id db (OrderItemBase.product_id item) = Some product
    /\ OrderItemBase.quantity item <= Product.stock_quantity product
    /\ int_converts (OrderItemBase.quantity item) = true.

(** A line on which the first loop raises [e]: it fails validation, or it
    passes validation with a quantity that does not convert. *)
Definition line_raises (db : Shop.t price) (item : OrderItemBase.t) (e : error) : Prop :=
  line_fails db item e
  \/ (exists product,
        get_product_by_id db (OrderItemBase.product_id item) = Some product
        /\ OrderItemBase.quantity item <= Product.stock_quantity product
        /\ int_converts (OrderItemBase.quantity item) = false
        /\ e = OverflowError).

(** A call of [create_order] or of [create_guest_order] on the cart
    [items], with the store and the result it returns. *)
Definition order_attempt (db : Shop.t price) (items : list OrderItemBase.t)
    (out : Shop.t price * result (Order.t price)) : Prop :=
  (exists order user_id,
     OrderCreate.items order = items /\ create_order db order user_id = out)
  \/ (exists order,
        parse_guest_items (GuestOrderCreate.product_ids order)
          (GuestOrderCreate.quantities order) = Ok items
        /\ create_guest_order db order = out).

(** Such a call that succeeds, leaving [db'] and returning [o]. *)
Definition order_created (db : Shop.t price) (items : list OrderItemBase.t)
    (db' : Shop.t price) (o : Order.t price) : Prop :=
  order_attempt db items (db', Ok o).

End OrderVocabulary.

(** ** A small shop for the examples: exact prices in minor units *)

Definition demo_contact : Contact.t :=
  Contact.mk "1 Main St" "Ada" "ada@example.org" None "paypal" None.

Definition demo_shop : Shop.t Z :=
  Shop.mk
    [Product.mk 1 "mug" 1200 (Some 900) 5 true;
     Product.mk 2 "tee" 2500 None 3 true;
     Product.mk 3 "pin" 300 (Some 0) 10 true]
    [] [] 1 1.

Definition cart (lines : list (Z * Z)) : OrderCreate.t :=
  OrderCreate.mk (map (fun l => OrderItemBase.mk (fst l) (snd l)) lines) demo_contact.

(** A guest cart from two literals. *)
Definition guest_cart (product_ids quantities : string) : GuestOrderCreate.t :=
  GuestOrderCreate.mk (PyStr.of_string product_ids) (PyStr.of_string quantities)
    demo_contact.




(** ** A design with four voters, for the examples *)

Definition demo_studio : Studio.t :=
  Studio.mk [Design.mk 1 100 "approved" 0] [] 1.

(** Users 1, 2 and 3 vote up, user 4 votes down. *)
Definition voted_studio : Studio.t :=
  let db1 := (Votes.create_vote demo_studio 1 1 "upvote").1 in
  let db2 := (Votes.create_vote db1 1 2 "upvote").1 in
  let db3 := (Votes.create_vote db2 1 3 "upvote").1 in
  (Votes.create_vote db3 1 4 "downvote").1.

(** ** Vocabulary of the coupon statements *)

Section CouponVocabulary.
Context {amount : Type}.

(** The conditions of the specification for [validate_coupon] to return
    the coupon [c], word for word: the expiry, when set, lies in the
    future. *)
Definition valid_as_stated (db : Ledger.t amount) (code : string)
    (user_id utcnow : Z) (c : CouponCode.t) : Prop :=
  Coupons.get_coupon_by_code db code = Some c
  /\ CouponCode.user_id c = user_id
  /\ CouponCode.is_active c = true
  /\ (CouponCode.expires_at c = None
      \/ exists t, CouponCode.expires_at c = Some t /\ utcnow < t)
  /\ CouponCode.used_count c < CouponCode.max_uses c.

(** The same with the expiry as the code tests it: not in the past. *)
Definition valid_for (db : Ledger.t amount) (code : string)
    (user_id utcnow : Z) (c : CouponCode.t) : Prop :=
  Coupons.get_coupon_by_code db code = Some c
  /\ CouponCode.user_id c = user_id
  /\ CouponCode.is_active c = true
  /\ (CouponCode.expires_at c = None
      \/ exists t, CouponCode.expires_at c = Some t /\ utcnow <= t)
  /\ CouponCode.used_count c < CouponCode.max_uses c.

(** What the ledger keeps true of each coupon. *)
Definition coupon_ok (c : CouponCode.t) : Prop :=
  0 <= CouponCode.used_count c
  /\ (0 < CouponCode.max_uses c ->
      CouponCode.max_uses c <= CouponCode.used_count c ->
      CouponCode.is_active c = false)
  /\ (0 < CouponCode.used_count c ->
      CouponCode.max_uses c <= CouponCode.used_count c ->
      CouponCode.is_active c = false).

Definition ledger_ok (db : Ledger.t amount) : Prop :=
  NoDup (CouponCode.id <$> Ledger.coupons db)
  /\ NoDup (CouponCode.code <$> Ledger.coupons db)
  /\ Forall (fun c => CouponCode.id c < Ledger.next_coupon_id db) (Ledger.coupons db)
  /\ Forall coupon_ok (Ledger.coupons db).

(** Calls that all redeem the coupon [coupon_id]. *)
Definition redemptions (coupon_id : Z) (calls : list (@Coupons.call amount)) : Prop :=
  Forall (fun c => exists order_id discount_amount,
            c = Coupons.RedeemCoupon coupon_id order_id discount_amount) calls.
End CouponVocabulary.

(** A ledger with one coupon of user 7: three uses, expiring at 1000. *)
Definition demo_ledger : Ledger.t Z :=
  Coupons.run Coupons.empty
    [Coupons.IssueCoupon ["AB12CD34"] 7 10 3 (Some 1000) None].

Definition demo_coupon : CouponCode.t :=
  CouponCode.mk 1 "LOYALTYAB12CD34" 7 10 3 0 true (Some 1000) None.

(** A ledger with one coupon issued with [max_uses = 0]. *)
Definition zero_uses_ledger : Ledger.t Z :=
  Coupons.run Coupons.empty [Coupons.IssueCoupon ["ZZZZ0000"] 7 10 0 None None].

(** A single-use coupon redeemed twice. *)
Definition twice_redeemed_ledger : Ledger.t Z :=
  Coupons.run Coupons.empty
    [Coupons.IssueCoupon ["AAAA0000"] 7 10 1 None None;
     Coupons.RedeemCoupon 1 1 500;
     Coupons.RedeemCoupon 1 2 500].

(** Three coupons of two users; the first draw of the second issue is
    taken, the second and the third coupon are issued from the draw after;
    then a redemption and a deactivation. *)
Definition busy_ledger : Ledger.t Z :=
  Coupons.run Coupons.empty
    [Coupons.IssueCoupon ["AAAA0000"] 7 10 1 None None;
     Coupons.IssueCoupon ["AAAA0000"; "BBBB1111"] 8 15 2 None None;
     Coupons.IssueCoupon ["BBBB1111"; "AAAA0000"; "CCCC2222"] 7 20 5 (Some 1000) None;
     Coupons.RedeemCoupon 2 1 500;
     Coupons.DeactivateCoupon 3].

(** ** Further operations on the order tables, and the routes over them *)

(** What a route answers: the value it sends, or the status code of the
    [HTTPException] it raises.  The body a route formats from that value is
    not part of the model. *)
Inductive response (A : Type) : Type :=
  | Sent (a : A)
  | Refused (status_code : Z).
Arguments Sent {A} a.
Arguments Refused {A} status_code.

Definition valid_payment_methods : list string :=
  ["credit_card"; "debit_card"; "paypal"; "cash_on_delivery"; "bank_transfer"].

Definition valid_statuses : list string :=
  ["pending"; "confirmed"; "shipped"; "delivered"; "cancelled"].

(** [s in l] for a list of strings *)
Definition mentions (l : list string) (s : string) : bool :=
  existsb (String.eqb s) l.

Section OrderTables.
Context {price : Type} `{PriceOps price}.

Definition is_order (order_id : Z) (o : Order.t price) : bool :=
  Order.id o =? order_id.

Definition get_order_by_id (db : Shop.t price) (order_id : Z)
  : option (Order.t price) :=
  first_row (is_order order_id) (Shop.orders db).

Definition set_status (status : string) (o : Order.t price) : Order.t price :=
  Order.mk (Order.id o) (Order.user_id o) (Order.total_amount o) status
    (Order.contact o).

Definition with_orders (db : Shop.t price) (os : list (Order.t price))
  : Shop.t price :=
  Shop.mk (Shop.products db) os (Shop.order_items db)
    (Shop.next_order_id db) (Shop.next_order_item_id db).

Definition update_order_status (db : Shop.t price) (order_id : Z) (status : string)
  : Shop.t price * option (Order.t price) :=
  match get_order_by_id db order_id with
  | Some db_order =>
      (with_orders db
         (update_first (is_order order_id) (set_status status) (Shop.orders db)),
       Some (set_status status db_order))
  | None => (db, None)
  end.



(** [PUT /orders/{order_id}/status].  [new_status] is
    [status_update.get("status")]: [None] when the key is missing; a value
    that is not a string is refused like an unknown string. *)
Definition update_order_status_endpoint (db : Shop.t price) (order_id : Z)
    (new_status : option string) : Shop.t price * response string :=
  match get_order_by_id db order_id with
  | None => (db, Refused 404)
  | Some _ =>
      match new_status with
      | None => (db, Refused 400)
      | Some EmptyString => (db, Refused 400)
      | Some new_status =>
          if negb (mentions valid_statuses new_status) then (db, Refused 400)
          else
            match update_order_status db order_id new_status with
            | (db', Some _) => (db', Sent new_status)
            | (db', None) => (db', Refused 500)
            end
      end
  end.

(** The loop in which a route formats the rows of an order reads the
    product of each row; a row whose product is gone makes it fail on
    [None], with an exception no route catches. *)
Definition rows_have_products (db : Shop.t price) (order_id : Z) : bool :=
  forallb (fun it => match get_product_by_id db (OrderItem.product_id it) with
                     | Some _ => true
                     | None => false
                     end)
    (items_of db order_id).

(** What a route does with the outcome of an order creation: a
    [ValueError] becomes a 400; any other exception ([OverflowError],
    [AttributeError]) passes the [except ValueError] clause and is
    answered 500. *)
Definition answer_order (out : Shop.t price * result (Order.t price))
  : Shop.t price * response (Order.t price) :=
  match out with
  | (db', Ok db_order) =>
      if rows_have_products db' (Order.id db_order) then (db', Sent db_order)
      else (db', Refused 500)
  | (db', Err e) =>
      if is_value_error e then (db', Refused 400) else (db', Refused 500)
  end.

(** [POST /orders/] *)
Definition create_new_order (db : Shop.t price) (order : OrderCreate.t)
    (current_user : Z) : Shop.t price * response (Order.t price) :=
  if negb (mentions valid_payment_methods
             (Contact.payment_method (OrderCreate.contact order)))
  then (db, Refused 400)
  else answer_order (create_order db order current_user).

(** [POST /orders/guest] *)
Definition create_guest_order_endpoint (db : Shop.t price)
    (order : GuestOrderCreate.t) : Shop.t price * response (Order.t price) :=
  if negb (mentions valid_payment_methods
             (Contact.payment_method (GuestOrderCreate.contact order)))
  then (db, Refused 400)
  else answer_order (create_guest_order db order).

(** [GET /orders/{order_id}]: [order.user_id != current_user.id] compares
    an optional owner with an id. *)
Definition get_order (db : Shop.t price) (order_id current_user : Z)
  : response (Order.t price) :=
  match get_order_by_id db order_id with
  | None => Refused 404
  | Some order =>
      match Order.user_id order with
      | Some owner =>
          if owner =? current_user
          then if rows_have_products db (Order.id order) then Sent order
               else Refused 500
          else Refused 403
      | None => Refused 403
      end
  end.

(** [GET /orders/guest/{order_id}] *)
Definition get_guest_order (db : Shop.t price) (order_id : Z)
  : response (Order.t price) :=
  match get_order_by_id db order_id with
  | None => Refused 404
  | Some order =>
      match Order.user_id order with
      | Some _ => Refused 403
      | None =>
          if rows_have_products db (Order.id order) then Sent order
          else Refused 500
      end
  end.


Definition statuses_valid (db : Shop.t price) : Prop :=
  Forall (fun o => mentions valid_statuses (Order.status o) = true) (Shop.orders db).

End OrderTables.

(** ** Reviews *)

Module Review.
Record t : Type := mk {
  id : Z;
  user_id : Z;
  product_id : Z;
  rating : Z;
  comment : option string;
  image_url : option string;
  file_name : option string;
  file_size : option Z
}.
End Review.

Module ReviewCreate.
Record t : Type := mk {
  product_id : Z;
  rating : Z;
  comment : option string
}.
End ReviewCreate.

(** What [image_data.get] gives for the three keys [create_review] reads. *)
Module ReviewImage.
Record t : Type := mk {
  image_url : option string;
  file_name : option string;
  file_size : option Z
}.
End ReviewImage.

(** The keys a review update may carry. *)
Module ReviewUpdate.
Record t : Type := mk {
  rating : option Z;
  comment : option string
}.
End ReviewUpdate.

Module ReviewBook.
Record t : Type := mk {
  reviews : list Review.t;
  next_review_id : Z
}.
End ReviewBook.

Module Reviews.

(** [create_review] returns the row, or raises the [ValueError] of a
    second review. *)
Inductive outcome : Type :=
  | Reviewed (r : Review.t)
  | AlreadyReviewed.

Definition is_review (review_id : Z) (r : Review.t) : bool :=
  Review.id r =? review_id.

Definition by_author (user_id product_id : Z) (r : Review.t) : bool :=
  (Review.user_id r =? user_id) && (Review.product_id r =? product_id).

Definition owned (review_id user_id : Z) (r : Review.t) : bool :=
  (Review.id r =? review_id) && (Review.user_id r =? user_id).

Definition get_review_by_id (db : ReviewBook.t) (review_id : Z) : option Review.t :=
  first_row (is_review review_id) (ReviewBook.reviews db).

Definition get_user_review_for_product (db : ReviewBook.t) (user_id product_id : Z)
  : option Review.t :=
  first_row (by_author user_id product_id) (ReviewBook.reviews db).

Definition create_review (db : ReviewBook.t) (review : ReviewCreate.t) (user_id : Z)
    (image_data : option ReviewImage.t) : ReviewBook.t * outcome :=
  match get_user_review_for_product db user_id (ReviewCreate.product_id review) with
  | Some _ => (db, AlreadyReviewed)
  | None =>
      let db_review :=
        Review.mk (ReviewBook.next_review_id db) user_id
          (ReviewCreate.product_id review) (ReviewCreate.rating review)
          (ReviewCreate.comment review)
          (image_data ≫= ReviewImage.image_url)
          (image_data ≫= ReviewImage.file_name)
          (image_data ≫= ReviewImage.file_size) in
      (ReviewBook.mk (ReviewBook.reviews db ++ [db_review])
         (ReviewBook.next_review_id db + 1),
       Reviewed db_review)
  end.

Definition apply_update (u : ReviewUpdate.t) (r : Review.t) : Review.t :=
  Review.mk (Review.id r) (Review.user_id r) (Review.product_id r)
    (default (Review.rating r) (ReviewUpdate.rating u))
    (match ReviewUpdate.comment u with
     | Some c => Some c
     | None => Review.comment r
     end)
    (Review.image_url r) (Review.file_name r) (Review.file_size r).

Definition update_review (db : ReviewBook.t) (review_id user_id : Z)
    (review_update : ReviewUpdate.t) : ReviewBook.t * option Review.t :=
  match first_row (owned review_id user_id) (ReviewBook.reviews db) with
  | Some db_review =>
      (ReviewBook.mk
         (update_first (owned review_id user_id) (apply_update review_update)
            (ReviewBook.reviews db))
         (ReviewBook.next_review_id db),
       Some (apply_update review_update db_review))
  | None => (db, None)
  end.

Definition delete_review (db : ReviewBook.t) (review_id user_id : Z)
  : ReviewBook.t * bool :=
  match first_row (owned review_id user_id) (ReviewBook.reviews db) with
  | Some _ =>
      (ReviewBook.mk (delete_first (owned review_id user_id) (ReviewBook.reviews db))
         (ReviewBook.next_review_id db),
       true)
  | None => (db, false)
  end.

(** The calls on the review table, and the stores they can reach. *)
Inductive call : Type :=
  | Create (review : ReviewCreate.t) (user_id : Z) (image_data : option ReviewImage.t)
  | Update (review_id user_id : Z) (review_update : ReviewUpdate.t)
  | Delete (review_id user_id : Z).

Definition step (db : ReviewBook.t) (c : call) : ReviewBook.t :=
  match c with
  | Create review user_id image_data => (create_review db review user_id image_data).1
  | Update review_id user_id u => (update_review db review_id user_id u).1
  | Delete review_id user_id => (delete_review db review_id user_id).1
  end.

Definition run (db : ReviewBook.t) (calls : list call) : ReviewBook.t :=
  fold_left step calls db.

Definition empty : ReviewBook.t := ReviewBook.mk [] 1.

Definition reachable (db : ReviewBook.t) : Prop := exists calls, db = run empty calls.

Definition author_and_product (r : Review.t) : Z * Z :=
  (Review.user_id r, Review.product_id r).

(** What the review table keeps true: one review for an author and a
    product, one row for an id, every id handed out by the sequence. *)
Definition book_ok (db : ReviewBook.t) : Prop :=
  NoDup (author_and_product <$> ReviewBook.reviews db)
  /\ NoDup (Review.id <$> ReviewBook.reviews db)
  /\ Forall (fun r => Review.id r < ReviewBook.next_review_id db) (ReviewBook.reviews db).

(** The reviews of everybody but [user_id], in table order. *)
Definition reviews_of_others (user_id : Z) (db : ReviewBook.t) : list Review.t :=
  List.filter (fun r => negb (Review.user_id r =? user_id)) (ReviewBook.reviews db).

End Reviews.

(** ** Votes: the queries, and the studios the vote calls can reach *)

Module VoteOps.
Import Votes.

Definition get_user_vote (db : Studio.t) (design_id user_id : Z) : option DesignVote.t :=
  first_row (by_pair design_id user_id) (Studio.votes db).

Definition get_design_votes (db : Studio.t) (design_id : Z) : list DesignVote.t :=
  List.filter (fun v => DesignVote.design_id v =? design_id) (Studio.votes db).

Inductive call : Type :=
  | CastVote (design_id user_id : Z) (vote_type : string)
  | RemoveVote (design_id user_id : Z).

Definition step (db : Studio.t) (c : call) : Studio.t :=
  match c with
  | CastVote design_id user_id vote_type =>
      (create_vote db design_id user_id vote_type).1
  | RemoveVote design_id user_id => (delete_vote db design_id user_id).1
  end.

Definition run (db : Studio.t) (calls : list call) : Studio.t :=
  fold_left step calls db.

Definition voter (v : DesignVote.t) : Z * Z :=
  (DesignVote.design_id v, DesignVote.user_id v).

(** No two vote rows of one user on one design. *)
Definition one_vote_each (db : Studio.t) : Prop :=
  NoDup (voter <$> Studio.votes db).

(** No stored total is larger, in absolute value, than the number of vote
    rows of its design. *)
Definition totals_within_votes (db : Studio.t) : Prop :=
  forall design_id n,
    total_votes_of db design_id = Some n ->
    - Z.of_nat (length (get_design_votes db design_id)) <= n
    /\ n <= Z.of_nat (length (get_design_votes db design_id)).

(** The design a call is about. *)
Definition design_of (c : call) : Z :=
  match c with
  | CastVote design_id _ _ => design_id
  | RemoveVote design_id _ => design_id
  end.

End VoteOps.

(** ** Coupons: what the statements about the ledger count *)

Module CouponOps.
Section Ops.
Context {amount : Type}.

Definition get_user_coupons (db : Ledger.t amount) (user_id : Z) : list CouponCode.t :=
  List.filter (fun c => CouponCode.user_id c =? user_id) (Ledger.coupons db).

(** The number of usage rows that name the coupon. *)
Definition usages_of (db : Ledger.t amount) (coupon_id : Z) : Z :=
  count_rows (fun u => CouponUsage.coupon_id u =? coupon_id) (Ledger.usages db).

End Ops.
End CouponOps.

(** ** Data for the further examples *)

Section CatalogRuns.
Context {price : Type} `{PriceOps price}.

(** A run of [update_product] calls, one per pair of an id and an update. *)
Definition update_products (db : Shop.t price)
    (updates : list (Z * ProductUpdate.t price)) : Shop.t price :=
  fold_left (fun db u => (update_product db u.1 u.2).1) updates db.
End CatalogRuns.

(** The demo shop after user 7 has ordered two mugs and one tee. *)
Definition served_shop : Shop.t Z :=
  (create_order demo_shop (cart [(1, 2); (2, 1)]) 7).1.

Definition served_order : Order.t Z :=
  Order.mk 1 (Some 7) 4300 "pending" demo_contact.

(** A new price list: the mug loses its discount price in favour of a
    higher one, the tee gets one. *)
Definition new_prices : list (Z * ProductUpdate.t Z) :=
  [(1, ProductUpdate.mk None (Some 1500) (Some 1400) None None);
   (2, ProductUpdate.mk None None (Some 1999) None None)].

Definition demo_reviews : ReviewBook.t :=
  Reviews.run Reviews.empty
    [Reviews.Create (ReviewCreate.mk 1 5 (Some "sturdy")) 7 None;
     Reviews.Create (ReviewCreate.mk 1 2 None) 8 None;
     Reviews.Create (ReviewCreate.mk 2 4 None) 7 None].

(** * Properties *)

(** ** Tables *)

Section TableFacts.
Context {A : Type}.
Implicit Types (p q : A -> bool) (f : A -> A) (rows : list A).

Lemma first_row_update_same p f rows :
  (forall r, p (f r) = p r) ->
  first_row p (update_first p f rows) = f <$> first_row p rows.
Proof.
  intros Hp. induction rows as [|r rows IH]; simpl; [done|].
  destruct (p r) eqn:E; simpl.
  - by rewrite Hp, E.
  - by rewrite E.
Qed.

Lemma first_row_update_other p q f rows :
  (forall r, q (f r) = q r) ->
  (forall r, p r = true -> q r = false) ->
  first_row q (update_first p f rows) = first_row q rows.
Proof.
  intros Hq Hpq. induction rows as [|r rows IH]; simpl; [done|].
  destruct (p r) eqn:E; simpl.
  - by rewrite Hq, (Hpq r E).
  - by rewrite IH.
Qed.

Lemma first_row_app p rows1 rows2 :
  first_row p (rows1 ++ rows2)
  = match first_row p rows1 with Some r => Some r | None => first_row p rows2 end.
Proof.
  induction rows1 as [|r rows1 IH]; simpl; [done|]. by destruct (p r).
Qed.

Lemma first_row_Some p rows r :
  first_row p rows = Some r -> In r rows /\ p r = true.
Proof.
  induction rows as [|r' rows IH]; simpl; [done|].
  destruct (p r') eqn:E.
  - intros [= ->]. auto.
  - intros Hr. destruct (IH Hr). auto.
Qed.

Lemma first_row_None p rows :
  first_row p rows = None <-> Forall (fun r => p r = false) rows.
Proof.
  induction rows as [|r rows IH]; simpl.
  - split; [constructor|done].
  - destruct (p r) eqn:E.
    + split; [done|]. inversion 1; congruence.
    + rewrite IH. split; [by constructor|]. by inversion 1.
Qed.

Lemma update_first_length p f rows :
  length (update_first p f rows) = length rows.
Proof.
  induction rows as [|r rows IH]; simpl; [done|].
  destruct (p r); simpl; congruence.
Qed.

Lemma update_first_absent p f rows :
  first_row p rows = None -> update_first p f rows = rows.
Proof.
  induction rows as [|r rows IH]; simpl; [done|].
  destruct (p r); [done|]. intros Hn. by rewrite IH.
Qed.

Lemma count_rows_app p rows1 rows2 :
  count_rows p (rows1 ++ rows2) = (count_rows p rows1 + count_rows p rows2)%Z.
Proof.
  unfold count_rows. rewrite List.filter_app, length_app. lia.
Qed.

Lemma count_rows_nonneg p rows : (0 <= count_rows p rows)%Z.
Proof. unfold count_rows. lia. Qed.
End TableFacts.

(** ** The two loops of order creation *)

Section OrderFacts.
Context {price : Type} `{PriceOps price}.
Implicit Types (db : Shop.t price) (items : list OrderItemBase.t)
  (ds : list (ItemData.t price)).

Lemma priced_line_error db item :
  line_error db item = None <-> is_Some (priced_line db item).
Proof.
  unfold line_error, priced_line.
  destruct (get_product_by_id db _) as [p|]; [|split; [done|by intros [? ?]]].
  destruct (_ <? _); [split; [done|by intros [? ?]]|].
  destruct (negb _); split; try done; by intros [? ?].
Qed.

Lemma priced_line_fields db item d :
  priced_line db item = Some d ->
  line_of d = item
  /\ ItemData.total_price d
     = pmul (ItemData.unit_price d) (price_of_int (ItemData.quantity d))
  /\ exists product,
       get_product_by_id db (OrderItemBase.product_id item) = Some product
       /\ OrderItemBase.quantity item <= Product.stock_quantity product
       /\ ItemData.unit_price d = unit_price_of product.
Proof.
  unfold priced_line.
  destruct (get_product_by_id db _) as [p|] eqn:Ep; [|done].
  destruct (_ <? _) eqn:Es; [done|]. destruct (negb _); [done|]. intros [= <-].
  apply Z.ltb_ge in Es. destruct item; simpl in *.
  repeat split; eauto.
Qed.

Lemma line_error_passes db item :
  line_error db item = None <-> line_passes db item.
Proof.
  unfold line_error, line_passes.
  destruct (get_product_by_id db _) as [p|] eqn:Ep.
  - destruct (Z.ltb_spec (Product.stock_quantity p) (OrderItemBase.quantity item)).
    + split; [done|]. intros (p' & [= <-] & ? & _). lia.
    + destruct (int_converts _) eqn:Ec; simpl.
      * split; [|done]. intros _. by exists p.
      * split; [done|]. by intros (p' & _ & _ & ?).
  - split; [done|]. by intros (p' & ? & _).
Qed.

(** A run of the first loop that ends normally has priced every line, in
    order, and has added the line totals to the total one by one. *)
Lemma price_lines_ok db items : forall t acc t' acc',
  price_lines db items t acc = Ok (t', acc') ->
  exists ds,
    Forall2 (fun item d => priced_line db item = Some d) items ds
    /\ acc' = acc ++ ds
    /\ t' = fold_left padd (map ItemData.total_price ds) t.
Proof.
  induction items as [|item rest IH]; intros t acc t' acc'; simpl.
  - intros [= <- <-]. exists []. by rewrite app_nil_r.
  - destruct (get_product_by_id db _) as [p|] eqn:Ep; [|done].
    destruct (_ <? _) eqn:Es; [done|].
    destruct (negb _) eqn:Ec; [done|].
    intros Hrun. apply IH in Hrun as (ds & Hds & -> & ->).
    eexists (_ :: ds). split; [|split].
    + constructor; [|exact Hds]. unfold priced_line. by rewrite Ep, Es, Ec.
    + by rewrite <- app_assoc.
    + done.
Qed.

(** It ends normally exactly when no line has an error. *)
Lemma price_lines_passes db items : forall t acc,
  Forall (fun item => line_error db item = None) items ->
  is_ok (price_lines db items t acc) = true.
Proof.
  induction items as [|item rest IH]; intros t acc Hall; simpl; [done|].
  inversion Hall as [|? ? Hitem Hrest]; subst. unfold line_error in Hitem.
  destruct (get_product_by_id db _) as [p|]; [|done].
  destruct (_ <? _); [done|]. destruct (negb _); [done|]. by apply IH.
Qed.

(** Otherwise it raises the error of the first line that has one. *)
Lemma price_lines_err db items : forall t acc e,
  price_lines db items t acc = Err e ->
  exists pre item post,
    items = pre ++ item :: post
    /\ Forall (fun i => line_error db i = None) pre
    /\ line_error db item = Some e.
Proof.
  induction items as [|item rest IH]; intros t acc e; simpl; [done|].
  destruct (line_error db item) as [e'|] eqn:El.
  - intros Hrun. exists [], item, rest. repeat split; [constructor|].
    rewrite El. unfold line_error in El.
    destruct (get_product_by_id db _) as [p|] eqn:Ep; [|congruence].
    destruct (_ <? _) eqn:Es; [congruence|].
    destruct (negb _) eqn:Ec; [congruence|done].
  - pose proof El as El'. unfold line_error in El.
    destruct (get_product_by_id db _) as [p|] eqn:Ep; [|done].
    destruct (_ <? _) eqn:Es; [done|].
    destruct (negb _) eqn:Ec; [done|].
    intros Hrun. apply IH in Hrun as (pre & it & post & -> & Hpre & Hit).
    exists (item :: pre), it, post. repeat split; [by constructor|done].
Qed.

Lemma price_lines_fails db items t acc :
  Exists (fun item => line_error db item <> None) items ->
  exists e, price_lines db items t acc = Err e.
Proof.
  intros Hex. destruct (price_lines db items t acc) as [[t' acc']|e] eqn:Hrun;
    [|by eexists].
  apply price_lines_ok in Hrun as (ds & Hds & _ & _).
  exfalso. induction Hds as [|item d rest ds' Hd _ IH].
  - inversion Hex.
  - inversion Hex as [? ? Hbad|? ? Hbad]; subst; [|by apply IH].
    apply Hbad, priced_line_error. by rewrite Hd.
Qed.

(** *** The second loop *)

Lemma get_product_add_order_item db order_id d product_id :
  get_product_by_id (add_order_item db order_id d) product_id
  = get_product_by_id db product_id.
Proof. reflexivity. Qed.

Lemma get_product_decrement_stock db product_id quantity product_id' :
  get_product_by_id (decrement_stock db product_id quantity) product_id'
  = if decide (product_id = product_id')
    then (fun p => set_stock_quantity (Product.stock_quantity p - quantity) p)
           <$> get_product_by_id db product_id'
    else get_product_by_id db product_id'.
Proof.
  unfold get_product_by_id, decrement_stock; simpl. case_decide as Hid.
  - subst. by apply first_row_update_same.
  - apply first_row_update_other; [done|].
    unfold has_id. intros r Hr. apply Z.eqb_eq in Hr. apply Z.eqb_neq. congruence.
Qed.

Lemma stock_of_decrement_stock db product_id quantity product_id' :
  stock_of (decrement_stock db product_id quantity) product_id'
  = (fun s => s - (if product_id =? product_id' then quantity else 0))
      <$> stock_of db product_id'.
Proof.
  unfold stock_of. rewrite get_product_decrement_stock.
  case_decide as Hid.
  - subst. rewrite Z.eqb_refl. by destruct (get_product_by_id db _).
  - apply Z.eqb_neq in Hid. rewrite Hid.
    destruct (get_product_by_id db _); simpl; [f_equal; lia|done].
Qed.

(** The second loop, run on lines whose products exist, ends normally,
    appends the rows of the lines in order, and lowers every stock by the
    quantity the lines order of it in total. *)
Lemma persist_lines_spec order_id ds : forall db,
  Forall (fun d => is_Some (get_product_by_id db (ItemData.product_id d))) ds ->
  exists db',
    persist_lines db order_id ds = Ok db'
    /\ Shop.orders db' = Shop.orders db
    /\ Shop.next_order_id db' = Shop.next_order_id db
    /\ Shop.order_items db'
       = Shop.order_items db ++ item_rows (Shop.next_order_item_id db) order_id ds
    /\ forall product_id,
         stock_of db' product_id
         = (fun s => s - ordered_quantity product_id (map line_of ds))
             <$> stock_of db product_id.
Proof.
  induction ds as [|d rest IH]; intros db Hall.
  - exists db. simpl. repeat split; [by rewrite app_nil_r|].
    intros pid. destruct (stock_of db pid); simpl; [f_equal; lia|done].
  - inversion Hall as [|? ? [p Hp] Hrest]; subst. simpl.
    rewrite get_product_add_order_item, Hp.
    set (db1 := decrement_stock (add_order_item db order_id d) _ _).
    destruct (IH db1) as (db' & Hrun & Ho & Hn & Hi & Hs).
    { eapply Forall_impl; [exact Hrest|]. intros d' [p' Hp'].
      unfold db1. rewrite get_product_decrement_stock, get_product_add_order_item.
      case_decide; rewrite Hp'; by eexists. }
    exists db'. repeat split; try done.
    + rewrite Hi. simpl. by rewrite <- app_assoc.
    + intros pid. rewrite Hs. unfold db1. rewrite stock_of_decrement_stock.
      change (stock_of (add_order_item db order_id d) pid) with (stock_of db pid).
      destruct (stock_of db pid); simpl; [f_equal; lia|done].
Qed.

Lemma item_rows_order_id n order_id ds :
  Forall (fun it => OrderItem.order_id it = order_id) (item_rows n order_id ds).
Proof.
  revert n. induction ds as [|d rest IH]; intros n; simpl; constructor; auto.
Qed.

Lemma item_rows_lines n order_id ds :
  map cart_line (item_rows n order_id ds) = map line_of ds.
Proof.
  revert n. induction ds as [|d rest IH]; intros n; simpl; [done|]. by rewrite IH.
Qed.

Lemma item_rows_totals n order_id ds :
  map OrderItem.total_price (item_rows n order_id ds) = map ItemData.total_price ds.
Proof.
  revert n. induction ds as [|d rest IH]; intros n; simpl; [done|]. by rewrite IH.
Qed.

Lemma filter_all {A} (p : A -> bool) (l : list A) :
  Forall (fun x => p x = true) l -> List.filter p l = l.
Proof.
  induction 1 as [|x l Hx _ IH]; simpl; [done|]. by rewrite Hx, IH.
Qed.

Lemma filter_none {A} (p : A -> bool) (l : list A) :
  Forall (fun x => p x = false) l -> List.filter p l = [].
Proof.
  induction 1 as [|x l Hx _ IH]; simpl; [done|]. by rewrite Hx, IH.
Qed.
End OrderFacts.

(** ** Order creation as a whole *)

Section PlaceOrder.
Context {price : Type} `{PriceOps price}.
Implicit Types (db : Shop.t price) (items : list OrderItemBase.t)
  (ds : list (ItemData.t price)).

Lemma priced_lines_exist db o items ds :
  Forall2 (fun item d => priced_line db item = Some d) items ds ->
  Forall (fun d => is_Some (get_product_by_id (add_order db o) (ItemData.product_id d))) ds.
Proof.
  induction 1 as [|item d items ds Hd _ IH]; constructor; [|done].
  apply priced_line_fields in Hd as (Hl & _ & p & Hp & _).
  change (get_product_by_id (add_order db o) (ItemData.product_id d))
    with (get_product_by_id db (ItemData.product_id d)).
  rewrite <- Hl in Hp. simpl in Hp. by eexists.
Qed.

Lemma priced_lines_cart db items ds :
  Forall2 (fun item d => priced_line db item = Some d) items ds ->
  map line_of ds = items.
Proof.
  induction 1 as [|item d items ds Hd _ IH]; simpl; [done|].
  apply priced_line_fields in Hd as (-> & _). by rewrite IH.
Qed.

(** What a successful creation leaves behind. *)
Lemma place_order_ok db user_id contact items db' o :
  place_order db user_id contact items = (db', Ok o) ->
  exists ds,
    Forall2 (fun item d => priced_line db item = Some d) items ds
    /\ o = Order.mk (Shop.next_order_id db) user_id
             (price_sum (map ItemData.total_price ds)) "pending" contact
    /\ Shop.orders db' = Shop.orders db ++ [o]
    /\ Shop.next_order_id db' = Shop.next_order_id db + 1
    /\ Shop.order_items db'
       = Shop.order_items db
         ++ item_rows (Shop.next_order_item_id db) (Shop.next_order_id db) ds
    /\ forall product_id,
         stock_of db' product_id
         = (fun s => s - ordered_quantity product_id items) <$> stock_of db product_id.
Proof.
  unfold place_order.
  destruct (price_lines db items (price_of_int 0) []) as [[t acc]|e] eqn:Hfirst;
    [|done].
  apply price_lines_ok in Hfirst as (ds & Hds & -> & ->). simpl.
  set (o' := Order.mk _ _ _ _ _).
  destruct (persist_lines_spec (Shop.next_order_id db) ds (add_order db o')
              (priced_lines_exist db o' items ds Hds))
    as (db2 & Hrun & Ho & Hn & Hi & Hs).
  rewrite Hrun. intros [= <- <-]. exists ds.
  split; [exact Hds|]. split; [done|]. split; [by rewrite Ho|].
  split; [by rewrite Hn|]. split; [by rewrite Hi|].
  rewrite <- (priced_lines_cart db items ds Hds). exact Hs.
Qed.

(** A creation that fails has failed in the first loop, on the first line
    with an error, and hands the store back as it got it. *)
Lemma place_order_err db user_id contact items db' e :
  place_order db user_id contact items = (db', Err e) ->
  db' = db
  /\ exists pre item post,
       items = pre ++ item :: post
       /\ Forall (fun i => line_error db i = None) pre
       /\ line_error db item = Some e.
Proof.
  unfold place_order.
  destruct (price_lines db items (price_of_int 0) []) as [[t acc]|e'] eqn:Hfirst.
  - pose proof Hfirst as Hok.
    apply price_lines_ok in Hok as (ds & Hds & -> & ->). simpl.
    set (o' := Order.mk _ _ _ _ _).
    destruct (persist_lines_spec (Shop.next_order_id db) ds (add_order db o')
                (priced_lines_exist db o' items ds Hds)) as (db2 & Hrun & _).
    by rewrite Hrun.
  - intros [= <- <-]. split; [done|]. by eapply price_lines_err.
Qed.

Lemma place_order_passes db user_id contact items :
  Forall (fun item => line_error db item = None) items ->
  exists db' o, place_order db user_id contact items = (db', Ok o).
Proof.
  intros Hall.
  destruct (place_order db user_id contact items) as [db' [o|e]] eqn:Hrun;
    [by eauto|].
  apply place_order_err in Hrun as (_ & pre & item & post & -> & _ & Hbad).
  apply Forall_app in Hall as [_ Hall]. inversion Hall; congruence.
Qed.

Lemma place_order_fresh db user_id contact items db' r :
  fresh_order_ids db ->
  place_order db user_id contact items = (db', r) ->
  fresh_order_ids db'.
Proof.
  intros [Hitems Horders] Hrun. destruct r as [o|e].
  - apply place_order_ok in Hrun as (ds & _ & Ho & Hos & Hn & His & _).
    unfold fresh_order_ids. rewrite Hos, Hn, His. split.
    + apply Forall_app. split.
      * eapply Forall_impl; [exact Hitems|]. simpl. intros; lia.
      * eapply Forall_impl; [apply item_rows_order_id|]. simpl. intros; lia.
    + apply Forall_app. split.
      * eapply Forall_impl; [exact Horders|]. simpl. intros; lia.
      * constructor; [|constructor]. subst o. simpl. lia.
  - apply place_order_err in Hrun as [-> _]. by split.
Qed.

(** The rows of a new order are exactly the rows the creation appended. *)
Lemma items_of_new_order db db' rows :
  fresh_order_ids db ->
  Shop.order_items db' = Shop.order_items db ++ rows ->
  Forall (fun it => OrderItem.order_id it = Shop.next_order_id db) rows ->
  items_of db' (Shop.next_order_id db) = rows.
Proof.
  intros [Hold _] Hrows Hnew. unfold items_of. rewrite Hrows, List.filter_app.
  rewrite filter_none, filter_all; [done| |].
  - eapply Forall_impl; [exact Hnew|]. simpl. intros it ->. apply Z.eqb_refl.
  - eapply Forall_impl; [exact Hold|]. simpl. intros it Hlt. apply Z.eqb_neq. lia.
Qed.
End PlaceOrder.

(** ** The order engine against its specification *)

Section OrderClaims.
Context {price : Type} `{PriceOps price}.
Implicit Types (db : Shop.t price) (items : list OrderItemBase.t).

Lemma line_error_raises db item e :
  line_error db item = Some e <-> line_raises db item e.
Proof.
  unfold line_error, line_raises, line_fails.
  destruct (get_product_by_id db _) as [p|] eqn:Ep.
  - destruct (Z.ltb_spec (Product.stock_quantity p) (OrderItemBase.quantity item)).
    + split.
      * intros [= <-]. left. right. by exists p.
      * intros [[[? _]|(p' & [= <-] & _ & ->)]|(p' & [= <-] & ? & _)]; [done|done|lia].
    + destruct (int_converts _) eqn:Ec; simpl.
      * split; [done|].
        intros [[[? _]|(p' & [= <-] & ? & _)]|(p' & _ & _ & ? & _)]; [done|lia|done].
      * split.
        -- intros [= <-]. right. by exists p.
        -- intros [[[? _]|(p' & [= <-] & ? & _)]|(p' & _ & _ & _ & ->)]; [done|lia|done].
  - split.
    + intros [= <-]. left. by left.
    + intros [[[_ ->]|(p' & ? & _)]|(p' & ? & _)]; done.
Qed.

(** A line that fails validation raises the error of the failure. *)
Lemma line_fails_error db item e :
  line_fails db item e -> line_error db item = Some e.
Proof. intros Hf. apply line_error_raises. by left. Qed.

(** Without an overflow, a line raises only by failing validation. *)
Lemma line_error_converts db item e :
  int_converts (OrderItemBase.quantity item) = true ->
  line_error db item = Some e -> line_fails db item e.
Proof.
  intros Hc [Hf|(p & _ & _ & Hn & _)]%line_error_raises; [done|congruence].
Qed.

Lemma order_attempt_place db items out :
  order_attempt db items out ->
  exists user_id contact, place_order db user_id contact items = out.
Proof.
  intros [(order & uid & <- & Hrun)|(order & Hparse & Hrun)].
  - by exists (Some uid), (OrderCreate.contact order).
  - unfold create_guest_order in Hrun. rewrite Hparse in Hrun.
    by exists None, (GuestOrderCreate.contact order).
Qed.

(** The rows and the total of an order just created, in terms of the
    lines the first loop priced. *)
Lemma order_created_rows db items db' o :
  fresh_order_ids db ->
  order_created db items db' o ->
  exists ds,
    Forall2 (fun item d => priced_line db item = Some d) items ds
    /\ items_of db' (Order.id o)
       = item_rows (Shop.next_order_item_id db) (Shop.next_order_id db) ds
    /\ Order.total_amount o = price_sum (map ItemData.total_price ds)
    /\ In o (Shop.orders db').
Proof.
  intros Hfresh Hcreated.
  apply order_attempt_place in Hcreated as (uid & contact & Hrun).
  apply place_order_ok in Hrun as (ds & Hds & Ho & Hos & _ & His & _).
  exists ds. split; [done|].
  assert (Hid : Order.id o = Shop.next_order_id db) by (by subst o).
  rewrite Hid.
  rewrite (items_of_new_order db db' _ Hfresh His (item_rows_order_id _ _ _)).
  split; [done|]. split; [by subst o|].
  rewrite Hos. apply in_app_iff. right. by left.
Qed.

Lemma item_rows_Forall (P : OrderItem.t price -> Prop) n order_id
    (ds : list (ItemData.t price)) :
  (forall m d, In d ds ->
     P (OrderItem.mk m order_id (ItemData.product_id d) (ItemData.quantity d)
          (ItemData.unit_price d) (ItemData.total_price d))) ->
  Forall P (item_rows n order_id ds).
Proof.
  revert n. induction ds as [|d rest IH]; intros n HP; simpl; constructor.
  - apply HP. by left.
  - apply IH. intros m d' Hin. apply HP. by right.
Qed.

(** The rows of an order just created are the cart lines in order, each
    with [total_price = unit_price * quantity]. *)
Lemma order_total_rows db items db' o :
  fresh_order_ids db ->
  order_created db items db' o ->
  map cart_line (items_of db' (Order.id o)) = items
  /\ Forall line_total_ok (items_of db' (Order.id o)).
Proof.
  intros Hfresh Hcreated.
  destruct (order_created_rows db items db' o Hfresh Hcreated)
    as (ds & Hds & -> & Htotal & Hstored).
  split.
  - rewrite item_rows_lines. by eapply priced_lines_cart.
  - apply item_rows_Forall. intros m d Hin. unfold line_total_ok; simpl.
    apply list_elem_of_In in Hin.
    clear -Hds Hin. induction Hds as [|item d' items ds Hd _ IH].
    + by apply elem_of_nil in Hin.
    + apply elem_of_cons in Hin as [->|Hin]; [|by apply IH].
      apply priced_line_fields in Hd as (_ & Hd & _). exact Hd.
Qed.

(** C1.  Whenever [create_order] or [create_guest_order] succeeds on a
    store with sound order ids, the order it returns is stored, its rows
    are the cart lines in order, its [total_amount] is the sum of the
    [total_price] of its rows, and every row has
    [total_price = unit_price * quantity]. *)
Theorem order_total_is_sum_of_lines db items db' o :
  fresh_order_ids db ->
  order_created db items db' o ->
  In o (Shop.orders db')
  /\ map cart_line (items_of db' (Order.id o)) = items
  /\ Order.total_amount o
     = price_sum (map OrderItem.total_price (items_of db' (Order.id o)))
  /\ Forall line_total_ok (items_of db' (Order.id o)).
Proof.
  intros Hfresh Hcreated.
  destruct (order_created_rows db items db' o Hfresh Hcreated)
    as (ds & Hds & -> & Htotal & Hstored).
  split; [done|]. split; [|split].
  - rewrite item_rows_lines. by eapply priced_lines_cart.
  - by rewrite item_rows_totals.
  - apply item_rows_Forall. intros m d Hin. unfold line_total_ok; simpl.
    apply list_elem_of_In in Hin.
    clear -Hds Hin. induction Hds as [|item d' items ds Hd _ IH].
    + by apply elem_of_nil in Hin.
    + apply elem_of_cons in Hin as [->|Hin]; [|by apply IH].
      apply priced_line_fields in Hd as (_ & Hd & _). exact Hd.
Qed.

(** C3 (amended).  When some line of the cart fails validation (its
    product is absent, or has less stock than the line asks),
    [create_order] and [create_guest_order] raise and return the store
    they were given, unchanged: no stock lowered, no [Order] and no
    [OrderItem] row added.  The error is that of the first line of the
    cart that raises, every line before it having passed: [NotFound] for
    an absent product, [InsufficientStock] for a short stock, and
    [OverflowError] for a line that passes both checks with a quantity
    that does not convert to a [float]; so it is a validation error
    whenever the quantity of that line converts. *)
Theorem failed_validation_leaves_store_unchanged db items db' r :
  order_attempt db items (db', r) ->
  (exists item e, In item items /\ line_fails db item e) ->
  db' = db
  /\ exists pre item post e,
       items = pre ++ item :: post
       /\ Forall (line_passes db) pre
       /\ line_raises db item e
       /\ r = Err e
       /\ (int_converts (OrderItemBase.quantity item) = true -> line_fails db item e).
Proof.
  intros Hattempt (bad & e0 & Hin & Hbad).
  apply order_attempt_place in Hattempt as (uid & contact & Hrun).
  destruct r as [o|e].
  - exfalso. apply place_order_ok in Hrun as (ds & Hds & _).
    apply line_fails_error in Hbad.
    assert (Hall : Forall (fun i => is_Some (priced_line db i)) items).
    { clear -Hds. induction Hds; constructor; eauto. }
    rewrite Forall_forall in Hall. apply list_elem_of_In in Hin.
    apply Hall, priced_line_error in Hin. congruence.
  - apply place_order_err in Hrun as (-> & pre & item & post & -> & Hpre & Hitem).
    split; [done|]. exists pre, item, post, e. split; [done|]. split; [|split; [|split]].
    + eapply Forall_impl; [exact Hpre|]. intros i. apply line_error_passes.
    + by apply line_error_raises.
    + done.
    + intros Hc. by apply line_error_converts.
Qed.

(** The stock after a successful creation: every product has lost the
    quantity the cart orders of it in total, over all its lines. *)
Lemma order_created_stock db items db' o product_id :
  order_created db items db' o ->
  stock_of db' product_id
  = (fun s => s - ordered_quantity product_id items) <$> stock_of db product_id.
Proof.
  intros Hcreated.
  apply order_attempt_place in Hcreated as (uid & contact & Hrun).
  apply place_order_ok in Hrun as (ds & _ & _ & _ & _ & _ & Hs). apply Hs.
Qed.

(** The unit price of a line: the discount price when there is one and it
    is truthy, the original price otherwise. *)
Lemma unit_price_discounted (product : Product.t price) d :
  Product.discount_price product = Some d -> ptruthy d = true ->
  unit_price_of product = d.
Proof. unfold unit_price_of. by intros -> ->. Qed.

Lemma unit_price_no_discount (product : Product.t price) :
  Product.discount_price product = None ->
  unit_price_of product = Product.original_price product.
Proof. unfold unit_price_of. by intros ->. Qed.

Lemma unit_price_falsy_discount (product : Product.t price) d :
  Product.discount_price product = Some d -> ptruthy d = false ->
  unit_price_of product = Product.original_price product.
Proof. unfold unit_price_of. by intros -> ->. Qed.

(** The stored rows are a snapshot: [update_product] writes to the
    product table only. *)
Lemma update_product_keeps_orders db product_id u :
  Shop.orders (update_product db product_id u).1 = Shop.orders db
  /\ Shop.order_items (update_product db product_id u).1 = Shop.order_items db
  /\ forall order_id,
       items_of (update_product db product_id u).1 order_id = items_of db order_id.
Proof.
  unfold update_product. by destruct (get_product_by_id db product_id).
Qed.
End OrderClaims.

(** ** The order engine on exact prices *)


Lemma ordered_quantity_absent product_id items :
  ~ In product_id (map OrderItemBase.product_id items) ->
  ordered_quantity product_id items = 0.
Proof.
  induction items as [|item items IH]; simpl; [done|]. intros Hnot.
  destruct (_ =? _) eqn:E.
  - apply Z.eqb_eq in E. tauto.
  - rewrite IH; [lia|tauto].
Qed.

(** A product the cart names on one line only loses that line's
    quantity. *)
Lemma ordered_quantity_single item items :
  NoDup (map OrderItemBase.product_id items) -> In item items ->
  ordered_quantity (OrderItemBase.product_id item) items
  = OrderItemBase.quantity item.
Proof.
  induction items as [|item' items IH]; simpl; [done|].
  intros Hnd [->|Hin]; apply NoDup_cons in Hnd as [Hfirst Hrest].
  - rewrite Z.eqb_refl, ordered_quantity_absent; [lia|].
    by rewrite <- list_elem_of_In.
  - destruct (_ =? _) eqn:E.
    + apply Z.eqb_eq in E. exfalso. apply Hfirst. rewrite E.
      apply list_elem_of_In, in_map, Hin.
    + rewrite IH; [lia|done|done].
Qed.

(** On a cart without repeated products, a successful creation lowers the
    stock of each ordered product by the quantity of its line, and not
    below zero. *)
Lemma order_created_stock_distinct {price} `{PriceOps price}
    (db db' : Shop.t price) items o item :
  NoDup (map OrderItemBase.product_id items) ->
  order_created db items db' o ->
  In item items ->
  exists s,
    stock_of db (OrderItemBase.product_id item) = Some s
    /\ stock_of db' (OrderItemBase.product_id item)
       = Some (s - OrderItemBase.quantity item)
    /\ 0 <= s - OrderItemBase.quantity item.
Proof.
  intros Hnd Hcreated Hin.
  rewrite (order_created_stock db items db' o _ Hcreated).
  rewrite (ordered_quantity_single item items Hnd Hin).
  apply order_attempt_place in Hcreated as (uid & contact & Hrun).
  apply place_order_ok in Hrun as (ds & Hds & _).
  assert (Hitem : exists d, priced_line db item = Some d).
  { clear -Hds Hin. induction Hds as [|i d items ds Hd _ IH]; [done|].
    destruct Hin as [->|Hin]; eauto. }
  destruct Hitem as (d & Hd).
  apply priced_line_fields in Hd as (_ & _ & p & Hp & Hq & _).
  exists (Product.stock_quantity p). unfold stock_of. rewrite Hp. simpl.
  repeat split. lia.
Qed.

(** C2.  The stock check of a line reads the stock as it was before the
    order, so two lines for the same product pass one by one and are then
    both deducted: from a stock of 5, an order of 3 and 3 of the mug
    succeeds, by either entry point, and leaves a stock of -1. *)
Theorem repeated_product_oversells :
  stock_of demo_shop 1 = Some 5
  /\ is_ok (create_order demo_shop (cart [(1, 3); (1, 3)]) 7).2 = true
  /\ stock_of (create_order demo_shop (cart [(1, 3); (1, 3)]) 7).1 1 = Some (-1)
  /\ is_ok (create_guest_order demo_shop (guest_cart "1,1" "3,3")).2 = true
  /\ stock_of (create_guest_order demo_shop (guest_cart "1,1" "3,3")).1 1
     = Some (-1).
Proof. repeat split; vm_compute; reflexivity. Qed.

(** C4.  A discount price of 0 is present but falsy, and the line is
    priced at the original price: two pins (original price 300, discount
    price 0) are stored at unit price 300 and total price 600. *)
Theorem zero_discount_price_is_ignored :
  Product.discount_price <$> get_product_by_id demo_shop 3 = Some (Some 0)
  /\ map (fun it => (OrderItem.unit_price it, OrderItem.total_price it))
       (Shop.order_items (create_order demo_shop (cart [(3, 2)]) 7).1)
     = [(300, 600)]
  /\ Order.total_amount <$> Shop.orders (create_order demo_shop (cart [(3, 2)]) 7).1
     = [600].
Proof. repeat split; vm_compute; reflexivity. Qed.


(** C3, as stated, fails on the error raised.  The second line of the
    cart names a product that is absent, so it fails validation with
    [NotFound]; the first passes both checks with a quantity that does not
    convert to a [float], and the call raises [OverflowError] on it, which
    is the validation error of no line.  (The store is unchanged.) *)
Lemma overflow_hides_failed_validation :
  let items := [OrderItemBase.mk 1 (- (2 ^ 1024)); OrderItemBase.mk 9 1] in
  line_fails demo_shop (OrderItemBase.mk 9 1) (NotFound 9)
  /\ create_order demo_shop (OrderCreate.mk items demo_contact) 7
     = (demo_shop, Err OverflowError)
  /\ create_guest_order demo_shop
       (GuestOrderCreate.mk (PyStr.of_string "1,9")
          (PyStr.decimal (- (2 ^ 1024)) ++ PyStr.of_string ",1") demo_contact)
     = (demo_shop, Err OverflowError)
  /\ forall item e, line_fails demo_shop item e -> e <> OverflowError.
Proof.
  split; [left; split; reflexivity|]. split; [vm_compute; reflexivity|].
  split; [vm_compute; reflexivity|].
  intros item e [[_ ->]|(p & _ & _ & ->)]; discriminate.
Qed.






Lemma demo_shop_fresh : fresh_order_ids demo_shop.
Proof. split; constructor. Qed.

Lemma order_total_is_sum_of_lines_witness :
  exists db' o,
    create_order demo_shop (cart [(1, 2); (2, 1)]) 7 = (db', Ok o)
    /\ Order.total_amount o = 4300
    /\ In o (Shop.orders db')
    /\ map cart_line (items_of db' (Order.id o))
       = [OrderItemBase.mk 1 2; OrderItemBase.mk 2 1]
    /\ Order.total_amount o
       = price_sum (map OrderItem.total_price (items_of db' (Order.id o)))
    /\ Forall line_total_ok (items_of db' (Order.id o)).
Proof.
  eexists _, _. split; [vm_compute; reflexivity|]. split; [reflexivity|].
  apply (order_total_is_sum_of_lines demo_shop
           [OrderItemBase.mk 1 2; OrderItemBase.mk 2 1]).
  - split; constructor.
  - left. exists (cart [(1, 2); (2, 1)]), 7. split; vm_compute; reflexivity.
Defined.

Lemma failed_validation_leaves_store_unchanged_witness :
  let out := create_guest_order demo_shop (guest_cart "1, 2, 9" "1, 4, 1") in
  out.1 = demo_shop
  /\ exists pre item post e,
       [OrderItemBase.mk 1 1; OrderItemBase.mk 2 4; OrderItemBase.mk 9 1]
       = pre ++ item :: post
       /\ Forall (line_passes demo_shop) pre
       /\ line_raises demo_shop item e
       /\ out.2 = Err e
       /\ (int_converts (OrderItemBase.quantity item) = true ->
           line_fails demo_shop item e).
Proof.
  apply (failed_validation_leaves_store_unchanged demo_shop
           [OrderItemBase.mk 1 1; OrderItemBase.mk 2 4; OrderItemBase.mk 9 1]).
  - right. exists (guest_cart "1, 2, 9" "1, 4, 1"). split; [reflexivity|].
    by destruct (create_guest_order _ _).
  - exists (OrderItemBase.mk 9 1), (NotFound 9). split; [simpl; tauto|].
    left. split; reflexivity.
Defined.


(** ** The guest cart parser *)

Section PyStrFacts.
Import PyStr.
Implicit Types (s tok l r : PyStr.t) (c : Z) (p : Z -> bool).

Lemma lstrip_by_all p s : forallb p s = true -> lstrip_by p s = [].
Proof.
  induction s as [|c s IH]; simpl; [done|].
  intros [Hc Hs]%andb_true_iff. rewrite Hc. by apply IH.
Qed.

Lemma rstrip_by_all p s : forallb p s = true -> rstrip_by p s = [].
Proof.
  induction s as [|c s IH]; simpl; [done|].
  intros [Hc Hs]%andb_true_iff. by rewrite (IH Hs), Hc.
Qed.

Lemma lstrip_by_app_all p l s :
  forallb p l = true -> lstrip_by p (l ++ s) = lstrip_by p s.
Proof.
  induction l as [|c l IH]; simpl; [done|].
  intros [Hc Hl]%andb_true_iff. rewrite Hc. by apply IH.
Qed.

Lemma rstrip_by_app_all p s r :
  forallb p r = true -> rstrip_by p (s ++ r) = rstrip_by p s.
Proof.
  intros Hr. induction s as [|c s IH]; simpl.
  - by apply rstrip_by_all.
  - by rewrite IH.
Qed.

Lemma lstrip_by_app_rest p tok r :
  lstrip_by p tok <> [] -> lstrip_by p (tok ++ r) = lstrip_by p tok ++ r.
Proof.
  induction tok as [|c tok IH]; simpl; [done|].
  destruct (p c); [exact IH|done].
Qed.

Lemma lstrip_by_empty p tok : lstrip_by p tok = [] -> forallb p tok = true.
Proof.
  induction tok as [|c tok IH]; simpl; [done|].
  destruct (p c); [exact IH|done].
Qed.

(** [strip] drops the white space around a token, whatever the token. *)
Lemma strip_padded l tok r :
  all_space l -> all_space r -> strip (l ++ tok ++ r) = strip tok.
Proof.
  intros Hl Hr. unfold strip. rewrite lstrip_by_app_all by done.
  destruct (decide (lstrip_by is_space tok = [])) as [Ht|Ht].
  - rewrite Ht. apply lstrip_by_empty in Ht.
    rewrite lstrip_by_app_all, lstrip_by_all by done. done.
  - rewrite lstrip_by_app_rest by done. by apply rstrip_by_app_all.
Qed.

Lemma all_space_no_comma s : all_space s -> no_comma s.
Proof.
  unfold all_space, no_comma. induction s as [|c s IH]; simpl; [done|].
  intros [Hc Hs]%andb_true_iff. rewrite (IH Hs), andb_true_r.
  destruct (Z.eqb_spec c comma); [by subst|done].
Qed.

Lemma no_comma_app s tok : no_comma s -> no_comma tok -> no_comma (s ++ tok).
Proof.
  unfold no_comma. induction s as [|c s IH]; simpl; [done|].
  intros [Hc Hs]%andb_true_iff Ht. rewrite Hc. by apply IH.
Qed.

Lemma split_no_comma s : no_comma s -> split comma s = [s].
Proof.
  unfold no_comma. induction s as [|c s IH]; simpl; [done|].
  intros [Hc Hs]%andb_true_iff. apply negb_true_iff in Hc. by rewrite Hc, IH.
Qed.

Lemma split_app_comma s tok :
  no_comma s -> split comma (s ++ comma :: tok) = s :: split comma tok.
Proof.
  unfold no_comma. induction s as [|c s IH]; simpl; [done|].
  intros [Hc Hs]%andb_true_iff. apply negb_true_iff in Hc. by rewrite Hc, IH.
Qed.

(** Splitting undoes joining, for pieces without commas. *)
Lemma split_join (parts : list PyStr.t) :
  parts <> [] -> Forall no_comma parts -> split comma (join [comma] parts) = parts.
Proof.
  induction parts as [|tok rest IH]; [done|]. intros _ Hall.
  inversion Hall as [|? ? Hp Hrest]; subst.
  destruct rest as [|q rest]; [by apply split_no_comma|].
  change (join [comma] (tok :: q :: rest))
    with (tok ++ comma :: join [comma] (q :: rest)).
  rewrite split_app_comma by done. by rewrite IH.
Qed.

Lemma split_nonempty c s : (0 < length (split c s))%nat.
Proof.
  destruct s as [|c' s]; simpl; [lia|].
  destruct (c' =? c); simpl; [lia|]. destruct (split c s); simpl; lia.
Qed.

Lemma well_padded_no_comma (w : PyStr.t * PyStr.t * PyStr.t) :
  well_padded w -> no_comma (padded w).
Proof.
  intros (Hl & Ht & Hr). unfold padded.
  auto using no_comma_app, all_space_no_comma.
Qed.

Lemma mapM_fmap_agree {A B C} (f : B -> option C) (g h : A -> B) (xs : list A) :
  Forall (fun x => f (g x) = f (h x)) xs ->
  mapM f (g <$> xs) = mapM f (h <$> xs).
Proof.
  induction 1 as [|x xs Hx _ IH]; [done|].
  rewrite !fmap_cons. simpl. by rewrite Hx, IH.
Qed.

(** A list written with white space around its tokens parses as the list
    written without. *)
Lemma parse_int_list_padded (toks : list (PyStr.t * PyStr.t * PyStr.t)) :
  toks <> [] -> Forall well_padded toks ->
  parse_int_list (join [comma] (padded <$> toks))
  = parse_int_list (join [comma] (bare <$> toks)).
Proof.
  intros Hne Hall. unfold parse_int_list.
  rewrite !split_join.
  - apply mapM_fmap_agree. eapply Forall_impl; [exact Hall|].
    intros [[l tok] r] (Hl & Ht & Hr). unfold padded, bare. simpl in *.
    by rewrite strip_padded.
  - by destruct toks.
  - apply Forall_fmap. eapply Forall_impl; [exact Hall|]. by intros ? (_ & ? & _).
  - by destruct toks.
  - apply Forall_fmap. eapply Forall_impl; [exact Hall|].
    intros; by apply well_padded_no_comma.
Qed.

Lemma parse_int_list_length s ns :
  parse_int_list s = Some ns -> length ns = length (split comma s).
Proof. unfold parse_int_list. intros Hm. symmetry. by eapply length_mapM. Qed.

Lemma parse_int_list_bad_token s tok :
  In tok (split comma s) -> PyStr.int (strip tok) = None -> parse_int_list s = None.
Proof.
  unfold parse_int_list. intros Hin Hbad. apply mapM_None, Exists_exists.
  exists tok. split; [by apply list_elem_of_In|done].
Qed.

(** The list parses to [ns] exactly when its tokens, stripped, convert to
    the numbers of [ns] one by one. *)
Lemma parse_int_list_tokens s ns :
  parse_int_list s = Some ns
  <-> Forall2 (fun tok n => PyStr.int (strip tok) = Some n) (split comma s) ns.
Proof. unfold parse_int_list. apply mapM_Some. Qed.

Lemma parse_guest_items_length product_ids quantities :
  length (split comma product_ids) <> length (split comma quantities) ->
  parse_guest_items product_ids quantities = Err InvalidFormat.
Proof.
  intros Hlen. unfold parse_guest_items.
  destruct (parse_int_list product_ids) as [ps|] eqn:Hp; [|done].
  destruct (parse_int_list quantities) as [qs|] eqn:Hq; [|done].
  apply parse_int_list_length in Hp, Hq.
  destruct (Nat.eqb_spec (length ps) (length qs)); [congruence|done].
Qed.

Lemma parse_guest_items_bad_token product_ids quantities tok :
  In tok (split comma product_ids ++ split comma quantities) ->
  PyStr.int (strip tok) = None ->
  parse_guest_items product_ids quantities = Err InvalidFormat.
Proof.
  intros Hin Hbad. unfold parse_guest_items.
  apply in_app_iff in Hin as [Hin|Hin].
  - by rewrite (parse_int_list_bad_token product_ids tok).
  - rewrite (parse_int_list_bad_token quantities tok) by done.
    by destruct (parse_int_list product_ids).
Qed.

Lemma parse_guest_items_tokens product_ids quantities ps qs :
  Forall2 (fun tok n => PyStr.int (strip tok) = Some n) (split comma product_ids) ps ->
  Forall2 (fun tok n => PyStr.int (strip tok) = Some n) (split comma quantities) qs ->
  length ps = length qs ->
  parse_guest_items product_ids quantities = Ok (zip_with OrderItemBase.mk ps qs).
Proof.
  intros Hp%parse_int_list_tokens Hq%parse_int_list_tokens Hlen.
  unfold parse_guest_items. by rewrite Hp, Hq, Hlen, Nat.eqb_refl.
Qed.
End PyStrFacts.

Section GuestClaims.
Context {price : Type} `{PriceOps price}.
Import PyStr.

(** C9.  [create_guest_order] reads the two strings as comma-separated
    lists and pairs them by position: on ["1,2"] with ["3,4"] it runs the
    order body on the lines (1,3) and (2,4), and in general on the lines
    that pair the number of each product token with the number of the
    quantity token at the same place, with no user; it creates the order
    when these lines pass.  White space around a token does not matter.
    When the two lists differ in length, or a token is not an integer, the
    call raises [InvalidFormat] and leaves the store as it was.  The order
    of a call that succeeds is stored with no user. *)
Theorem guest_cart_is_parsed_by_position (db : Shop.t price) :
  (forall contact,
     create_guest_order db
       (GuestOrderCreate.mk (of_string "1,2") (of_string "3,4") contact)
     = place_order db None contact [OrderItemBase.mk 1 3; OrderItemBase.mk 2 4])
  /\ (forall order ps qs,
        Forall2 (fun tok n => PyStr.int (strip tok) = Some n)
          (split comma (GuestOrderCreate.product_ids order)) ps ->
        Forall2 (fun tok n => PyStr.int (strip tok) = Some n)
          (split comma (GuestOrderCreate.quantities order)) qs ->
        length ps = length qs ->
        create_guest_order db order
        = place_order db None (GuestOrderCreate.contact order)
            (zip_with OrderItemBase.mk ps qs)
        /\ (Forall (line_passes db) (zip_with OrderItemBase.mk ps qs) ->
            exists db' o,
              create_guest_order db order = (db', Ok o)
              /\ (fresh_order_ids db ->
                  map cart_line (items_of db' (Order.id o))
                  = zip_with OrderItemBase.mk ps qs)))
  /\ (forall ptoks qtoks contact,
        ptoks <> [] -> qtoks <> [] ->
        Forall well_padded ptoks -> Forall well_padded qtoks ->
        create_guest_order db
          (GuestOrderCreate.mk (join [comma] (padded <$> ptoks))
             (join [comma] (padded <$> qtoks)) contact)
        = create_guest_order db
            (GuestOrderCreate.mk (join [comma] (bare <$> ptoks))
               (join [comma] (bare <$> qtoks)) contact))
  /\ (forall order,
        length (split comma (GuestOrderCreate.product_ids order))
        <> length (split comma (GuestOrderCreate.quantities order)) ->
        create_guest_order db order = (db, Err InvalidFormat))
  /\ (forall order tok,
        In tok (split comma (GuestOrderCreate.product_ids order)
                ++ split comma (GuestOrderCreate.quantities order)) ->
        PyStr.int (strip tok) = None ->
        create_guest_order db order = (db, Err InvalidFormat))
  /\ (forall db' order o,
        create_guest_order db order = (db', Ok o) ->
        Order.user_id o = None /\ Shop.orders db' = Shop.orders db ++ [o]).
Proof.
  split; [reflexivity|]. split; [|split; [|split; [|split]]].
  - intros order ps qs Hp Hq Hlen.
    assert (Hrun : create_guest_order db order
                   = place_order db None (GuestOrderCreate.contact order)
                       (zip_with OrderItemBase.mk ps qs)).
    { unfold create_guest_order.
      by rewrite (parse_guest_items_tokens _ _ ps qs Hp Hq Hlen). }
    split; [exact Hrun|]. intros Hpass.
    destruct (place_order_passes db None (GuestOrderCreate.contact order)
                (zip_with OrderItemBase.mk ps qs)) as (db' & o & Hok).
    { eapply Forall_impl; [exact Hpass|]. intros item. apply line_error_passes. }
    exists db', o. rewrite Hrun. split; [exact Hok|]. intros Hfresh.
    apply (order_total_rows db _ db' o Hfresh). right. exists order.
    split; [by apply parse_guest_items_tokens|]. by rewrite Hrun.
  - intros ptoks qtoks contact Hp Hq Hps Hqs.
    unfold create_guest_order, parse_guest_items. simpl.
    by rewrite !parse_int_list_padded.
  - intros order Hlen. unfold create_guest_order.
    by rewrite parse_guest_items_length.
  - intros order tok Hin Hbad. unfold create_guest_order.
    by rewrite (parse_guest_items_bad_token _ _ tok).
  - intros db' order o. unfold create_guest_order.
    destruct (parse_guest_items _ _) as [items|e]; [|done].
    intros Hrun. apply place_order_ok in Hrun as (ds & _ & -> & Hos & _).
    by split.
Qed.
End GuestClaims.

Lemma guest_cart_is_parsed_by_position_witness :
  (exists db' o,
     create_guest_order demo_shop (guest_cart " 1 , 2" "3,1 ") = (db', Ok o)
     /\ Order.user_id o = None
     /\ map cart_line (items_of db' (Order.id o))
        = [OrderItemBase.mk 1 3; OrderItemBase.mk 2 1])
  /\ create_guest_order demo_shop (guest_cart "1,2" "3") = (demo_shop, Err InvalidFormat)
  /\ create_guest_order demo_shop (guest_cart "1,x" "3,4")
     = (demo_shop, Err InvalidFormat)
  /\ create_guest_order demo_shop (guest_cart " 1 ,2" "3, 4 ")
     = create_guest_order demo_shop (guest_cart "1,2" "3,4").
Proof.
  destruct (@guest_cart_is_parsed_by_position Z exact_price demo_shop)
    as (_ & Hpos & Hpad & Hlen & Htok & Hguest).
  split; [|split; [|split]].
  - destruct (Hpos (guest_cart " 1 , 2" "3,1 ") [1; 2] [3; 1]) as [_ Hcreated].
    + repeat constructor.
    + repeat constructor.
    + reflexivity.
    + destruct Hcreated as (db' & o & Hrun & Hrows).
      * repeat constructor; eexists;
          (split; [reflexivity|split; [vm_compute; discriminate|reflexivity]]).
      * exists db', o. split; [exact Hrun|].
        split; [exact (proj1 (Hguest db' _ o Hrun))|].
        apply Hrows. split; constructor.
  - apply Hlen. vm_compute. discriminate.
  - apply (Htok _ (PyStr.of_string "x")); [vm_compute; tauto|reflexivity].
  - apply (Hpad
             [(PyStr.of_string " ", PyStr.of_string "1", PyStr.of_string " ");
              ([], PyStr.of_string "2", [])]
             [([], PyStr.of_string "3", []);
              (PyStr.of_string " ", PyStr.of_string "4", PyStr.of_string " ")]
             demo_contact);
      [discriminate|discriminate| |]; repeat constructor.
Defined.

Example parse_guest_items_1_2_3_4 :
  parse_guest_items (PyStr.of_string "1,2") (PyStr.of_string "3,4")
  = Ok [OrderItemBase.mk 1 3; OrderItemBase.mk 2 4].
Proof. reflexivity. Qed.

Example parse_guest_items_spaces :
  parse_guest_items (PyStr.of_string " 1 , 2") (9 :: PyStr.of_string "3 , 4" ++ [8195])
  = Ok [OrderItemBase.mk 1 3; OrderItemBase.mk 2 4].
Proof. reflexivity. Qed.

Example parse_guest_items_mismatch :
  parse_guest_items (PyStr.of_string "1,2") (PyStr.of_string "3") = Err InvalidFormat.
Proof. reflexivity. Qed.

(** [int] on ASCII and on other decimal digits; FS is white space for
    [strip] and not for [int]; the digit limit counts leading zeros. *)
Example int_examples :
  PyStr.int (PyStr.of_string "007") = Some 7
  /\ PyStr.int (PyStr.of_string "-12") = Some (-12)
  /\ PyStr.int (PyStr.of_string "+1_000") = Some 1000
  /\ PyStr.int (PyStr.of_string "1__0") = None
  /\ PyStr.int [] = None
  /\ PyStr.int (PyStr.of_string "1_") = None
  /\ PyStr.int (PyStr.of_string "_1") = None
  /\ PyStr.int (PyStr.of_string "1.5") = None
  /\ PyStr.int (PyStr.of_string "- 5") = None
  /\ PyStr.int (PyStr.of_string " 5 ") = Some 5
  /\ PyStr.int [1635; 1636] = Some 34
  /\ PyStr.int [28; 49] = None
  /\ PyStr.int (PyStr.strip [28; 49]) = Some 1
  /\ PyStr.int (repeat 48 4300) = Some 0
  /\ PyStr.int (repeat 48 4301) = None.
Proof. repeat split; vm_compute; reflexivity. Qed.

(** ** Design votes *)

Section VoteFacts.
Import Votes.

Lemma tally_recount db design_id :
  tally (update_design_vote_count db design_id) design_id = tally db design_id.
Proof.
  unfold tally, update_design_vote_count.
  by destruct (get_design_by_id db design_id).
Qed.

(** After a recount the stored total of the design is its tally. *)
Lemma recount_total db design_id :
  is_Some (get_design_by_id db design_id) ->
  total_votes_of (update_design_vote_count db design_id) design_id
  = Some (tally db design_id).
Proof.
  intros [d Hd]. unfold total_votes_of, update_design_vote_count, get_design_by_id in *.
  rewrite Hd. simpl. rewrite first_row_update_same by done. by rewrite Hd.
Qed.

(** The path of a first vote: a row is appended and the total recounted. *)
Lemma create_vote_new db design_id user_id vote_type :
  first_row (by_pair design_id user_id) (Studio.votes db) = None ->
  is_Some (get_design_by_id db design_id) ->
  let out := create_vote db design_id user_id vote_type in
  Studio.votes out.1 = Studio.votes db ++ [out.2]
  /\ out.2 = DesignVote.mk (Studio.next_vote_id db) design_id user_id vote_type
  /\ total_votes_of out.1 design_id = Some (tally out.1 design_id).
Proof.
  intros Hnone Hd. unfold create_vote. rewrite Hnone. simpl.
  rewrite tally_recount, recount_total by done.
  repeat split. unfold update_design_vote_count.
  by destruct (get_design_by_id _ _).
Qed.

(** The path of a repeated vote: the row is overwritten in place, and
    nothing else is written; the design table is as it was. *)
Lemma create_vote_existing db design_id user_id vote_type v :
  first_row (by_pair design_id user_id) (Studio.votes db) = Some v ->
  let out := create_vote db design_id user_id vote_type in
  Studio.votes out.1
  = update_first (by_pair design_id user_id) (set_vote_type vote_type) (Studio.votes db)
  /\ length (Studio.votes out.1) = length (Studio.votes db)
  /\ out.2 = set_vote_type vote_type v
  /\ Studio.designs out.1 = Studio.designs db.
Proof.
  intros Hsome. unfold create_vote. rewrite Hsome. simpl.
  by rewrite update_first_length.
Qed.

(** Removing a vote recounts. *)
Lemma delete_vote_recounts db design_id user_id :
  is_Some (first_row (by_pair design_id user_id) (Studio.votes db)) ->
  is_Some (get_design_by_id db design_id) ->
  let out := delete_vote db design_id user_id in
  out.2 = true
  /\ total_votes_of out.1 design_id = Some (tally out.1 design_id).
Proof.
  intros [v Hv] Hd. unfold delete_vote. rewrite Hv. simpl.
  by rewrite tally_recount, recount_total.
Qed.
End VoteFacts.

(** C5.  A repeated vote returns before the recount.  With three upvotes
    and one downvote the design stands at 2; when user 1 changes the
    upvote to a downvote the row is overwritten in place, the votes now
    tally to 0, and the stored [total_votes] is still 2. *)
Theorem revote_skips_the_recount :
  Votes.total_votes_of voted_studio 1 = Some 2
  /\ Votes.tally voted_studio 1 = 2
  /\ length (Studio.votes (Votes.create_vote voted_studio 1 1 "downvote").1)
     = length (Studio.votes voted_studio)
  /\ (Votes.create_vote voted_studio 1 1 "downvote").2
     = DesignVote.mk 1 1 1 "downvote"
  /\ Votes.tally (Votes.create_vote voted_studio 1 1 "downvote").1 1 = 0
  /\ Votes.total_votes_of (Votes.create_vote voted_studio 1 1 "downvote").1 1
     = Some 2.
Proof. repeat split; vm_compute; reflexivity. Qed.

(** ** Coupon ledger *)

Section KeyedTables.
Context {A K : Type}.
Implicit Types (p : A -> bool) (f : A -> A) (key : A -> K) (rows : list A).

Lemma update_first_keys p f key rows :
  (forall r, key (f r) = key r) ->
  key <$> update_first p f rows = key <$> rows.
Proof.
  intros Hkey. induction rows as [|r rows IH]; [done|].
  cbn [update_first]. destruct (p r); rewrite !fmap_cons; [by rewrite Hkey|by rewrite IH].
Qed.

Lemma update_first_Forall (P : A -> Prop) p f rows :
  (forall r, P r -> P (f r)) -> Forall P rows -> Forall P (update_first p f rows).
Proof.
  intros Hf. induction 1 as [|r rows Hr Hrows IH]; simpl; [constructor|].
  destruct (p r); constructor; auto.
Qed.

Lemma update_first_In p f rows r :
  first_row p rows = Some r -> In (f r) (update_first p f rows).
Proof.
  induction rows as [|r' rows IH]; simpl; [done|].
  destruct (p r'); [intros [= ->]; by left|]. intros Hr. right. by apply IH.
Qed.

(** With distinct keys, the query by the key of a row finds that row. *)
Lemma first_row_unique p key rows r :
  (forall x, p x = true <-> key x = key r) ->
  NoDup (key <$> rows) -> In r rows -> first_row p rows = Some r.
Proof.
  intros Hp. induction rows as [|r' rows IH]; [by intros _ []|].
  rewrite fmap_cons. cbn [first_row]. intros [Hfirst Hrest]%NoDup_cons [->|Hin].
  - by rewrite (proj2 (Hp r) eq_refl).
  - destruct (p r') eqn:E; [|by apply IH].
    apply Hp in E. exfalso. apply Hfirst. rewrite E.
    apply list_elem_of_fmap. exists r. split; [done|by apply list_elem_of_In].
Qed.
End KeyedTables.

Section CouponFacts.
Context {amount : Type}.
Import Coupons.
Implicit Types (db : Ledger.t amount) (c : CouponCode.t).

Lemma has_id_spec c c' : has_id (CouponCode.id c) c' = true <-> CouponCode.id c' = CouponCode.id c.
Proof. unfold has_id. apply Z.eqb_eq. Qed.

Lemma has_code_spec c c' :
  has_code (CouponCode.code c) c' = true <-> CouponCode.code c' = CouponCode.code c.
Proof. unfold has_code. apply String.eqb_eq. Qed.

(** The record [redeem] returns, field by field. *)
Lemma redeem_fields c :
  redeem c
  = CouponCode.mk (CouponCode.id c) (CouponCode.code c) (CouponCode.user_id c)
      (CouponCode.discount_percentage c) (CouponCode.max_uses c)
      (CouponCode.used_count c + 1)
      (if CouponCode.max_uses c <=? CouponCode.used_count c + 1
       then false else CouponCode.is_active c)
      (CouponCode.expires_at c) (CouponCode.created_by_admin c).
Proof. unfold redeem. simpl. by destruct (_ <=? _). Qed.

Lemma redeem_ok c : coupon_ok c -> coupon_ok (redeem c).
Proof.
  intros (Hused & _ & _). rewrite redeem_fields. unfold coupon_ok; simpl.
  destruct (Z.leb_spec (CouponCode.max_uses c) (CouponCode.used_count c + 1));
    repeat split; try done; lia.
Qed.

Lemma deactivate_ok c : coupon_ok c -> coupon_ok (set_is_active false c).
Proof. intros (Hused & _ & _). by repeat split. Qed.

Lemma fresh_code_is_fresh db draws code :
  fresh_code db draws = Some code -> get_coupon_by_code db code = None.
Proof.
  induction draws as [|d rest IH]; simpl; [done|].
  destruct (get_coupon_by_code db (_ +:+ d)) eqn:E; [exact IH|].
  intros [= <-]. exact E.
Qed.

Lemma update_coupons_ok db (p : CouponCode.t -> bool) (f : CouponCode.t -> CouponCode.t)
    (usages : list (CouponUsage.t amount)) (n : Z) :
  (forall c, CouponCode.id (f c) = CouponCode.id c) ->
  (forall c, CouponCode.code (f c) = CouponCode.code c) ->
  (forall c, coupon_ok c -> coupon_ok (f c)) ->
  ledger_ok db ->
  ledger_ok (Ledger.mk (update_first p f (Ledger.coupons db)) usages
               (Ledger.next_coupon_id db) n).
Proof.
  intros Hid Hcode Hok (Hids & Hcodes & Hnext & Hall). unfold ledger_ok; simpl.
  rewrite !update_first_keys by done. repeat split; try done.
  - apply update_first_Forall; [|done]. intros c. by rewrite Hid.
  - by apply update_first_Forall.
Qed.

(** Every call keeps the ledger sound. *)
Lemma step_ok db call : ledger_ok db -> ledger_ok (step db call).
Proof.
  intros Hok. destruct call as [draws uid pct mx ex adm|code uid now|cid oid amt|cid]; simpl.
  - unfold create_coupon_code.
    destruct (fresh_code db draws) as [code|] eqn:Hfresh; [|done].
    apply fresh_code_is_fresh, first_row_None in Hfresh.
    destruct Hok as (Hids & Hcodes & Hnext & Hall). unfold ledger_ok; simpl.
    rewrite !fmap_app. simpl. repeat split.
    + apply NoDup_app. repeat split; [done| |apply NoDup_singleton].
      intros i Hi ->%list_elem_of_singleton.
      apply list_elem_of_fmap in Hi as (c & Hc & Hin).
      rewrite Forall_forall in Hnext. apply Hnext in Hin. lia.
    + apply NoDup_app. repeat split; [done| |apply NoDup_singleton].
      intros s Hs ->%list_elem_of_singleton.
      apply list_elem_of_fmap in Hs as (c & Hc & Hin).
      rewrite Forall_forall in Hfresh. apply Hfresh in Hin.
      unfold has_code in Hin. rewrite <- Hc, String.eqb_refl in Hin. done.
    + apply Forall_app. split.
      * eapply Forall_impl; [exact Hnext|]. simpl. intros; lia.
      * repeat constructor. simpl. lia.
    + apply Forall_app. split; [done|]. repeat constructor; simpl; lia.
  - done.
  - destruct (get_coupon_by_id db cid).
    + apply update_coupons_ok; try done.
      * intros c. by rewrite redeem_fields.
      * intros c. by rewrite redeem_fields.
      * apply redeem_ok.
    + by destruct Hok as (? & ? & ? & ?).
  - unfold deactivate_coupon. destruct (get_coupon_by_id db cid); [|done]. simpl.
    apply update_coupons_ok; try done. apply deactivate_ok.
Qed.

Lemma run_ok calls : forall db, ledger_ok db -> ledger_ok (run db calls).
Proof.
  induction calls as [|call calls IH]; intros db Hok; [done|].
  apply IH, step_ok, Hok.
Qed.

Lemma reachable_ok db : reachable db -> ledger_ok db.
Proof.
  intros [calls ->]. apply run_ok. repeat split; constructor.
Qed.

(** A coupon whose count has reached its ceiling is never returned. *)
Lemma validate_exhausted db code user_id utcnow c :
  get_coupon_by_code db code = Some c ->
  CouponCode.max_uses c <= CouponCode.used_count c ->
  validate_coupon db code user_id utcnow = None.
Proof.
  intros Hc Hfull. unfold validate_coupon. rewrite Hc.
  apply Z.leb_le in Hfull. rewrite Hfull.
  by repeat match goal with |- context [if ?b then _ else _] => destruct b end.
Qed.

(** Redeeming a coupon of a sound ledger [n] times adds [n] to its
    count. *)
Lemma run_redemptions calls : forall db c,
  ledger_ok db -> In c (Ledger.coupons db) ->
  redemptions (CouponCode.id c) calls ->
  exists c',
    In c' (Ledger.coupons (run db calls))
    /\ ledger_ok (run db calls)
    /\ CouponCode.id c' = CouponCode.id c
    /\ CouponCode.code c' = CouponCode.code c
    /\ CouponCode.max_uses c' = CouponCode.max_uses c
    /\ CouponCode.used_count c'
       = CouponCode.used_count c + Z.of_nat (length calls).
Proof.
  induction calls as [|call calls IH]; intros db c Hok Hin Hcalls.
  - exists c. simpl. split; [done|]. split; [done|]. repeat split. lia.
  - inversion Hcalls as [|? ? (oid & amt & ->) Hrest]; subst.
    assert (Hget : get_coupon_by_id db (CouponCode.id c) = Some c).
    { destruct Hok as (Hids & _). unfold get_coupon_by_id.
      eapply first_row_unique; [apply has_id_spec|exact Hids|exact Hin]. }
    destruct (IH (step db (RedeemCoupon (CouponCode.id c) oid amt)) (redeem c))
      as (c' & Hin' & Hok' & Hid & Hcode & Hmax & Hused).
    + by apply step_ok.
    + simpl. rewrite Hget. by apply update_first_In.
    + by rewrite redeem_fields.
    + exists c'. rewrite redeem_fields in Hid, Hcode, Hmax, Hused. simpl in *.
      split; [done|]. split; [done|]. repeat split; try done. lia.
Qed.
End CouponFacts.

Section CouponClaims.
Context {amount : Type}.
Import Coupons.
Implicit Types (db : Ledger.t amount) (c : CouponCode.t).

(** C6 (amended).  [validate_coupon] returns the coupon exactly when a
    coupon with the code exists, belongs to the user, is active, has no
    expiry or an expiry that is not earlier than the clock, and has uses
    left; in every other case it returns the one answer [None]. *)
Theorem validate_coupon_iff db code user_id utcnow :
  (forall c, validate_coupon db code user_id utcnow = Some c
             <-> valid_for db code user_id utcnow c)
  /\ ((forall c, ~ valid_for db code user_id utcnow c) ->
      validate_coupon db code user_id utcnow = None).
Proof.
  assert (Hiff : forall c, validate_coupon db code user_id utcnow = Some c
                           <-> valid_for db code user_id utcnow c).
  { intros c. unfold validate_coupon, valid_for.
    destruct (get_coupon_by_code db code) as [c0|]; [|split; [done|by intros [? _]]].
    destruct (Z.eqb_spec (CouponCode.user_id c0) user_id) as [Hu|Hu]; simpl.
    2: { split; [done|]. intros ([= <-] & ? & _). done. }
    destruct (CouponCode.is_active c0) eqn:Ha; simpl.
    2: { split; [done|]. intros ([= <-] & _ & ? & _). congruence. }
    destruct (CouponCode.expires_at c0) as [t|] eqn:He.
    - destruct (Z.ltb_spec t utcnow) as [Ht|Ht].
      { split; [done|]. intros ([= <-] & _ & _ & [?|(t' & ? & ?)] & _); [congruence|].
        assert (t' = t) by congruence. lia. }
      destruct (Z.leb_spec (CouponCode.max_uses c0) (CouponCode.used_count c0)).
      { split; [done|]. intros ([= <-] & _ & _ & _ & ?). lia. }
      split.
      + intros [= <-]. rewrite He. repeat split; try done. right. by exists t.
      + by intros ([= <-] & _).
    - destruct (Z.leb_spec (CouponCode.max_uses c0) (CouponCode.used_count c0)).
      { split; [done|]. intros ([= <-] & _ & _ & _ & ?). lia. }
      split.
      + intros [= <-]. rewrite He. repeat split; try done. by left.
      + by intros ([= <-] & _). }
  split; [exact Hiff|]. intros Hnone.
  destruct (validate_coupon db code user_id utcnow) as [c|]; [|done].
  exfalso. by apply (Hnone c), Hiff.
Qed.

(** C7 (amended).  [use_coupon] on an existing coupon appends one usage
    row for the coupon, the order and the amount, adds one to
    [used_count], sets [is_active] to false exactly when the new count is
    at least [max_uses] and keeps it otherwise, and changes no other field
    and no other coupon. *)
Theorem use_coupon_effect db coupon_id order_id (discount_amount : amount) c :
  get_coupon_by_id db coupon_id = Some c ->
  (use_coupon db coupon_id order_id discount_amount).2
  = CouponUsage.mk (Ledger.next_usage_id db) coupon_id order_id discount_amount
  /\ Ledger.usages (use_coupon db coupon_id order_id discount_amount).1
     = Ledger.usages db ++ [(use_coupon db coupon_id order_id discount_amount).2]
  /\ get_coupon_by_id (use_coupon db coupon_id order_id discount_amount).1 coupon_id
     = Some (CouponCode.mk (CouponCode.id c) (CouponCode.code c)
               (CouponCode.user_id c) (CouponCode.discount_percentage c)
               (CouponCode.max_uses c) (CouponCode.used_count c + 1)
               (if CouponCode.max_uses c <=? CouponCode.used_count c + 1
                then false else CouponCode.is_active c)
               (CouponCode.expires_at c) (CouponCode.created_by_admin c))
  /\ length (Ledger.coupons (use_coupon db coupon_id order_id discount_amount).1)
     = length (Ledger.coupons db)
  /\ forall other,
       other <> coupon_id ->
       get_coupon_by_id (use_coupon db coupon_id order_id discount_amount).1 other
       = get_coupon_by_id db other.
Proof.
  intros Hc. unfold use_coupon, get_coupon_by_id in *. simpl. rewrite Hc.
  split; [done|]. split; [done|]. split; [|split].
  - rewrite first_row_update_same, Hc.
    + simpl. by rewrite redeem_fields.
    + intros r. by rewrite redeem_fields.
  - apply update_first_length.
  - intros other Hother. apply first_row_update_other.
    + intros r. by rewrite redeem_fields.
    + unfold has_id. intros r Hr%Z.eqb_eq. apply Z.eqb_neq. congruence.
Qed.

(** C8 (amended).  In every ledger the four calls can reach, every coupon
    has a count that is not negative, and is inactive once its count has
    reached a positive [max_uses] (or has reached [max_uses] by a
    redemption); and when a coupon has been redeemed until its count is at
    least [max_uses], [validate_coupon] on its code returns [None] for any
    user at any time.  The count itself has no ceiling. *)
Theorem reachable_coupons_sound db :
  reachable db ->
  Forall coupon_ok (Ledger.coupons db)
  /\ forall c calls user_id utcnow,
       In c (Ledger.coupons db) ->
       redemptions (CouponCode.id c) calls ->
       CouponCode.max_uses c <= CouponCode.used_count c + Z.of_nat (length calls) ->
       validate_coupon (run db calls) (CouponCode.code c) user_id utcnow = None.
Proof.
  intros Hok%reachable_ok. split; [by destruct Hok as (_ & _ & _ & ?)|].
  intros c calls uid now Hin Hcalls Hfull.
  destruct (run_redemptions calls db c Hok Hin Hcalls)
    as (c' & Hin' & (_ & Hcodes & _) & _ & Hcode & Hmax & Hused).
  apply (validate_exhausted _ _ _ _ c'); [|lia].
  unfold get_coupon_by_code. rewrite <- Hcode.
  eapply first_row_unique; [apply has_code_spec|exact Hcodes|exact Hin'].
Qed.
End CouponClaims.

(** A coupon that expires at the very instant of the call is returned,
    though its expiry does not lie in the future. *)
Lemma coupon_expiring_now_is_valid :
  Coupons.validate_coupon demo_ledger "LOYALTYAB12CD34" 7 1000 = Some demo_coupon
  /\ ~ valid_as_stated demo_ledger "LOYALTYAB12CD34" 7 1000 demo_coupon.
Proof.
  split; [reflexivity|].
  intros (_ & _ & _ & [Hnone|(t & Ht & Hlt)] & _); [discriminate|].
  injection Ht as <-. lia.
Qed.

(** A coupon issued with [max_uses = 0] is deactivated by its first
    redemption, although the new count, 1, is not equal to [max_uses]. *)
Lemma first_use_deactivates_zero_max_uses :
  Coupons.get_coupon_by_id zero_uses_ledger 1
  = Some (CouponCode.mk 1 "LOYALTYZZZZ0000" 7 10 0 0 true None None)
  /\ Coupons.get_coupon_by_id (Coupons.use_coupon zero_uses_ledger 1 1 500).1 1
     = Some (CouponCode.mk 1 "LOYALTYZZZZ0000" 7 10 0 1 false None None)
  /\ 0 + 1 <> 0.
Proof. repeat split; vm_compute; congruence. Qed.

(** A single-use coupon redeemed twice has a count of 2, above its
    [max_uses] of 1; and a coupon issued with [max_uses = 0] is active
    with a count that has already reached [max_uses]. *)
Lemma used_count_passes_max_uses :
  Coupons.reachable twice_redeemed_ledger
  /\ Ledger.coupons twice_redeemed_ledger
     = [CouponCode.mk 1 "LOYALTYAAAA0000" 7 10 1 2 false None None]
  /\ ~ (2 <= 1)
  /\ Coupons.reachable zero_uses_ledger
  /\ Ledger.coupons zero_uses_ledger
     = [CouponCode.mk 1 "LOYALTYZZZZ0000" 7 10 0 0 true None None].
Proof.
  split; [by eexists|]. split; [reflexivity|]. split; [lia|].
  split; [by eexists|reflexivity].
Qed.

Lemma use_coupon_effect_witness :
  Coupons.get_coupon_by_id
    (Coupons.use_coupon (Coupons.use_coupon demo_ledger 1 1 250).1 1 2 250).1 1
  = Some (CouponCode.mk 1 "LOYALTYAB12CD34" 7 10 3 2 true (Some 1000) None)
  /\ Coupons.get_coupon_by_id
       (Coupons.use_coupon
          (Coupons.use_coupon (Coupons.use_coupon demo_ledger 1 1 250).1 1 2 250).1
          1 3 250).1 1
     = Some (CouponCode.mk 1 "LOYALTYAB12CD34" 7 10 3 3 false (Some 1000) None).
Proof.
  split.
  - apply (use_coupon_effect (Coupons.use_coupon demo_ledger 1 1 250).1 1 2 250
             (CouponCode.mk 1 "LOYALTYAB12CD34" 7 10 3 1 true (Some 1000) None)).
    reflexivity.
  - apply (use_coupon_effect
             (Coupons.use_coupon (Coupons.use_coupon demo_ledger 1 1 250).1 1 2 250).1
             1 3 250
             (CouponCode.mk 1 "LOYALTYAB12CD34" 7 10 3 2 true (Some 1000) None)).
    reflexivity.
Defined.

Lemma reachable_coupons_sound_witness :
  Forall coupon_ok (Ledger.coupons demo_ledger)
  /\ Coupons.validate_coupon
       (Coupons.run demo_ledger
          [Coupons.RedeemCoupon 1 1 250; Coupons.RedeemCoupon 1 2 250;
           Coupons.RedeemCoupon 1 3 250])
       "LOYALTYAB12CD34" 7 10 = None.
Proof.
  assert (Hreach : Coupons.reachable demo_ledger) by (by eexists).
  destruct (reachable_coupons_sound demo_ledger Hreach) as [Hall Hafter].
  split; [exact Hall|].
  apply (Hafter demo_coupon
           [Coupons.RedeemCoupon 1 1 250; Coupons.RedeemCoupon 1 2 250;
            Coupons.RedeemCoupon 1 3 250] 7 10).
  - left. reflexivity.
  - repeat constructor; by eexists _, _.
  - vm_compute. discriminate.
Defined.

Lemma validate_coupon_iff_witness :
  Coupons.validate_coupon demo_ledger "LOYALTYAB12CD34" 7 999 = Some demo_coupon
  /\ Coupons.validate_coupon demo_ledger "LOYALTYAB12CD34" 7 1000 = Some demo_coupon
  /\ Coupons.validate_coupon demo_ledger "LOYALTYNOSUCH00" 7 999 = None.
Proof.
  split; [|split].
  - apply (proj1 (validate_coupon_iff demo_ledger "LOYALTYAB12CD34" 7 999)).
    repeat split; try reflexivity. right. exists 1000. split; [reflexivity|lia].
  - apply (proj1 (validate_coupon_iff demo_ledger "LOYALTYAB12CD34" 7 1000)).
    repeat split; try reflexivity. right. exists 1000. split; [reflexivity|lia].
  - apply (proj2 (validate_coupon_iff demo_ledger "LOYALTYNOSUCH00" 7 999)).
    intros c (Hc & _). discriminate Hc.
Defined.

(** * Further properties of the code *)

(** ** Order creation *)

Section OrderLaws.
Context {price : Type} `{PriceOps price}.
Implicit Types (db : Shop.t price) (items : list OrderItemBase.t).

(** The second loop touches no column of a product but its stock. *)
Lemma persist_lines_products order_id (ds : list (ItemData.t price)) : forall db db',
  persist_lines db order_id ds = Ok db' ->
  forall product_id,
    get_product_by_id db' product_id
    = (fun p => set_stock_quantity
                  (Product.stock_quantity p
                   - ordered_quantity product_id (map line_of ds)) p)
        <$> get_product_by_id db product_id.
Proof.
  induction ds as [|d rest IH]; intros db db'; simpl.
  - intros [= <-] pid. destruct (get_product_by_id db pid) as [p|]; [|done].
    simpl. f_equal. destruct p; unfold set_stock_quantity; simpl. f_equal. lia.
  - rewrite get_product_add_order_item.
    destruct (get_product_by_id db (ItemData.product_id d)) as [p0|]; [|done].
    intros Hrun pid. rewrite (IH _ _ Hrun pid).
    rewrite get_product_decrement_stock, get_product_add_order_item.
    destruct (get_product_by_id db pid) as [p|]; [|by case_decide].
    case_decide as Hid; simpl; f_equal; unfold set_stock_quantity; simpl; f_equal.
    + subst. rewrite Z.eqb_refl. lia.
    + apply Z.eqb_neq in Hid. rewrite Hid. lia.
Qed.

(** X1.  A successful [create_order] or [create_guest_order] leaves every
    product as it was except for its stock, which has fallen by the
    quantity the cart orders of the product over all its lines (so by the
    sum, when a product is named on several lines); a product the cart
    does not name is untouched. *)
Theorem stock_falls_by_total_ordered db items db' o product_id :
  order_created db items db' o ->
  get_product_by_id db' product_id
  = (fun p => set_stock_quantity
                (Product.stock_quantity p - ordered_quantity product_id items) p)
      <$> get_product_by_id db product_id
  /\ (~ In product_id (map OrderItemBase.product_id items) ->
      get_product_by_id db' product_id = get_product_by_id db product_id).
Proof.
  intros Hcreated.
  apply order_attempt_place in Hcreated as (uid & contact & Hrun).
  assert (Hget : get_product_by_id db' product_id
    = (fun p => set_stock_quantity
                  (Product.stock_quantity p - ordered_quantity product_id items) p)
        <$> get_product_by_id db product_id).
  { unfold place_order in Hrun.
    destruct (price_lines db items (price_of_int 0) []) as [[t acc]|e] eqn:Hfirst;
      [|done].
    apply price_lines_ok in Hfirst as (ds & Hds & -> & ->). simpl in Hrun.
    destruct (persist_lines _ _ ds) as [db2|e] eqn:Hsecond; [|done].
    injection Hrun as <- _.
    rewrite (persist_lines_products _ _ _ _ Hsecond product_id).
    by rewrite (priced_lines_cart db items ds Hds). }
  split; [exact Hget|]. intros Hnot. rewrite Hget.
  rewrite ordered_quantity_absent by done.
  destruct (get_product_by_id db product_id) as [p|]; [|done]. simpl. f_equal.
  destruct p; unfold set_stock_quantity; simpl. f_equal. lia.
Qed.

(** X2.  On a cart that names no product twice, a successful creation
    lowers the stock of each ordered product by exactly the quantity of
    its line, and the stock left is not negative. *)
Theorem distinct_cart_never_oversells db items db' o item :
  NoDup (map OrderItemBase.product_id items) ->
  order_created db items db' o ->
  In item items ->
  exists s,
    stock_of db (OrderItemBase.product_id item) = Some s
    /\ stock_of db' (OrderItemBase.product_id item)
       = Some (s - OrderItemBase.quantity item)
    /\ 0 <= s - OrderItemBase.quantity item.
Proof. apply order_created_stock_distinct. Qed.


Lemma price_lines_first_failure db pre item post e : forall t acc,
  Forall (fun i => line_error db i = None) pre ->
  line_error db item = Some e ->
  price_lines db (pre ++ item :: post) t acc = Err e.
Proof.
  induction pre as [|i pre IH]; intros t acc Hpre Hitem; simpl.
  - unfold line_error in Hitem.
    destruct (get_product_by_id db _) as [p|]; [|congruence].
    destruct (_ <? _); [congruence|]. destruct (negb _); congruence.
  - inversion Hpre as [|? ? Hi Hrest]; subst. unfold line_error in Hi.
    destruct (get_product_by_id db _) as [p|]; [|done].
    destruct (_ <? _); [done|]. destruct (negb _); [done|]. by apply IH.
Qed.

(** X4.  The error raised is that of the first line of the cart that
    raises, whatever follows it, and the store is handed back unchanged:
    when the lines before a line all pass (product found, stock
    sufficient, quantity convertible) and that line fails validation or
    overflows, the call returns the error of that line. *)
Theorem first_failing_line_is_reported db pre item post e out :
  order_attempt db (pre ++ item :: post) out ->
  Forall (fun i => exists product,
            get_product_by_id db (OrderItemBase.product_id i) = Some product
            /\ OrderItemBase.quantity i <= Product.stock_quantity product
            /\ int_converts (OrderItemBase.quantity i) = true) pre ->
  line_fails db item e
  \/ (exists product,
        get_product_by_id db (OrderItemBase.product_id item) = Some product
        /\ OrderItemBase.quantity item <= Product.stock_quantity product
        /\ int_converts (OrderItemBase.quantity item) = false
        /\ e = OverflowError) ->
  out = (db, Err e).
Proof.
  intros Hattempt Hpre Hitem.
  destruct (order_attempt_place db _ out Hattempt) as (uid & contact & <-).
  unfold place_order. rewrite (price_lines_first_failure db pre item post e); [done| |].
  - eapply Forall_impl; [exact Hpre|]. intros i. apply line_error_passes.
  - by apply line_error_raises.
Qed.

(** X5.  [create_order] accepts a cart without lines: it stores an order
    for the user with the total the code starts from, 0, adds no
    [OrderItem] row and changes no product. *)
Theorem empty_cart_is_ordered db order user_id :
  OrderCreate.items order = [] ->
  exists o,
    create_order db order user_id = (add_order db o, Ok o)
    /\ o = Order.mk (Shop.next_order_id db) (Some user_id) (price_of_int 0)
             "pending" (OrderCreate.contact order)
    /\ Shop.order_items (add_order db o) = Shop.order_items db
    /\ Shop.products (add_order db o) = Shop.products db.
Proof.
  intros Hempty. eexists. unfold create_order, place_order. rewrite Hempty. simpl.
  repeat split.
Qed.

(** X6.  A guest cart is never empty: the two strings of a guest order
    that parses give as many lines as the product string has
    comma-separated pieces, which is at least one. *)
Theorem guest_cart_has_a_line product_ids quantities items :
  parse_guest_items product_ids quantities = Ok items ->
  length items = length (PyStr.split PyStr.comma product_ids)
  /\ length items = length (PyStr.split PyStr.comma quantities)
  /\ (0 < length items)%nat.
Proof.
  unfold parse_guest_items.
  destruct (parse_int_list product_ids) as [ps|] eqn:Hp; [|done].
  destruct (parse_int_list quantities) as [qs|] eqn:Hq; [|done].
  destruct (Nat.eqb_spec (length ps) (length qs)) as [Hlen|]; [|done].
  simpl. intros [= <-]. rewrite length_zip_with.
  apply parse_int_list_length in Hp, Hq.
  pose proof (split_nonempty PyStr.comma product_ids). lia.
Qed.

(** X7.  Order creation keeps the order ids sound whether it succeeds or
    fails; an order it creates gets the next id of the sequence, which no
    earlier order has, and the sequence moves on by one. *)
Theorem order_ids_stay_sound db items out :
  fresh_order_ids db ->
  order_attempt db items out ->
  fresh_order_ids out.1
  /\ forall o, out.2 = Ok o ->
       Order.id o = Shop.next_order_id db
       /\ Shop.next_order_id out.1 = Shop.next_order_id db + 1
       /\ Forall (fun o' => Order.id o' <> Order.id o) (Shop.orders db).
Proof.
  intros Hfresh Hattempt.
  destruct (order_attempt_place db items out Hattempt) as (uid & contact & Hrun).
  destruct out as [db' r]. simpl. split; [by eapply place_order_fresh|].
  intros o ->. apply place_order_ok in Hrun as (ds & _ & -> & _ & Hn & _).
  simpl. repeat split; [done|]. destruct Hfresh as [_ Hold].
  eapply Forall_impl; [exact Hold|]. simpl. intros; lia.
Qed.

Lemma update_products_keep_rows (updates : list (Z * ProductUpdate.t price)) :
  forall db,
    Shop.orders (update_products db updates) = Shop.orders db
    /\ Shop.order_items (update_products db updates) = Shop.order_items db.
Proof.
  induction updates as [|u updates IH]; intros db; [done|].
  unfold update_products in *. simpl.
  destruct (IH (update_product db u.1 u.2).1) as [-> ->].
  unfold update_product. by destruct (get_product_by_id db u.1).
Qed.

(** X8.  The rows of an order are a price snapshot.  Each row of a new
    order carries as [unit_price] the discount price of its product as the
    catalog had it at creation when that is set and truthy, and the
    original price otherwise; and whatever [update_product] calls follow,
    the rows of the order and the order itself stay as they were
    stored. *)
Theorem order_rows_are_a_price_snapshot db items db' o
    (updates : list (Z * ProductUpdate.t price)) :
  fresh_order_ids db ->
  order_created db items db' o ->
  items_of (update_products db' updates) (Order.id o) = items_of db' (Order.id o)
  /\ In o (Shop.orders (update_products db' updates))
  /\ Forall (fun it => exists product,
               get_product_by_id db (OrderItem.product_id it) = Some product
               /\ (forall d, Product.discount_price product = Some d ->
                             ptruthy d = true -> OrderItem.unit_price it = d)
               /\ (forall d, Product.discount_price product = Some d ->
                             ptruthy d = false ->
                             OrderItem.unit_price it = Product.original_price product)
               /\ (Product.discount_price product = None ->
                   OrderItem.unit_price it = Product.original_price product))
       (items_of (update_products db' updates) (Order.id o)).
Proof.
  intros Hfresh Hcreated.
  destruct (update_products_keep_rows updates db') as [Horders Hrows].
  assert (Hsame : items_of (update_products db' updates) (Order.id o)
                  = items_of db' (Order.id o)).
  { unfold items_of. by rewrite Hrows. }
  rewrite Hsame, Horders.
  destruct (order_created_rows db items db' o Hfresh Hcreated)
    as (ds & Hds & -> & _ & Hstored).
  split; [done|]. split; [done|].
  apply item_rows_Forall. intros m d Hin. simpl.
  assert (Hd : exists item, priced_line db item = Some d).
  { clear -Hds Hin. induction Hds as [|i d' items ds Hd _ IH]; [done|].
    destruct Hin as [->|Hin]; eauto. }
  destruct Hd as (item & Hd).
  apply priced_line_fields in Hd as (Hl & _ & p & Hp & _ & Hu).
  rewrite <- Hl in Hp. simpl in Hp. exists p. split; [done|].
  rewrite Hu. unfold unit_price_of. repeat split.
  - by intros d0 -> ->.
  - by intros d0 -> ->.
  - by intros ->.
Qed.
End OrderLaws.

Lemma served_order_created :
  order_created demo_shop [OrderItemBase.mk 1 2; OrderItemBase.mk 2 1]
    served_shop served_order.
Proof. left. exists (cart [(1, 2); (2, 1)]), 7. split; reflexivity. Defined.

Lemma stock_falls_by_total_ordered_witness :
  get_product_by_id served_shop 1
  = Some (Product.mk 1 "mug" 1200 (Some 900) 3 true)
  /\ get_product_by_id served_shop 3 = get_product_by_id demo_shop 3.
Proof.
  split.
  - rewrite (proj1 (stock_falls_by_total_ordered demo_shop _ served_shop served_order
                      1 served_order_created)).
    reflexivity.
  - apply (stock_falls_by_total_ordered demo_shop _ served_shop served_order
             3 served_order_created).
    vm_compute. intros [H|[H|[]]]; discriminate H.
Defined.

Lemma distinct_cart_never_oversells_witness :
  exists s,
    stock_of demo_shop 1 = Some s
    /\ stock_of served_shop 1 = Some (s - 2)
    /\ 0 <= s - 2.
Proof.
  apply (distinct_cart_never_oversells demo_shop
           [OrderItemBase.mk 1 2; OrderItemBase.mk 2 1] served_shop served_order
           (OrderItemBase.mk 1 2)).
  - apply (bool_decide_unpack _). vm_compute. exact I.
  - exact served_order_created.
  - simpl. tauto.
Defined.


Lemma first_failing_line_is_reported_witness :
  create_order demo_shop (cart [(1, 1); (2, 4); (9, 1)]) 7
  = (demo_shop, Err (InsufficientStock "tee"))
  /\ create_order demo_shop (cart [(1, 1); (3, - (2 ^ 1024)); (2, 4)]) 7
     = (demo_shop, Err OverflowError).
Proof.
  split.
  - apply (first_failing_line_is_reported demo_shop [OrderItemBase.mk 1 1]
             (OrderItemBase.mk 2 4) [OrderItemBase.mk 9 1]).
    + left. exists (cart [(1, 1); (2, 4); (9, 1)]), 7. split; reflexivity.
    + repeat constructor. eexists.
      split; [reflexivity|split; [vm_compute; discriminate|reflexivity]].
    + left. right. eexists. split; [reflexivity|]. split; [reflexivity|reflexivity].
  - apply (first_failing_line_is_reported demo_shop [OrderItemBase.mk 1 1]
             (OrderItemBase.mk 3 (- (2 ^ 1024))) [OrderItemBase.mk 2 4]).
    + left. exists (cart [(1, 1); (3, - (2 ^ 1024)); (2, 4)]), 7. split; reflexivity.
    + repeat constructor. eexists.
      split; [reflexivity|split; [vm_compute; discriminate|reflexivity]].
    + right. eexists. split; [reflexivity|].
      split; [vm_compute; discriminate|]. split; [vm_compute; reflexivity|reflexivity].
Defined.

Lemma empty_cart_is_ordered_witness :
  exists o,
    create_order demo_shop (cart []) 7 = (add_order demo_shop o, Ok o)
    /\ o = Order.mk 1 (Some 7) 0 "pending" demo_contact
    /\ Shop.order_items (add_order demo_shop o) = []
    /\ Shop.products (add_order demo_shop o) = Shop.products demo_shop.
Proof.
  destruct (empty_cart_is_ordered demo_shop (cart []) 7 eq_refl)
    as (o & Hrun & Ho & Hrows & Hproducts).
  exists o. split; [exact Hrun|]. split; [exact Ho|]. split; [exact Hrows|exact Hproducts].
Defined.

Lemma guest_cart_has_a_line_witness :
  length [OrderItemBase.mk 1 3; OrderItemBase.mk 2 4]
  = length (PyStr.split PyStr.comma (PyStr.of_string "1,2"))
  /\ length [OrderItemBase.mk 1 3; OrderItemBase.mk 2 4]
     = length (PyStr.split PyStr.comma (PyStr.of_string "3,4"))
  /\ (0 < length [OrderItemBase.mk 1 3; OrderItemBase.mk 2 4])%nat.
Proof.
  apply (guest_cart_has_a_line (PyStr.of_string "1,2") (PyStr.of_string "3,4")).
  reflexivity.
Defined.

Lemma order_ids_stay_sound_witness :
  fresh_order_ids served_shop
  /\ Shop.next_order_id served_shop = 2
  /\ fresh_order_ids (create_order served_shop (cart [(9, 1)]) 7).1.
Proof.
  destruct (order_ids_stay_sound demo_shop [OrderItemBase.mk 1 2; OrderItemBase.mk 2 1]
              (served_shop, Ok served_order)) as [Hfresh Hnew].
  - split; constructor.
  - exact served_order_created.
  - split; [exact Hfresh|].
    split; [destruct (Hnew served_order eq_refl) as (_ & Hn & _); exact Hn|].
    apply (order_ids_stay_sound served_shop [OrderItemBase.mk 9 1]
             (create_order served_shop (cart [(9, 1)]) 7)); [exact Hfresh|].
    left. exists (cart [(9, 1)]), 7. split; reflexivity.
Defined.

Lemma order_rows_are_a_price_snapshot_witness :
  OrderItem.unit_price <$> items_of (update_products served_shop new_prices) 1
  = [900; 2500]
  /\ unit_price_of <$> Shop.products (update_products served_shop new_prices)
     = [1400; 1999; 300].
Proof.
  destruct (order_rows_are_a_price_snapshot demo_shop
              [OrderItemBase.mk 1 2; OrderItemBase.mk 2 1] served_shop served_order
              new_prices) as (Hsame & _ & _).
  - split; constructor.
  - exact served_order_created.
  - split; [|reflexivity].
    change 1 with (Order.id served_order). rewrite Hsame. reflexivity.
Defined.

(** ** The catalog and the order routes *)

Section RouteLaws.
Context {price : Type} `{PriceOps price}.
Implicit Types (db : Shop.t price).

Lemma has_id_apart (a b : Z) (p : Product.t price) :
  a <> b -> has_id a p = true -> has_id b p = false.
Proof. unfold has_id. intros Hab Ha%Z.eqb_eq. apply Z.eqb_neq. congruence. Qed.

(** X9.  [update_product] on an id the catalog has returns the product
    with the given fields overwritten, and a later lookup of the id finds
    exactly that product, under the same id; every other product is found
    as before.  On an id the catalog does not have it returns [None] and
    the store unchanged. *)
Theorem update_product_round_trip db product_id (u : ProductUpdate.t price) :
  (forall p, get_product_by_id db product_id = Some p ->
     (update_product db product_id u).2 = Some (apply_update u p)
     /\ get_product_by_id (update_product db product_id u).1 product_id
        = Some (apply_update u p)
     /\ Product.id (apply_update u p) = product_id)
  /\ (forall other, other <> product_id ->
        get_product_by_id (update_product db product_id u).1 other
        = get_product_by_id db other)
  /\ (get_product_by_id db product_id = None ->
      update_product db product_id u = (db, None)).
Proof.
  unfold update_product. split; [|split].
  - intros p Hp. rewrite Hp. simpl. split; [done|]. split.
    + unfold get_product_by_id in *. simpl.
      rewrite first_row_update_same by done. by rewrite Hp.
    + apply first_row_Some in Hp as [_ Hid]. by apply Z.eqb_eq in Hid.
  - intros other Hother. destruct (get_product_by_id db product_id); [|done].
    unfold get_product_by_id. simpl. apply first_row_update_other; [done|].
    intros r. by apply has_id_apart.
  - by intros ->.
Qed.

(** X10.  [update_product] cannot take a discount price away: a key whose
    value is [None] is skipped, so a product that has a discount price
    still has one after any update, the new one if the update carries
    one and the old one otherwise. *)
Theorem update_product_keeps_a_discount db product_id (u : ProductUpdate.t price) p d :
  get_product_by_id db product_id = Some p ->
  Product.discount_price p = Some d ->
  exists p',
    get_product_by_id (update_product db product_id u).1 product_id = Some p'
    /\ Product.discount_price p'
       = Some (default d (ProductUpdate.discount_price u)).
Proof.
  intros Hp Hd. exists (apply_update u p). split.
  - unfold update_product. rewrite Hp. unfold get_product_by_id in *. simpl.
    rewrite first_row_update_same by done. by rewrite Hp.
  - unfold apply_update; simpl. rewrite Hd.
    by destruct (ProductUpdate.discount_price u).
Qed.


Lemma parse_guest_items_error product_ids quantities e :
  parse_guest_items product_ids quantities = Err e -> e = InvalidFormat.
Proof.
  unfold parse_guest_items.
  destruct (parse_int_list product_ids); [|congruence].
  destruct (parse_int_list quantities); [|congruence].
  destruct (negb _); congruence.
Qed.

(** Either entry point either appends one pending order that carries the
    owner and the contact, or fails with a [ValueError] and hands the
    store back. *)
Lemma create_outcome db (out : Shop.t price * result (Order.t price)) user_id contact :
  (exists items, place_order db user_id contact items = out)
  \/ out = (db, Err InvalidFormat) ->
  (exists db' o,
     out = (db', Ok o)
     /\ Shop.orders db' = Shop.orders db ++ [o]
     /\ Order.user_id o = user_id /\ Order.status o = "pending"
     /\ Order.contact o = contact /\ Order.id o = Shop.next_order_id db)
  \/ (exists e, out = (db, Err e) /\ e <> AttributeError).
Proof.
  intros [(items & Hrun)| ->]; [|right; by eexists].
  destruct out as [db' [o|e]].
  - left. apply place_order_ok in Hrun as (ds & _ & -> & Hos & _).
    eexists db', _. by repeat split.
  - right. apply place_order_err in Hrun as (-> & pre & item & post & _ & _ & He).
    exists e. split; [done|]. unfold line_error in He.
    destruct (get_product_by_id db _);
      [destruct (_ <? _); [|destruct (negb _)]|]; congruence.
Qed.

Lemma create_order_outcome db order user_id :
  (exists db' o,
     create_order db order user_id = (db', Ok o)
     /\ Shop.orders db' = Shop.orders db ++ [o]
     /\ Order.user_id o = Some user_id /\ Order.status o = "pending"
     /\ Order.contact o = OrderCreate.contact order
     /\ Order.id o = Shop.next_order_id db)
  \/ (exists e, create_order db order user_id = (db, Err e) /\ e <> AttributeError).
Proof. apply create_outcome. left. by eexists. Qed.

Lemma create_guest_order_outcome db order :
  (exists db' o,
     create_guest_order db order = (db', Ok o)
     /\ Shop.orders db' = Shop.orders db ++ [o]
     /\ Order.user_id o = None /\ Order.status o = "pending"
     /\ Order.contact o = GuestOrderCreate.contact order
     /\ Order.id o = Shop.next_order_id db)
  \/ (exists e, create_guest_order db order = (db, Err e) /\ e <> AttributeError).
Proof.
  apply create_outcome. unfold create_guest_order.
  destruct (parse_guest_items _ _) as [items|e] eqn:Hparse; [left; by eexists|].
  right. by rewrite (parse_guest_items_error _ _ _ Hparse).
Qed.

End RouteLaws.

Section RouteInvariants.
Context {price : Type} `{PriceOps price}.
Implicit Types (db : Shop.t price).

Lemma is_order_apart (a b : Z) (o : Order.t price) :
  a <> b -> is_order a o = true -> is_order b o = false.
Proof. unfold is_order. intros Hab Ha%Z.eqb_eq. apply Z.eqb_neq. congruence. Qed.



Lemma answer_order_store (out : Shop.t price * result (Order.t price)) :
  (answer_order out).1 = out.1.
Proof.
  destruct out as [db' [o|e]]; simpl.
  - by destruct (rows_have_products db' (Order.id o)).
  - by destruct (is_value_error e).
Qed.

Lemma answer_order_sent (out : Shop.t price * result (Order.t price)) db' o :
  answer_order out = (db', Sent o) -> out = (db', Ok o).
Proof.
  destruct out as [db1 [o1|e]]; simpl.
  - destruct (rows_have_products db1 (Order.id o1)); congruence.
  - destruct (is_value_error e); congruence.
Qed.



(** The order a creation has just stored is what a lookup of its id
    finds. *)
Lemma new_order_is_found db db' o :
  fresh_order_ids db ->
  Shop.orders db' = Shop.orders db ++ [o] ->
  Order.id o = Shop.next_order_id db ->
  get_order_by_id db' (Order.id o) = Some o.
Proof.
  intros [_ Hold] Hos Hid. unfold get_order_by_id. rewrite Hos, first_row_app.
  assert (Hnone : first_row (is_order (Order.id o)) (Shop.orders db) = None).
  { apply first_row_None. eapply Forall_impl; [exact Hold|]. simpl.
    intros o' Hlt. unfold is_order. apply Z.eqb_neq. lia. }
  rewrite Hnone. simpl. unfold is_order. by rewrite Z.eqb_refl.
Qed.

(** X12.  The routes keep the status of every stored order within the
    five listed values: an order is created as [pending], and the status
    route stores a status only after it has found it in the list. *)
Theorem routes_keep_statuses_valid db :
  statuses_valid db ->
  (forall order current_user,
     statuses_valid (create_new_order db order current_user).1)
  /\ (forall order, statuses_valid (create_guest_order_endpoint db order).1)
  /\ (forall order_id new_status,
        statuses_valid (update_order_status_endpoint db order_id new_status).1).
Proof.
  intros Hvalid.
  assert (Hcreate : forall out : Shop.t price * result (Order.t price),
            (exists db' o, out = (db', Ok o)
                           /\ Shop.orders db' = Shop.orders db ++ [o]
                           /\ Order.status o = "pending")
            \/ (exists e, out = (db, Err e) /\ e <> AttributeError) ->
            statuses_valid (answer_order out).1).
  { intros out Hout. rewrite answer_order_store.
    destruct Hout as [(db' & o & -> & Hos & Hst)|(e & -> & He)]; [|done].
    unfold statuses_valid. simpl. rewrite Hos. apply Forall_app. split; [done|].
    constructor; [|constructor]. by rewrite Hst. }
  split; [|split].
  - intros order u. unfold create_new_order. destruct (negb _); [done|].
    apply Hcreate.
    destruct (create_order_outcome db order u)
      as [(db' & o & Hrun & Hos & _ & Hst & _)|Herr]; [left|by right].
    by exists db', o.
  - intros order. unfold create_guest_order_endpoint. destruct (negb _); [done|].
    apply Hcreate.
    destruct (create_guest_order_outcome db order)
      as [(db' & o & Hrun & Hos & _ & Hst & _)|Herr]; [left|by right].
    by exists db', o.
  - intros order_id new_status. unfold update_order_status_endpoint, update_order_status.
    destruct (get_order_by_id db order_id); [|done].
    destruct new_status as [[|c s]|]; try done.
    destruct (mentions valid_statuses (String c s)) eqn:Hin; [|done]. simpl.
    unfold statuses_valid. simpl. by apply update_first_Forall.
Qed.

(** X13.  The status route has no state machine.  For an order that
    exists, any of the five listed statuses is accepted whatever the
    current one, and replaces it while the rest of the order, its rows,
    the other orders and the catalog stay as they were; a missing, empty
    or unlisted status is answered 400 and an unknown order 404, both
    without a write. *)
Theorem status_route_accepts_any_listed_status db order_id :
  (get_order_by_id db order_id = None ->
   forall new_status,
     update_order_status_endpoint db order_id new_status = (db, Refused 404))
  /\ (forall o, get_order_by_id db order_id = Some o ->
        update_order_status_endpoint db order_id None = (db, Refused 400)
        /\ update_order_status_endpoint db order_id (Some EmptyString)
           = (db, Refused 400)
        /\ (forall s, mentions valid_statuses s = false ->
              update_order_status_endpoint db order_id (Some s) = (db, Refused 400))
        /\ (forall s, mentions valid_statuses s = true ->
              (update_order_status_endpoint db order_id (Some s)).2 = Sent s
              /\ get_order_by_id (update_order_status_endpoint db order_id (Some s)).1
                   order_id
                 = Some (set_status s o)
              /\ (forall other, other <> order_id ->
                    get_order_by_id
                      (update_order_status_endpoint db order_id (Some s)).1 other
                    = get_order_by_id db other)
              /\ Shop.order_items (update_order_status_endpoint db order_id (Some s)).1
                 = Shop.order_items db
              /\ Shop.products (update_order_status_endpoint db order_id (Some s)).1
                 = Shop.products db)).
Proof.
  unfold update_order_status_endpoint, update_order_status. split.
  - by intros ->.
  - intros o Ho. rewrite Ho. split; [done|]. split; [done|]. split.
    + intros s Hs. destruct s as [|c s]; [done|]. by rewrite Hs.
    + intros s Hs. destruct s as [|c s]; [done|]. rewrite Hs. simpl.
      split; [done|]. split; [|split; [|done]].
      * unfold get_order_by_id in *. simpl.
        rewrite first_row_update_same by done. by rewrite Ho.
      * intros other Hother. unfold get_order_by_id. simpl.
        apply first_row_update_other; [done|]. intros r. by apply is_order_apart.
Qed.


Lemma sent_rows_have_products (out : Shop.t price * result (Order.t price)) db' o :
  answer_order out = (db', Sent o) -> rows_have_products db' (Order.id o) = true.
Proof.
  destruct out as [db1 [o1|e]]; simpl.
  - destruct (rows_have_products db1 (Order.id o1)) eqn:E; congruence.
  - destruct (is_value_error e); congruence.
Qed.

(** X15.  The two lookup routes check the owner column.  [get_order]
    sends an order only to the user stored as its owner; [get_guest_order],
    which takes no caller, sends only orders stored with no owner.  So the
    order the user route has just stored is sent to that user by
    [get_order], refused with 403 to every other user, and refused with
    403 by the guest route; the order the guest route has stored is sent
    by [get_guest_order] and refused with 403 by [get_order] to every
    user. *)
Theorem lookup_routes_check_the_owner db :
  (forall order_id current_user o,
     get_order db order_id current_user = Sent o ->
     get_order_by_id db order_id = Some o /\ Order.user_id o = Some current_user)
  /\ (forall order_id o,
        get_guest_order db order_id = Sent o ->
        get_order_by_id db order_id = Some o /\ Order.user_id o = None)
  /\ (fresh_order_ids db ->
      (forall order current_user db' o,
         create_new_order db order current_user = (db', Sent o) ->
         get_order db' (Order.id o) current_user = Sent o
         /\ (forall other, other <> current_user ->
               get_order db' (Order.id o) other = Refused 403)
         /\ get_guest_order db' (Order.id o) = Refused 403)
      /\ (forall order db' o,
            create_guest_order_endpoint db order = (db', Sent o) ->
            get_guest_order db' (Order.id o) = Sent o
            /\ forall user, get_order db' (Order.id o) user = Refused 403)).
Proof.
  split; [|split].
  { intros order_id u o. unfold get_order.
    destruct (get_order_by_id db order_id) as [o'|]; [|done].
    destruct (Order.user_id o') as [owner|] eqn:Howner; [|done].
    destruct (Z.eqb_spec owner u) as [->|]; [|done].
    destruct (rows_have_products db (Order.id o')); [|done]. by intros [= <-]. }
  { intros order_id o. unfold get_guest_order.
    destruct (get_order_by_id db order_id) as [o'|]; [|done].
    destruct (Order.user_id o') as [owner|] eqn:Howner; [done|].
    destruct (rows_have_products db (Order.id o')); [|done]. by intros [= <-]. }
  intros Hfresh. split.
  - intros order u db' o. unfold create_new_order. destruct (negb _); [done|].
    intros Hsent. pose proof (sent_rows_have_products _ _ _ Hsent) as Hrows.
    apply answer_order_sent in Hsent as Hrun.
    destruct (create_order_outcome db order u)
      as [(db1 & o1 & Hok & Hos & Hu & _ & _ & Hid)|(e & Herr & _)];
      [|congruence].
    rewrite Hrun in Hok. injection Hok as <- <-.
    unfold get_order, get_guest_order.
    rewrite (new_order_is_found db db' o Hfresh Hos Hid), Hu.
    rewrite Z.eqb_refl, Hrows. split; [done|]. split; [|done].
    intros other Hother.
    assert ((u =? other) = false) as -> by (apply Z.eqb_neq; congruence). done.
  - intros order db' o. unfold create_guest_order_endpoint. destruct (negb _); [done|].
    intros Hsent. pose proof (sent_rows_have_products _ _ _ Hsent) as Hrows.
    apply answer_order_sent in Hsent as Hrun.
    destruct (create_guest_order_outcome db order)
      as [(db1 & o1 & Hok & Hos & Hu & _ & _ & Hid)|(e & Herr & _)];
      [|congruence].
    rewrite Hrun in Hok. injection Hok as <- <-.
    unfold get_order, get_guest_order.
    by rewrite (new_order_is_found db db' o Hfresh Hos Hid), Hu, Hrows.
Qed.
End RouteInvariants.

Lemma update_product_round_trip_witness :
  get_product_by_id
    (update_product demo_shop 1
       (ProductUpdate.mk None (Some 1500) (Some 1400) None None)).1 1
  = Some (Product.mk 1 "mug" 1500 (Some 1400) 5 true)
  /\ get_product_by_id
       (update_product demo_shop 1
          (ProductUpdate.mk None (Some 1500) (Some 1400) None None)).1 2
     = Some (Product.mk 2 "tee" 2500 None 3 true)
  /\ update_product demo_shop 9 (ProductUpdate.mk None (Some 1) None None None)
     = (demo_shop, None).
Proof.
  destruct (update_product_round_trip demo_shop 1
              (ProductUpdate.mk None (Some 1500) (Some 1400) None None))
    as (Hfound & Hother & _).
  split; [|split].
  - apply (Hfound (Product.mk 1 "mug" 1200 (Some 900) 5 true)). reflexivity.
  - rewrite (Hother 2) by discriminate. reflexivity.
  - apply (update_product_round_trip demo_shop 9). reflexivity.
Defined.

Lemma update_product_keeps_a_discount_witness :
  exists p',
    get_product_by_id
      (update_product demo_shop 1 (ProductUpdate.mk (Some "cup") None None None None)).1 1
    = Some p'
    /\ Product.discount_price p' = Some 900.
Proof.
  apply (update_product_keeps_a_discount demo_shop 1
           (ProductUpdate.mk (Some "cup") None None None None)
           (Product.mk 1 "mug" 1200 (Some 900) 5 true) 900); reflexivity.
Defined.


Lemma routes_keep_statuses_valid_witness :
  statuses_valid (update_order_status_endpoint served_shop 1 (Some "shipped")).1
  /\ statuses_valid (update_order_status_endpoint served_shop 1 (Some "lost")).1.
Proof.
  assert (Hserved : statuses_valid served_shop) by (repeat constructor).
  split; apply (routes_keep_statuses_valid served_shop Hserved).
Defined.

Lemma status_route_accepts_any_listed_status_witness :
  get_order_by_id
    (update_order_status_endpoint
       (update_order_status_endpoint served_shop 1 (Some "delivered")).1
       1 (Some "pending")).1 1
  = Some served_order
  /\ update_order_status_endpoint served_shop 1 (Some "lost")
     = (served_shop, Refused 400).
Proof.
  split.
  - destruct (status_route_accepts_any_listed_status
                (update_order_status_endpoint served_shop 1 (Some "delivered")).1 1)
      as (_ & Hfound).
    destruct (Hfound (set_status "delivered" served_order)) as (_ & _ & _ & Hany).
    + reflexivity.
    + destruct (Hany "pending" eq_refl) as (_ & Hget & _). rewrite Hget. reflexivity.
  - destruct (status_route_accepts_any_listed_status served_shop 1) as (_ & Hfound).
    destruct (Hfound served_order eq_refl) as (_ & _ & Hbad & _).
    apply Hbad. reflexivity.
Defined.


Lemma lookup_routes_check_the_owner_witness :
  get_order served_shop 1 7 = Sent served_order
  /\ get_order served_shop 1 8 = Refused 403
  /\ get_guest_order served_shop 1 = Refused 403
  /\ Order.user_id served_order = Some 7.
Proof.
  destruct (lookup_routes_check_the_owner demo_shop) as (_ & _ & Hcreated).
  destruct Hcreated as [Huser _]; [split; constructor|].
  destruct (Huser (cart [(1, 2); (2, 1)]) 7 served_shop served_order eq_refl)
    as (Hown & Hothers & Hguest).
  split; [exact Hown|]. split; [apply (Hothers 8); discriminate|].
  split; [exact Hguest|].
  apply (proj1 (lookup_routes_check_the_owner served_shop) 1 7 served_order Hown).
Defined.

(** ** Deleting and filtering rows *)

Section RowFacts.
Context {A K : Type}.
Implicit Types (p q : A -> bool) (f : A -> A) (key : A -> K) (rows : list A).

Lemma delete_first_In p rows r : In r (delete_first p rows) -> In r rows.
Proof.
  induction rows as [|x rows IH]; simpl; [done|].
  destruct (p x); [by right|]. intros [->|Hin]; [by left|right; by apply IH].
Qed.

Lemma delete_first_NoDup p key rows :
  NoDup (key <$> rows) -> NoDup (key <$> delete_first p rows).
Proof.
  induction rows as [|x rows IH]; [done|]. rewrite fmap_cons. cbn [delete_first].
  intros [Hx Hrest]%NoDup_cons. destruct (p x); [done|].
  rewrite fmap_cons. apply NoDup_cons. split; [|by apply IH].
  intros (y & Hy & Hin)%list_elem_of_fmap. apply Hx, list_elem_of_fmap.
  exists y. split; [done|]. by apply list_elem_of_In, (delete_first_In p), list_elem_of_In.
Qed.

Lemma delete_first_Forall (P : A -> Prop) p rows :
  Forall P rows -> Forall P (delete_first p rows).
Proof.
  induction 1 as [|x rows Hx Hrows IH]; simpl; [constructor|].
  destruct (p x); [done|by constructor].
Qed.

Lemma delete_first_length p rows r :
  first_row p rows = Some r -> S (length (delete_first p rows)) = length rows.
Proof.
  induction rows as [|x rows IH]; simpl; [done|].
  destruct (p x); [done|]. intros Hr. simpl. by rewrite IH.
Qed.

(** With distinct keys, the row deleted takes its key out of the table. *)
Lemma delete_first_gone p q key rows r :
  (forall x, q x = true <-> key x = key r) ->
  NoDup (key <$> rows) -> first_row p rows = Some r ->
  first_row q (delete_first p rows) = None.
Proof.
  intros Hq. induction rows as [|x rows IH]; [done|].
  rewrite fmap_cons. cbn [first_row delete_first]. intros [Hx Hrest]%NoDup_cons.
  destruct (p x) eqn:Hpx.
  - intros [= ->]. apply first_row_None, Forall_forall. intros y Hy.
    destruct (q y) eqn:Hqy; [|done]. apply Hq in Hqy. exfalso. apply Hx.
    rewrite <- Hqy. by apply list_elem_of_fmap_2.
  - intros Hr. cbn [first_row]. destruct (q x) eqn:Hqx; [|by apply IH].
    apply Hq in Hqx. exfalso. apply Hx. rewrite Hqx.
    apply list_elem_of_fmap_2, list_elem_of_In. by apply first_row_Some in Hr as [? _].
Qed.

Lemma filter_update_first q p f rows :
  (forall r, p r = true -> q r = false /\ q (f r) = false) ->
  List.filter q (update_first p f rows) = List.filter q rows.
Proof.
  intros Hpq. induction rows as [|x rows IH]; simpl; [done|].
  destruct (p x) eqn:Hpx; simpl.
  - destruct (Hpq x Hpx) as [-> ->]. done.
  - by rewrite IH.
Qed.

Lemma filter_delete_first q p rows :
  (forall r, p r = true -> q r = false) ->
  List.filter q (delete_first p rows) = List.filter q rows.
Proof.
  intros Hpq. induction rows as [|x rows IH]; simpl; [done|].
  destruct (p x) eqn:Hpx; simpl.
  - by rewrite (Hpq x Hpx).
  - by rewrite IH.
Qed.

(** A variant of [update_first_Forall] in which the property moves with
    the table. *)
Lemma update_first_Forall_step (P Q : A -> Prop) p f rows :
  (forall r, P r -> Q r) -> (forall r, p r = true -> P r -> Q (f r)) ->
  Forall P rows -> Forall Q (update_first p f rows).
Proof.
  intros HPQ Hf. induction 1 as [|x rows Hx Hrows IH]; simpl; [constructor|].
  destruct (p x) eqn:Hpx; constructor; auto.
  eapply Forall_impl; [exact Hrows|]. auto.
Qed.
End RowFacts.

(** ** Reviews *)

Section ReviewLaws.
Import Reviews.
Implicit Types (db : ReviewBook.t) (r : Review.t).

Lemma by_author_spec r r' :
  by_author (Review.user_id r) (Review.product_id r) r' = true
  <-> author_and_product r' = author_and_product r.
Proof.
  unfold by_author, author_and_product. rewrite andb_true_iff, !Z.eqb_eq.
  split; [by intros [-> ->]|]. by intros [= -> ->].
Qed.

Lemma is_review_spec r r' : is_review (Review.id r) r' = true <-> Review.id r' = Review.id r.
Proof. unfold is_review. apply Z.eqb_eq. Qed.

Lemma step_book_ok db c : book_ok db -> book_ok (step db c).
Proof.
  intros (Hpairs & Hids & Hnext).
  destruct c as [review uid img|rid uid u|rid uid]; simpl.
  - unfold create_review.
    destruct (get_user_review_for_product db uid _) eqn:Hnone; [done|].
    apply first_row_None in Hnone. unfold book_ok. simpl. rewrite !fmap_app. simpl.
    split; [|split].
    + apply NoDup_app. split; [done|]. split; [|apply NoDup_singleton].
      intros pr Hpr ->%list_elem_of_singleton.
      apply list_elem_of_fmap in Hpr as (r & Hr & Hin).
      rewrite Forall_forall in Hnone. apply Hnone in Hin.
      unfold by_author, author_and_product in *. simpl in *.
      injection Hr as Hu Hp. by rewrite <- Hu, <- Hp, !Z.eqb_refl in Hin.
    + apply NoDup_app. split; [done|]. split; [|apply NoDup_singleton].
      intros i Hi ->%list_elem_of_singleton.
      apply list_elem_of_fmap in Hi as (r & Hr & Hin).
      rewrite Forall_forall in Hnext. apply Hnext in Hin. simpl in *. lia.
    + apply Forall_app. split.
      * eapply Forall_impl; [exact Hnext|]. simpl. intros; lia.
      * repeat constructor. simpl. lia.
  - unfold update_review. destruct (first_row _ _); [|done].
    unfold book_ok. simpl. rewrite !update_first_keys by done.
    split; [done|]. split; [done|]. by apply update_first_Forall.
  - unfold delete_review. destruct (first_row _ _); [|done].
    unfold book_ok. simpl.
    split; [by apply delete_first_NoDup|]. split; [by apply delete_first_NoDup|].
    by apply delete_first_Forall.
Qed.

Lemma run_book_ok calls : forall db, book_ok db -> book_ok (run db calls).
Proof.
  induction calls as [|c calls IH]; intros db Hok; [done|].
  apply IH, step_book_ok, Hok.
Qed.

(** X16.  However reviews are created, updated and deleted, the table
    never holds two reviews of one user for one product, nor two rows with
    one id. *)
Theorem one_review_per_author_and_product db :
  reachable db ->
  NoDup (author_and_product <$> ReviewBook.reviews db)
  /\ NoDup (Review.id <$> ReviewBook.reviews db).
Proof.
  intros [calls ->].
  destruct (run_book_ok calls empty) as (Hpairs & Hids & _); [|done].
  repeat split; constructor.
Qed.

Lemma first_row_refine {A} (p q : A -> bool) (rows : list A) (r : A) :
  (forall x, p x = true -> q x = true) ->
  first_row q rows = Some r -> p r = true -> first_row p rows = Some r.
Proof.
  intros Hpq. induction rows as [|x rows IH]; simpl; [done|].
  destruct (q x) eqn:Hq.
  - intros [= ->] ->. done.
  - destruct (p x) eqn:Hp; [|exact IH]. apply Hpq in Hp. congruence.
Qed.

(** After [delete_review] has removed the review a user has of a
    product, the user has none of it. *)
Lemma delete_review_frees db user_id product_id existing :
  book_ok db ->
  get_user_review_for_product db user_id product_id = Some existing ->
  (delete_review db (Review.id existing) user_id).2 = true
  /\ get_user_review_for_product (delete_review db (Review.id existing) user_id).1
       user_id product_id = None.
Proof.
  intros (Hpairs & Hids & _) Hex.
  apply first_row_Some in Hex as [Hin [Hu Hp]%andb_true_iff].
  apply Z.eqb_eq in Hu, Hp.
  assert (Hfirst : first_row (owned (Review.id existing) user_id) (ReviewBook.reviews db)
                   = Some existing).
  { apply (first_row_refine _ (is_review (Review.id existing))).
    - unfold owned, is_review. by intros x [? _]%andb_true_iff.
    - apply (first_row_unique _ Review.id); [|done|done].
      intros x. apply is_review_spec.
    - unfold owned. by rewrite Hu, !Z.eqb_refl. }
  unfold delete_review. rewrite Hfirst. simpl. split; [done|].
  apply (delete_first_gone _ _ author_and_product _ existing); [|done|done].
  intros x. rewrite <- Hu, <- Hp. apply by_author_spec.
Qed.

(** X17.  One review for a user and a product.  [create_review] raises
    exactly when the table holds a review of the user for the product, and
    then leaves the table as it is; otherwise it appends a row with the
    author, the product, the rating and the comment given, which
    [get_user_review_for_product] then finds, so that a further
    [create_review] of the user for the product is refused.  In a table
    the review calls can reach, once [delete_review] has removed that
    review the user can review the product again. *)
Theorem second_review_is_refused db review user_id image_data :
  (forall existing,
     get_user_review_for_product db user_id (ReviewCreate.product_id review)
     = Some existing ->
     create_review db review user_id image_data = (db, AlreadyReviewed))
  /\ (get_user_review_for_product db user_id (ReviewCreate.product_id review) = None ->
      exists db' r,
        create_review db review user_id image_data = (db', Reviewed r)
        /\ ReviewBook.reviews db' = ReviewBook.reviews db ++ [r]
        /\ Review.user_id r = user_id
        /\ Review.product_id r = ReviewCreate.product_id review
        /\ Review.rating r = ReviewCreate.rating review
        /\ Review.comment r = ReviewCreate.comment review
        /\ get_user_review_for_product db' user_id (ReviewCreate.product_id review)
           = Some r
        /\ forall review' image_data',
             ReviewCreate.product_id review' = ReviewCreate.product_id review ->
             create_review db' review' user_id image_data' = (db', AlreadyReviewed))
  /\ (reachable db ->
      forall existing,
        get_user_review_for_product db user_id (ReviewCreate.product_id review)
        = Some existing ->
        (delete_review db (Review.id existing) user_id).2 = true
        /\ exists db' r,
             create_review (delete_review db (Review.id existing) user_id).1
               review user_id image_data
             = (db', Reviewed r)).
Proof.
  split; [|split].
  - intros existing Hex. unfold create_review. by rewrite Hex.
  - intros Hnone. unfold create_review at 1. rewrite Hnone.
    eexists _, _. split; [reflexivity|]. simpl.
    assert (Hfound : get_user_review_for_product
              (ReviewBook.mk
                 (ReviewBook.reviews db ++
                  [Review.mk (ReviewBook.next_review_id db) user_id
                     (ReviewCreate.product_id review) (ReviewCreate.rating review)
                     (ReviewCreate.comment review)
                     (image_data ≫= ReviewImage.image_url)
                     (image_data ≫= ReviewImage.file_name)
                     (image_data ≫= ReviewImage.file_size)])
                 (ReviewBook.next_review_id db + 1))
              user_id (ReviewCreate.product_id review)
            = Some (Review.mk (ReviewBook.next_review_id db) user_id
                      (ReviewCreate.product_id review) (ReviewCreate.rating review)
                      (ReviewCreate.comment review)
                      (image_data ≫= ReviewImage.image_url)
                      (image_data ≫= ReviewImage.file_name)
                      (image_data ≫= ReviewImage.file_size))).
    { unfold get_user_review_for_product in *. simpl. rewrite first_row_app, Hnone.
      simpl. unfold by_author. simpl. by rewrite !Z.eqb_refl. }
    repeat split; [exact Hfound|].
    intros review' img' Hsame. unfold create_review. by rewrite Hsame, Hfound.
  - intros [calls ->] existing Hex.
    destruct (delete_review_frees (run empty calls) user_id
                (ReviewCreate.product_id review) existing) as [Hdeleted Hfree];
      [|done|].
    { apply run_book_ok. repeat split; constructor. }
    split; [done|]. unfold create_review. rewrite Hfree. by eexists _, _.
Qed.

Lemma owned_other review_id user_id r :
  owned review_id user_id r = true -> negb (Review.user_id r =? user_id) = false.
Proof. unfold owned. intros [_ ->]%andb_true_iff. done. Qed.

(** X18.  [update_review] and [delete_review] act for one user and touch
    nobody else's reviews: after either call the reviews of all other
    users are the same rows in the same order, whatever review id was
    asked for. *)
Theorem reviews_of_others_are_untouched db review_id user_id (u : ReviewUpdate.t) :
  reviews_of_others user_id (update_review db review_id user_id u).1
  = reviews_of_others user_id db
  /\ reviews_of_others user_id (delete_review db review_id user_id).1
     = reviews_of_others user_id db.
Proof.
  unfold reviews_of_others, update_review, delete_review.
  destruct (first_row _ _); [|done]. simpl. split.
  - apply filter_update_first. intros r Hr. split; by eapply owned_other.
  - apply filter_delete_first. intros r Hr. by eapply owned_other.
Qed.

(** X19.  In a table the review calls can reach, [delete_review] returns
    [True] exactly when the review exists and belongs to the user; it then
    removes that one row, after which the id is not found any more and the
    user has no review of the product.  When it returns [False] the table
    is unchanged. *)
Theorem delete_review_round_trip db review_id user_id :
  reachable db ->
  ((delete_review db review_id user_id).2 = true
   <-> exists r, get_review_by_id db review_id = Some r /\ Review.user_id r = user_id)
  /\ ((delete_review db review_id user_id).2 = false ->
      (delete_review db review_id user_id).1 = db)
  /\ (forall r, get_review_by_id db review_id = Some r -> Review.user_id r = user_id ->
        get_review_by_id (delete_review db review_id user_id).1 review_id = None
        /\ S (length (ReviewBook.reviews (delete_review db review_id user_id).1))
           = length (ReviewBook.reviews db)
        /\ get_user_review_for_product (delete_review db review_id user_id).1
             user_id (Review.product_id r) = None).
Proof.
  intros Hreach.
  assert (Hok : book_ok db).
  { destruct Hreach as [calls ->]. apply run_book_ok. repeat split; constructor. }
  destruct Hok as (Hpairs & Hids & _). clear Hreach.
  assert (Hown : forall r, get_review_by_id db review_id = Some r ->
                           Review.user_id r = user_id ->
                           first_row (owned review_id user_id) (ReviewBook.reviews db)
                           = Some r).
  { intros r Hr Hu. apply (first_row_refine _ (is_review review_id)); [|done|].
    - unfold owned, is_review. by intros x [? _]%andb_true_iff.
    - apply first_row_Some in Hr as [_ Hid]. unfold owned, is_review in *.
      by rewrite Hid, Hu, Z.eqb_refl. }
  split; [|split].
  - unfold delete_review.
    destruct (first_row (owned review_id user_id) _) as [r|] eqn:Hfirst; simpl.
    + split; [intros _|done]. exists r.
      apply first_row_Some in Hfirst as [Hin [Hid Hu]%andb_true_iff].
      apply Z.eqb_eq in Hid, Hu. split; [|done].
      apply (first_row_unique _ Review.id); [|done|done].
      intros x. unfold is_review. rewrite Z.eqb_eq. by rewrite Hid.
    + split; [done|]. intros (r & Hr & Hu). pose proof (Hown r Hr Hu). congruence.
  - unfold delete_review. by destruct (first_row _ _).
  - intros r Hr Hu. pose proof (Hown r Hr Hu) as Hfirst.
    unfold delete_review. rewrite Hfirst. simpl.
    apply first_row_Some in Hr as [_ Hid]. unfold is_review in Hid.
    apply Z.eqb_eq in Hid. split; [|split].
    + apply (delete_first_gone _ _ Review.id _ r); [|done|done].
      intros x. unfold is_review. rewrite Z.eqb_eq. by rewrite Hid.
    + by eapply delete_first_length.
    + apply (delete_first_gone _ _ author_and_product _ r); [|done|done].
      intros x. rewrite <- Hu. apply by_author_spec.
Qed.
End ReviewLaws.

(** ** Votes *)

Section VoteLaws.
Import Votes VoteOps.
Implicit Types (db : Studio.t) (v : DesignVote.t).

Lemma votes_recount db design_id :
  Studio.votes (update_design_vote_count db design_id) = Studio.votes db.
Proof. unfold update_design_vote_count. by destruct (get_design_by_id db design_id). Qed.

Lemma by_pair_spec v v' :
  by_pair (DesignVote.design_id v) (DesignVote.user_id v) v' = true
  <-> voter v' = voter v.
Proof.
  unfold by_pair, voter. rewrite andb_true_iff, !Z.eqb_eq.
  split; [by intros [-> ->]|]. by intros [= -> ->].
Qed.

Lemma by_pair_found db design_id user_id v :
  first_row (by_pair design_id user_id) (Studio.votes db) = Some v ->
  DesignVote.design_id v = design_id /\ DesignVote.user_id v = user_id.
Proof.
  intros [_ [Hd Hu]%andb_true_iff]%first_row_Some. by apply Z.eqb_eq in Hd, Hu.
Qed.

Lemma step_one_vote_each db c : one_vote_each db -> one_vote_each (step db c).
Proof.
  unfold one_vote_each. intros Hnd. destruct c as [d u t|d u]; simpl.
  - unfold create_vote.
    destruct (first_row (by_pair d u) (Studio.votes db)) as [v|] eqn:Hv; simpl.
    + by rewrite update_first_keys.
    + rewrite votes_recount. simpl. rewrite fmap_app. apply NoDup_app.
      split; [done|]. split; [|apply NoDup_singleton].
      intros pr Hpr ->%list_elem_of_singleton.
      apply list_elem_of_fmap in Hpr as (v & Hv' & Hin).
      apply first_row_None in Hv. rewrite Forall_forall in Hv. apply Hv in Hin.
      unfold by_pair, voter in *. simpl in *. injection Hv' as Hd Hu.
      by rewrite <- Hd, <- Hu, !Z.eqb_refl in Hin.
  - unfold delete_vote. destruct (first_row _ _); [|done]. simpl.
    rewrite votes_recount. simpl. by apply delete_first_NoDup.
Qed.

(** X20.  Casting and removing votes never leaves two vote rows of one
    user on one design: a repeated vote overwrites the row it finds. *)
Theorem one_vote_per_user_and_design calls : forall db,
  one_vote_each db -> one_vote_each (run db calls).
Proof.
  induction calls as [|c calls IH]; intros db Hok; [done|].
  apply IH, step_one_vote_each, Hok.
Qed.

(** X21.  A vote can be read back: after [create_vote], [get_user_vote]
    for the same design and user returns the very row [create_vote]
    returned, which carries the design, the user and the vote type just
    given, whether the user had voted before or not.  And when no user
    has two rows on a design, [get_user_vote] finds nothing after
    [delete_vote]. *)
Theorem vote_round_trip db design_id user_id vote_type :
  get_user_vote (create_vote db design_id user_id vote_type).1 design_id user_id
  = Some (create_vote db design_id user_id vote_type).2
  /\ DesignVote.vote_type (create_vote db design_id user_id vote_type).2 = vote_type
  /\ DesignVote.design_id (create_vote db design_id user_id vote_type).2 = design_id
  /\ DesignVote.user_id (create_vote db design_id user_id vote_type).2 = user_id
  /\ (one_vote_each db ->
      get_user_vote (delete_vote db design_id user_id).1 design_id user_id = None).
Proof.
  unfold get_user_vote, create_vote, delete_vote.
  destruct (first_row (by_pair design_id user_id) (Studio.votes db)) as [v|] eqn:Hv;
    simpl.
  - destruct (by_pair_found db _ _ v Hv) as [Hd Hu].
    rewrite first_row_update_same by done. rewrite Hv. simpl.
    repeat split; try done.
    intros Hnd. rewrite votes_recount. simpl.
    apply (delete_first_gone _ _ voter _ v); [|done|done].
    intros x. rewrite <- Hd, <- Hu. apply by_pair_spec.
  - rewrite votes_recount. simpl. rewrite first_row_app, Hv. simpl.
    unfold by_pair. simpl. rewrite !Z.eqb_refl. simpl. by repeat split.
Qed.

(** X22.  A first vote and a removal both end with a recount: for a
    design that exists, after the first vote of a user, and after the
    removal of a vote that is there, the stored [total_votes] is the
    number of upvote rows minus the number of downvote rows of the design
    as the table then stands. *)
Theorem first_vote_and_removal_recount db design_id user_id :
  is_Some (get_design_by_id db design_id) ->
  (get_user_vote db design_id user_id = None ->
   forall vote_type,
     total_votes_of (create_vote db design_id user_id vote_type).1 design_id
     = Some (tally (create_vote db design_id user_id vote_type).1 design_id))
  /\ (is_Some (get_user_vote db design_id user_id) ->
      (delete_vote db design_id user_id).2 = true
      /\ total_votes_of (delete_vote db design_id user_id).1 design_id
         = Some (tally (delete_vote db design_id user_id).1 design_id)).
Proof.
  intros Hd. split.
  - intros Hnone t. by apply create_vote_new.
  - intros Hsome. by apply delete_vote_recounts.
Qed.

Lemma is_design_apart (a b : Z) (d : Design.t) :
  a <> b -> is_design a d = true -> is_design b d = false.
Proof. unfold is_design. intros Hab Ha%Z.eqb_eq. apply Z.eqb_neq. congruence. Qed.

Lemma total_recount_other db design_id other :
  other <> design_id ->
  total_votes_of (update_design_vote_count db design_id) other = total_votes_of db other.
Proof.
  intros Hother. unfold total_votes_of, update_design_vote_count.
  destruct (get_design_by_id db design_id); [|done].
  unfold get_design_by_id. simpl. f_equal.
  apply first_row_update_other; [done|]. intros r. apply is_design_apart. congruence.
Qed.

Lemma not_by_pair design_id user_id other v :
  other <> design_id -> by_pair design_id user_id v = true ->
  (DesignVote.design_id v =? other) = false.
Proof.
  unfold by_pair. intros Hother [Hd%Z.eqb_eq _]%andb_true_iff.
  apply Z.eqb_neq. congruence.
Qed.

Lemma step_is_local db c other :
  other <> design_of c ->
  total_votes_of (step db c) other = total_votes_of db other
  /\ get_design_votes (step db c) other = get_design_votes db other.
Proof.
  intros Hother. unfold get_design_votes. destruct c as [d u t|d u]; simpl in *.
  - unfold create_vote. destruct (first_row (by_pair d u) (Studio.votes db)); simpl.
    + split; [done|]. apply filter_update_first. intros r Hr.
      split; by eapply not_by_pair.
    + rewrite total_recount_other, votes_recount by done. simpl.
      split; [done|]. rewrite List.filter_app. simpl.
      apply Z.eqb_neq in Hother. rewrite Z.eqb_sym, Hother. by rewrite app_nil_r.
  - unfold delete_vote. destruct (first_row (by_pair d u) (Studio.votes db)); [|done].
    simpl. rewrite total_recount_other, votes_recount by done. simpl.
    split; [done|]. apply filter_delete_first. intros r Hr. by eapply not_by_pair.
Qed.

(** X23.  A vote call is local to its design: casting or removing a vote
    on one design changes neither the stored total nor the vote rows of
    any other design. *)
Theorem vote_calls_are_local db c other :
  other <> design_of c ->
  total_votes_of (step db c) other = total_votes_of db other
  /\ get_design_votes (step db c) other = get_design_votes db other.
Proof. apply step_is_local. Qed.

Lemma tally_within_votes db design_id :
  - Z.of_nat (length (get_design_votes db design_id)) <= tally db design_id
  /\ tally db design_id <= Z.of_nat (length (get_design_votes db design_id)).
Proof.
  unfold tally, get_design_votes, count_rows, by_kind.
  induction (Studio.votes db) as [|v vs IH]; simpl; [lia|].
  destruct (DesignVote.design_id v =? design_id); simpl; [|exact IH].
  destruct (String.eqb (DesignVote.vote_type v) "upvote") eqn:Hup;
    destruct (String.eqb (DesignVote.vote_type v) "downvote") eqn:Hdown;
    simpl; lia.
Qed.

Lemma design_votes_revote db design_id user_id vote_type other :
  length (List.filter (fun v => DesignVote.design_id v =? other)
            (update_first (by_pair design_id user_id) (set_vote_type vote_type)
               (Studio.votes db)))
  = length (List.filter (fun v => DesignVote.design_id v =? other) (Studio.votes db)).
Proof.
  induction (Studio.votes db) as [|v vs IH]; simpl; [done|].
  destruct (by_pair design_id user_id v); simpl.
  - by destruct (DesignVote.design_id v =? other).
  - destruct (DesignVote.design_id v =? other); simpl; by rewrite IH.
Qed.

Lemma step_totals_within_votes db c :
  totals_within_votes db -> totals_within_votes (step db c).
Proof.
  intros Hok d n. destruct (decide (d = design_of c)) as [->|Hother].
  - destruct c as [d u t|d u]; simpl.
    + unfold create_vote.
      destruct (first_row (by_pair d u) (Studio.votes db)) as [v|] eqn:Hv; simpl.
      * intros Hn. unfold get_design_votes. simpl. rewrite design_votes_revote.
        by apply Hok.
      * set (db1 := Studio.mk _ _ _). unfold total_votes_of.
        destruct (get_design_by_id (update_design_vote_count db1 d) d) eqn:Hd;
          [|done].
        assert (Hsome : is_Some (get_design_by_id db1 d)).
        { unfold update_design_vote_count in Hd.
          destruct (get_design_by_id db1 d) eqn:Hd1; [by eexists|]. congruence. }
        pose proof (recount_total db1 d Hsome) as Htotal.
        unfold total_votes_of in Htotal. rewrite Hd in Htotal. simpl in *.
        intros [= <-]. injection Htotal as ->.
        unfold get_design_votes. rewrite votes_recount. apply tally_within_votes.
    + unfold delete_vote.
      destruct (first_row (by_pair d u) (Studio.votes db)) as [v|] eqn:Hv;
        [|apply Hok]. simpl.
      set (db1 := Studio.mk _ _ _). unfold total_votes_of.
      destruct (get_design_by_id (update_design_vote_count db1 d) d) eqn:Hd;
        [|done].
      assert (Hsome : is_Some (get_design_by_id db1 d)).
      { unfold update_design_vote_count in Hd.
        destruct (get_design_by_id db1 d) eqn:Hd1; [by eexists|]. congruence. }
      pose proof (recount_total db1 d Hsome) as Htotal.
      unfold total_votes_of in Htotal. rewrite Hd in Htotal. simpl in *.
      intros [= <-]. injection Htotal as ->.
      unfold get_design_votes. rewrite votes_recount. apply tally_within_votes.
  - destruct (step_is_local db c d Hother) as [-> ->]. apply Hok.
Qed.

(** X24.  The stored total of a design never exceeds the number of its
    vote rows in absolute value, and vote calls keep it so: also the
    repeated vote that skips the recount, since it changes neither the
    total nor the number of rows. *)
Theorem totals_stay_within_votes calls : forall db,
  totals_within_votes db -> totals_within_votes (run db calls).
Proof.
  induction calls as [|c calls IH]; intros db Hok; [done|].
  apply IH, step_totals_within_votes, Hok.
Qed.
End VoteLaws.

(** ** More on the coupon ledger *)

Section CouponLaws.
Context {amount : Type}.
Import Coupons CouponOps.
Implicit Types (db : Ledger.t amount) (c : CouponCode.t).

Lemma fresh_code_found db draws code :
  fresh_code db draws = Some code ->
  exists d, In d draws /\ code = ("LOYALTY" +:+ d).
Proof.
  induction draws as [|d rest IH]; simpl; [done|].
  destruct (get_coupon_by_code db (_ +:+ d)).
  - intros (d' & Hin & ->)%IH. exists d'. auto.
  - intros [= <-]. exists d. auto.
Qed.

Lemma fresh_code_none db draws :
  fresh_code db draws = None
  <-> Forall (fun d => is_Some (get_coupon_by_code db ("LOYALTY" +:+ d))) draws.
Proof.
  induction draws as [|d rest IH]; simpl; [split; [constructor|done]|].
  destruct (get_coupon_by_code db (_ +:+ d)) as [c|] eqn:Hc.
  - rewrite IH. split; [intros; constructor; [by eexists|done]|by inversion 1].
  - split; [done|]. inversion 1 as [|? ? [c Hc'] _]; subst. congruence.
Qed.

(** X25.  The code of a coupon [create_coupon_code] issues is the tag
    [LOYALTY] followed by one of the draws, and no coupon had it before;
    the coupon is appended with the owner and the terms given, a count of
    0 and active, and is what a lookup of its code then finds.  The loop
    fails to end only when every draw is taken. *)
Theorem issued_coupon_is_fresh db draws user_id discount_percentage max_uses
    expires_at created_by_admin :
  (forall db' c,
     create_coupon_code db draws user_id discount_percentage max_uses expires_at
       created_by_admin = Some (db', c) ->
     (exists d, In d draws /\ CouponCode.code c = ("LOYALTY" +:+ d))
     /\ String.prefix "LOYALTY" (CouponCode.code c) = true
     /\ get_coupon_by_code db (CouponCode.code c) = None
     /\ get_coupon_by_code db' (CouponCode.code c) = Some c
     /\ c = CouponCode.mk (Ledger.next_coupon_id db) (CouponCode.code c) user_id
              discount_percentage max_uses 0 true expires_at created_by_admin
     /\ Ledger.coupons db' = Ledger.coupons db ++ [c]
     /\ Ledger.usages db' = Ledger.usages db)
  /\ (create_coupon_code db draws user_id discount_percentage max_uses expires_at
        created_by_admin = None
      <-> Forall (fun d => is_Some (get_coupon_by_code db ("LOYALTY" +:+ d))) draws).
Proof.
  unfold create_coupon_code. split.
  - intros db' c. destruct (fresh_code db draws) as [code|] eqn:Hfresh; [|done].
    intros [= <- <-]. simpl.
    pose proof (fresh_code_is_fresh db draws code Hfresh) as Hnew.
    destruct (fresh_code_found db draws code Hfresh) as (d & Hin & ->).
    split; [by exists d|].
    split; [apply String.prefix_correct; simpl; by destruct d|]. split; [done|].
    split; [|done].
    unfold get_coupon_by_code in *. simpl. rewrite first_row_app, Hnew. simpl.
    unfold has_code. simpl. by rewrite String.eqb_refl.
  - rewrite <- fresh_code_none. by destruct (fresh_code db draws).
Qed.

(** X26.  In every ledger the coupon calls can reach, no two coupons
    share an id and no two share a code. *)
Theorem reachable_coupons_are_distinct db :
  reachable db ->
  NoDup (CouponCode.id <$> Ledger.coupons db)
  /\ NoDup (CouponCode.code <$> Ledger.coupons db).
Proof. intros (Hids & Hcodes & _)%reachable_ok. by split. Qed.

Lemma coupon_id_apart c (a b : Z) : a <> b -> has_id a c = true -> has_id b c = false.
Proof. unfold has_id. intros Hab Ha%Z.eqb_eq. apply Z.eqb_neq. congruence. Qed.

(** No call makes an inactive coupon active. *)
Lemma step_keeps_inactive db call coupon_id c :
  get_coupon_by_id db coupon_id = Some c -> CouponCode.is_active c = false ->
  exists c',
    get_coupon_by_id (step db call) coupon_id = Some c'
    /\ CouponCode.is_active c' = false
    /\ CouponCode.code c' = CouponCode.code c.
Proof.
  intros Hc Hoff. unfold get_coupon_by_id in *.
  destruct call as [draws uid pct mx ex adm|code uid now|cid oid amt|cid]; simpl.
  - unfold create_coupon_code. destruct (fresh_code db draws); [|by exists c].
    simpl. rewrite first_row_app, Hc. by exists c.
  - by exists c.
  - destruct (get_coupon_by_id db cid) eqn:Hcid; [|by exists c].
    destruct (decide (cid = coupon_id)) as [->|Hne].
    + rewrite first_row_update_same, Hc by (intros r; by rewrite redeem_fields).
      simpl. exists (redeem c). split; [done|]. rewrite redeem_fields. simpl.
      rewrite Hoff. by destruct (_ <=? _).
    + rewrite first_row_update_other;
        [by exists c|intros r; by rewrite redeem_fields|intros r; by apply coupon_id_apart].
  - unfold deactivate_coupon. destruct (get_coupon_by_id db cid) eqn:Hcid; [|by exists c].
    simpl. destruct (decide (cid = coupon_id)) as [->|Hne].
    + rewrite first_row_update_same, Hc by done. simpl. by eexists.
    + rewrite first_row_update_other;
        [by exists c|done|intros r; by apply coupon_id_apart].
Qed.

Lemma run_keeps_inactive calls : forall db coupon_id c,
  get_coupon_by_id db coupon_id = Some c -> CouponCode.is_active c = false ->
  exists c',
    get_coupon_by_id (run db calls) coupon_id = Some c'
    /\ CouponCode.is_active c' = false
    /\ CouponCode.code c' = CouponCode.code c.
Proof.
  induction calls as [|call calls IH]; intros db i c Hc Hoff; [by exists c|].
  destruct (step_keeps_inactive db call i c Hc Hoff) as (c1 & Hc1 & Hoff1 & Hcode1).
  destruct (IH (step db call) i c1 Hc1 Hoff1) as (c2 & Hc2 & Hoff2 & Hcode2).
  exists c2. split; [done|]. split; [done|]. congruence.
Qed.

(** X27.  Deactivation is final.  Once [deactivate_coupon] has been
    called on a coupon of a reachable ledger, no later issue, redemption
    or deactivation makes it active again, and [validate_coupon] on its
    code returns [None] for every user at every time. *)
Theorem deactivated_coupon_stays_invalid db coupon_id c calls user_id utcnow :
  reachable db ->
  get_coupon_by_id db coupon_id = Some c ->
  (exists c',
     get_coupon_by_id (run (deactivate_coupon db coupon_id).1 calls) coupon_id = Some c'
     /\ CouponCode.is_active c' = false)
  /\ validate_coupon (run (deactivate_coupon db coupon_id).1 calls)
       (CouponCode.code c) user_id utcnow = None.
Proof.
  intros Hreach Hc.
  assert (Hok : ledger_ok (run (deactivate_coupon db coupon_id).1 calls)).
  { apply run_ok. change (ledger_ok (step db (DeactivateCoupon coupon_id))).
    by apply step_ok, reachable_ok. }
  assert (Hoff : get_coupon_by_id (deactivate_coupon db coupon_id).1 coupon_id
                 = Some (set_is_active false c)).
  { unfold deactivate_coupon. rewrite Hc. unfold get_coupon_by_id in *. simpl.
    rewrite first_row_update_same by done. by rewrite Hc. }
  destruct (run_keeps_inactive calls _ _ _ Hoff eq_refl) as (c' & Hc' & Hoff' & Hcode).
  split; [by exists c'|].
  assert (Hfound : get_coupon_by_code (run (deactivate_coupon db coupon_id).1 calls)
                     (CouponCode.code c) = Some c').
  { destruct Hok as (_ & Hcodes & _). simpl in Hcode. rewrite <- Hcode.
    apply first_row_Some in Hc' as [Hin _].
    eapply first_row_unique; [apply has_code_spec|exact Hcodes|exact Hin]. }
  unfold validate_coupon. rewrite Hfound, Hoff'. simpl. by destruct (negb _).
Qed.

Lemma usages_of_append db (row : CouponUsage.t amount) coupons n m coupon_id :
  usages_of (Ledger.mk coupons (Ledger.usages db ++ [row]) n m) coupon_id
  = usages_of db coupon_id
    + (if CouponUsage.coupon_id row =? coupon_id then 1 else 0).
Proof.
  unfold usages_of. simpl. rewrite count_rows_app. unfold count_rows. simpl.
  by destruct (_ =? _).
Qed.

Lemma step_backed db call :
  Forall (fun c => CouponCode.used_count c <= usages_of db (CouponCode.id c))
    (Ledger.coupons db) ->
  Forall (fun c => CouponCode.used_count c <= usages_of (step db call) (CouponCode.id c))
    (Ledger.coupons (step db call)).
Proof.
  intros Hall.
  destruct call as [draws uid pct mx ex adm|code uid now|cid oid amt|cid]; simpl.
  - unfold create_coupon_code. destruct (fresh_code db draws); [|done]. simpl.
    apply Forall_app. split; [done|]. repeat constructor. simpl.
    apply count_rows_nonneg.
  - done.
  - destruct (get_coupon_by_id db cid).
    + eapply update_first_Forall_step; [| |exact Hall]; simpl.
      * intros r Hr. rewrite usages_of_append. simpl. destruct (_ =? _); lia.
      * intros r Hid%Z.eqb_eq Hr. rewrite redeem_fields. simpl.
        rewrite usages_of_append. simpl. rewrite Hid in Hr. rewrite Hid, Z.eqb_refl. lia.
    + eapply Forall_impl; [exact Hall|]. simpl. intros r Hr.
      rewrite usages_of_append. simpl. destruct (_ =? _); lia.
  - unfold deactivate_coupon. destruct (get_coupon_by_id db cid); [|done]. simpl.
    by apply update_first_Forall.
Qed.

(** X28.  Every count is backed by usage rows: in a ledger the coupon
    calls can reach, the [used_count] of a coupon is at most the number
    of [CouponUsage] rows that name it.  (It can be less: a redemption
    that names an id no coupon has yet still records a usage.) *)
Theorem used_count_is_backed_by_usages db :
  reachable db ->
  Forall (fun c => CouponCode.used_count c <= usages_of db (CouponCode.id c))
    (Ledger.coupons db).
Proof.
  intros [calls ->].
  assert (Hgen : forall db0 : Ledger.t amount,
            Forall (fun c => CouponCode.used_count c <= usages_of db0 (CouponCode.id c))
              (Ledger.coupons db0) ->
            Forall (fun c => CouponCode.used_count c
                             <= usages_of (run db0 calls) (CouponCode.id c))
              (Ledger.coupons (run db0 calls))).
  { induction calls as [|call calls IH]; intros db0 H0; [done|].
    apply IH, step_backed, H0. }
  apply Hgen. constructor.
Qed.
End CouponLaws.

(** ** Reading back what was written *)

Section IntRoundTrip.
Context {price : Type} `{PriceOps price}.
Import PyStr.

Lemma digits_of_uint_pos (d : Decimal.uint) : forall (acc : positive) (b : bool),
  d <> Decimal.Nil \/ b = true ->
  digits (uint_codes d) (Z.pos acc) b = Some (Z.pos (Pos.of_uint_acc d acc)).
Proof.
  induction d as [|d IH|d IH|d IH|d IH|d IH|d IH|d IH|d IH|d IH|d IH];
    intros acc b Hb;
    [destruct Hb as [Hd| ->]; [done|reflexivity]|..];
    cbn [uint_codes digits];
    match goal with
    | |- match digit_value ?c with _ => _ end = _ =>
        change (digit_value c) with (Some (c - 48)); cbn beta iota
    end;
    match goal with
    | |- digits _ ?z true = Some (Z.pos (Pos.of_uint_acc _ _)) =>
        cbn [Pos.of_uint_acc];
        match goal with
        | |- digits _ _ true = Some (Z.pos (Pos.of_uint_acc _ ?q)) =>
            replace z with (Z.pos q) by (cbn; lia)
        end
    end;
    apply IH; by right.
Qed.

Lemma digits_of_uint (d : Decimal.uint) (b : bool) :
  d <> Decimal.Nil \/ b = true ->
  digits (uint_codes d) 0 b = Some (Z.of_N (Pos.of_uint d)).
Proof.
  revert b.
  induction d as [|d IH|d IH|d IH|d IH|d IH|d IH|d IH|d IH|d IH|d IH];
    intros b Hb;
    [destruct Hb as [Hd| ->]; [done|reflexivity]|..];
    cbn [uint_codes digits];
    match goal with
    | |- match digit_value ?c with _ => _ end = _ =>
        change (digit_value c) with (Some (c - 48)); cbn beta iota
    end.
  - change (10 * 0 + (48 - 48)) with 0.
    cbn [Pos.of_uint]. apply IH. by right.
  - apply (digits_of_uint_pos d 1 true). by right.
  - apply (digits_of_uint_pos d 2 true). by right.
  - apply (digits_of_uint_pos d 3 true). by right.
  - apply (digits_of_uint_pos d 4 true). by right.
  - apply (digits_of_uint_pos d 5 true). by right.
  - apply (digits_of_uint_pos d 6 true). by right.
  - apply (digits_of_uint_pos d 7 true). by right.
  - apply (digits_of_uint_pos d 8 true). by right.
  - apply (digits_of_uint_pos d 9 true). by right.
Qed.

Lemma uint_codes_chars (d : Decimal.uint) :
  Forall (fun c => In c numeral_chars) (uint_codes d).
Proof. induction d; simpl; constructor; try done; simpl; tauto. Qed.

Lemma decimal_chars (n : Z) : Forall (fun c => In c numeral_chars) (decimal n).
Proof.
  destruct n as [|p|p]; simpl.
  - constructor; [simpl; tauto|constructor].
  - apply uint_codes_chars.
  - constructor; [simpl; tauto|apply uint_codes_chars].
Qed.

Lemma forallb_numeral (q : Z -> bool) (s : PyStr.t) :
  forallb q numeral_chars = true ->
  Forall (fun c => In c numeral_chars) s -> forallb q s = true.
Proof.
  intros Hq Hs. apply forallb_forall. intros c Hin.
  rewrite Forall_forall in Hs. apply list_elem_of_In, Hs in Hin.
  rewrite forallb_forall in Hq. by apply Hq.
Qed.

Lemma lstrip_by_none p (s : PyStr.t) :
  forallb (fun c => negb (p c)) s = true -> lstrip_by p s = s.
Proof.
  destruct s as [|c s]; simpl; [done|].
  intros [Hc _]%andb_true_iff. apply negb_true_iff in Hc. by rewrite Hc.
Qed.

Lemma rstrip_by_none p (s : PyStr.t) :
  forallb (fun c => negb (p c)) s = true -> rstrip_by p s = s.
Proof.
  induction s as [|c s IH]; simpl; [done|]. intros [Hc Hs]%andb_true_iff.
  rewrite (IH Hs). apply negb_true_iff in Hc. rewrite Hc. by destruct s.
Qed.

(** A numeral has no white space to strip and no comma. *)
Lemma decimal_clean (n : Z) :
  strip (decimal n) = decimal n
  /\ rstrip_by int_space (lstrip_by int_space (decimal n)) = decimal n
  /\ no_comma (decimal n).
Proof.
  pose proof (decimal_chars n) as Hn. split; [|split].
  - unfold strip.
    rewrite lstrip_by_none, rstrip_by_none; try done; by apply forallb_numeral.
  - rewrite lstrip_by_none, rstrip_by_none; try done; by apply forallb_numeral.
  - by apply forallb_numeral.
Qed.

Lemma length_uint_codes (d : Decimal.uint) :
  length (uint_codes d) = Decimal.nb_digits d.
Proof. induction d; simpl; congruence. Qed.

Lemma filter_digits_uint_codes (d : Decimal.uint) :
  List.filter is_digit (uint_codes d) = uint_codes d.
Proof.
  induction d as [|d IH|d IH|d IH|d IH|d IH|d IH|d IH|d IH|d IH|d IH];
    [done|..]; cbn [uint_codes List.filter];
    match goal with
    | |- (if is_digit ?c then _ else _) = _ => change (is_digit c) with true
    end; cbn iota; by rewrite IH.
Qed.

(** The number a digit string denotes lies between the powers of ten its
    length gives. *)
Lemma of_uint_acc_bounds (d : Decimal.uint) : forall acc : positive,
  Z.pos acc * 10 ^ Z.of_nat (Decimal.nb_digits d) <= Z.pos (Pos.of_uint_acc d acc)
  /\ Z.pos (Pos.of_uint_acc d acc)
     < (Z.pos acc + 1) * 10 ^ Z.of_nat (Decimal.nb_digits d).
Proof.
  induction d as [|d IH|d IH|d IH|d IH|d IH|d IH|d IH|d IH|d IH|d IH];
    intros acc; [simpl; lia|..];
    cbn [Decimal.nb_digits Pos.of_uint_acc];
    rewrite Nat2Z.inj_succ, Z.pow_succ_r by lia;
    match goal with
    | |- context [Pos.of_uint_acc d ?q] => destruct (IH q) as [Hlo Hhi]
    end;
    pose proof (Z.pow_pos_nonneg 10 (Z.of_nat (Decimal.nb_digits d))
                  ltac:(lia) ltac:(lia));
    split; nia.
Qed.

Lemma to_uint_normal (p : positive) : Decimal.unorm (Pos.to_uint p) = Pos.to_uint p.
Proof.
  rewrite <- (DecimalPos.Unsigned.to_of (Pos.to_uint p)).
  by rewrite DecimalPos.Unsigned.of_to.
Qed.

Lemma to_uint_no_leading_zero (p : positive) (d : Decimal.uint) :
  Pos.to_uint p <> Decimal.D0 d.
Proof.
  intros E. pose proof (to_uint_normal p) as Hn. rewrite E in Hn.
  rewrite DecimalFacts.unorm_D0 in Hn.
  assert (Hd : d = Decimal.Nil \/ d <> Decimal.Nil) by (destruct d; auto).
  destruct Hd as [->|Hd].
  - by apply (DecimalPos.Unsigned.to_uint_nonzero p).
  - pose proof (DecimalFacts.nb_digits_unorm d Hd) as Hle.
    rewrite Hn in Hle. simpl in Hle. lia.
Qed.

(** A positive number of [k] digits lies from [10^(k-1)] up to, and not
    including, [10^k]. *)
Lemma to_uint_bounds (p : positive) :
  10 ^ (Z.of_nat (Decimal.nb_digits (Pos.to_uint p)) - 1) <= Z.pos p
  /\ Z.pos p < 10 ^ Z.of_nat (Decimal.nb_digits (Pos.to_uint p)).
Proof.
  pose proof (DecimalPos.Unsigned.of_to p) as Hp.
  pose proof (DecimalPos.Unsigned.to_uint_nonnil p) as Hnil.
  pose proof (to_uint_no_leading_zero p) as Hzero.
  destruct (Pos.to_uint p) as [|d|d|d|d|d|d|d|d|d|d]; [done|by destruct (Hzero d)|..];
    cbn [Pos.of_uint] in Hp; injection Hp as <-;
    cbn [Decimal.nb_digits];
    rewrite Nat2Z.inj_succ, Z.pow_succ_r by lia;
    replace (Z.succ (Z.of_nat (Decimal.nb_digits d)) - 1)
      with (Z.of_nat (Decimal.nb_digits d)) by lia;
    match goal with
    | |- context [Pos.of_uint_acc d ?q] => destruct (of_uint_acc_bounds d q) as [Hlo Hhi]
    end;
    pose proof (Z.pow_pos_nonneg 10 (Z.of_nat (Decimal.nb_digits d))
                  ltac:(lia) ltac:(lia));
    split; nia.
Qed.

Lemma to_uint_digits (p : positive) (m : Z) :
  0 <= m ->
  Z.pos p < 10 ^ m <-> Z.of_nat (Decimal.nb_digits (Pos.to_uint p)) <= m.
Proof.
  intros Hm. destruct (to_uint_bounds p) as [Hlo Hhi]. split.
  - intros Hlt.
    assert (Hk : 10 ^ (Z.of_nat (Decimal.nb_digits (Pos.to_uint p)) - 1) < 10 ^ m)
      by lia.
    apply Z.pow_lt_mono_r_iff in Hk; lia.
  - intros Hle. eapply Z.lt_le_trans; [exact Hhi|].
    apply Z.pow_le_mono_r; lia.
Qed.

(** [int] converts the numeral of [n] back to [n], unless the numeral has
    more digits than the limit. *)
Lemma number_of_uint (p : positive) :
  number (uint_codes (Pos.to_uint p))
  = if Z.pos p <? 10 ^ max_str_digits then Some (Z.pos p) else None.
Proof.
  unfold number. rewrite filter_digits_uint_codes, length_uint_codes.
  destruct (Z.ltb_spec (Z.pos p) (10 ^ max_str_digits)) as [Hlt|Hge].
  - apply to_uint_digits in Hlt; [|done].
    apply Z.ltb_ge in Hlt. rewrite Hlt.
    rewrite digits_of_uint by (left; apply DecimalPos.Unsigned.to_uint_nonnil).
    by rewrite DecimalPos.Unsigned.of_to.
  - destruct (Z.ltb_spec max_str_digits
                (Z.of_nat (Decimal.nb_digits (Pos.to_uint p)))) as [|Hle]; [done|].
    apply to_uint_digits in Hle; [lia|done].
Qed.

Lemma int_decimal (n : Z) :
  PyStr.int (decimal n) = if Z.abs n <? 10 ^ max_str_digits then Some n else None.
Proof.
  unfold PyStr.int. destruct (decimal_clean n) as (_ & -> & _).
  destruct n as [|p|p]; [reflexivity| |].
  - cbn [decimal]. change (Z.abs (Z.pos p)) with (Z.pos p).
    rewrite <- number_of_uint.
    pose proof (DecimalPos.Unsigned.to_uint_nonnil p) as Hnil.
    destruct (Pos.to_uint p); try done.
  - cbn [decimal]. change (Z.abs (Z.neg p)) with (Z.pos p).
    change (45 =? 43) with false. change (45 =? 45) with true.
    cbn iota. rewrite number_of_uint. by destruct (_ <? _).
Qed.

Lemma mapM_fmap_compose {A B C} (f : B -> option C) (g : A -> B) (xs : list A) :
  mapM f (g <$> xs) = mapM (fun x => f (g x)) xs.
Proof.
  induction xs as [|x xs IH]; [done|]. rewrite fmap_cons. simpl. by rewrite IH.
Qed.

Lemma parse_int_list_decimal (ns : list Z) :
  ns <> [] ->
  parse_int_list (join [comma] (decimal <$> ns))
  = mapM (fun n => if Z.abs n <? 10 ^ max_str_digits then Some n else None) ns.
Proof.
  intros Hne. unfold parse_int_list. rewrite split_join.
  - rewrite mapM_fmap_compose. clear Hne.
    induction ns as [|n ns IH]; [done|]. simpl.
    destruct (decimal_clean n) as (-> & _). by rewrite int_decimal, IH.
  - by destruct ns.
  - apply Forall_fmap, Forall_forall. intros n _. apply decimal_clean.
Qed.

Lemma parse_int_list_decimal_small (ns : list Z) :
  ns <> [] -> Forall (fun n => Z.abs n < 10 ^ max_str_digits) ns ->
  parse_int_list (join [comma] (decimal <$> ns)) = Some ns.
Proof.
  intros Hne Hall. rewrite parse_int_list_decimal by done. clear Hne.
  induction Hall as [|n ns Hn _ IH]; [done|]. simpl.
  apply Z.ltb_lt in Hn. by rewrite Hn, IH.
Qed.

Lemma parse_int_list_decimal_large (ns : list Z) :
  ns <> [] -> Exists (fun n => 10 ^ max_str_digits <= Z.abs n) ns ->
  parse_int_list (join [comma] (decimal <$> ns)) = None.
Proof.
  intros Hne Hex. rewrite parse_int_list_decimal by done.
  apply mapM_None. eapply Exists_impl; [exact Hex|]. simpl.
  intros n Hn. by apply Z.ltb_ge in Hn as ->.
Qed.

(** X29.  What is written is read back, up to the digit limit of the
    interpreter.  For a cart of at least one line, written as the decimal
    numerals of its product ids and of its quantities, joined by commas:
    when every number has at most 4300 digits, [create_guest_order] runs
    the order body on exactly that cart, line by line in order, with no
    user; when some number has more, it raises [InvalidFormat] and leaves
    the store as it was. *)
Theorem written_cart_is_read_back (db : Shop.t price) product_ids quantities contact :
  product_ids <> [] -> length product_ids = length quantities ->
  (Forall (fun n => Z.abs n < 10 ^ max_str_digits) (product_ids ++ quantities) ->
   create_guest_order db
     (GuestOrderCreate.mk (join [comma] (decimal <$> product_ids))
        (join [comma] (decimal <$> quantities)) contact)
   = place_order db None contact (zip_with OrderItemBase.mk product_ids quantities))
  /\ (Exists (fun n => 10 ^ max_str_digits <= Z.abs n) (product_ids ++ quantities) ->
      create_guest_order db
        (GuestOrderCreate.mk (join [comma] (decimal <$> product_ids))
           (join [comma] (decimal <$> quantities)) contact)
      = (db, Err InvalidFormat)).
Proof.
  intros Hne Hlen.
  assert (Hqne : quantities <> []).
  { destruct quantities; [|done]. by destruct product_ids. }
  unfold create_guest_order, parse_guest_items. simpl. split.
  - intros [Hps Hqs]%Forall_app.
    rewrite !parse_int_list_decimal_small by done.
    by rewrite Hlen, Nat.eqb_refl.
  - intros [Hps|Hqs]%Exists_app.
    + by rewrite parse_int_list_decimal_large.
    + rewrite (parse_int_list_decimal_large quantities) by done.
      by destruct (parse_int_list _).
Qed.
End IntRoundTrip.

Lemma demo_reviews_reachable : Reviews.reachable demo_reviews.
Proof. by eexists. Defined.

Lemma one_review_per_author_and_product_witness :
  NoDup (Reviews.author_and_product <$> ReviewBook.reviews demo_reviews)
  /\ NoDup (Review.id <$> ReviewBook.reviews demo_reviews).
Proof.
  apply (one_review_per_author_and_product demo_reviews), demo_reviews_reachable.
Defined.

Lemma second_review_is_refused_witness :
  Reviews.create_review demo_reviews (ReviewCreate.mk 1 3 None) 7 None
  = (demo_reviews, Reviews.AlreadyReviewed)
  /\ (exists db' r,
        Reviews.create_review demo_reviews (ReviewCreate.mk 3 1 (Some "bent")) 7 None
        = (db', Reviews.Reviewed r)
        /\ Reviews.create_review db' (ReviewCreate.mk 3 5 None) 7 None
           = (db', Reviews.AlreadyReviewed))
  /\ (exists db' r,
        Reviews.create_review (Reviews.delete_review demo_reviews 1 7).1
          (ReviewCreate.mk 1 3 None) 7 None
        = (db', Reviews.Reviewed r)).
Proof.
  split; [|split].
  - apply (proj1 (second_review_is_refused demo_reviews (ReviewCreate.mk 1 3 None) 7
                    None)
             (Review.mk 1 7 1 5 (Some "sturdy") None None None)).
    reflexivity.
  - destruct (second_review_is_refused demo_reviews
                (ReviewCreate.mk 3 1 (Some "bent")) 7 None) as (_ & Hnew & _).
    destruct (Hnew eq_refl) as (db' & r & Hrun & _ & _ & _ & _ & _ & _ & Hagain).
    exists db', r. split; [exact Hrun|]. by apply Hagain.
  - destruct (second_review_is_refused demo_reviews (ReviewCreate.mk 1 3 None) 7 None)
      as (_ & _ & Hfree).
    apply (Hfree demo_reviews_reachable
             (Review.mk 1 7 1 5 (Some "sturdy") None None None) eq_refl).
Defined.

Lemma delete_review_round_trip_witness :
  (Reviews.delete_review demo_reviews 2 7).2 = false
  /\ (Reviews.delete_review demo_reviews 2 7).1 = demo_reviews
  /\ Reviews.get_review_by_id (Reviews.delete_review demo_reviews 2 8).1 2 = None.
Proof.
  destruct (delete_review_round_trip demo_reviews 2 7 demo_reviews_reachable)
    as (_ & Hfalse & _).
  destruct (delete_review_round_trip demo_reviews 2 8 demo_reviews_reachable)
    as (_ & _ & Hgone).
  split; [reflexivity|]. split; [apply Hfalse; reflexivity|].
  apply (Hgone (Review.mk 2 8 1 2 None None None None)); reflexivity.
Defined.

Lemma voted_studio_one_vote_each : VoteOps.one_vote_each voted_studio.
Proof. apply (bool_decide_unpack _). vm_compute. exact I. Defined.

Lemma one_vote_per_user_and_design_witness :
  VoteOps.one_vote_each
    (VoteOps.run voted_studio
       [VoteOps.CastVote 1 1 "downvote"; VoteOps.RemoveVote 1 2;
        VoteOps.CastVote 1 1 "upvote"]).
Proof.
  apply (one_vote_per_user_and_design _ voted_studio), voted_studio_one_vote_each.
Defined.

Lemma vote_round_trip_witness :
  VoteOps.get_user_vote (Votes.create_vote voted_studio 1 1 "downvote").1 1 1
  = Some (DesignVote.mk 1 1 1 "downvote")
  /\ VoteOps.get_user_vote (Votes.delete_vote voted_studio 1 1).1 1 1 = None.
Proof.
  destruct (vote_round_trip voted_studio 1 1 "downvote") as (Hget & _ & _ & _ & _).
  destruct (vote_round_trip voted_studio 1 1 "upvote") as (_ & _ & _ & _ & Hgone).
  split; [rewrite Hget; reflexivity|].
  apply Hgone, voted_studio_one_vote_each.
Defined.

Lemma first_vote_and_removal_recount_witness :
  Votes.total_votes_of (Votes.create_vote voted_studio 1 5 "downvote").1 1
  = Some (Votes.tally (Votes.create_vote voted_studio 1 5 "downvote").1 1)
  /\ Votes.tally (Votes.create_vote voted_studio 1 5 "downvote").1 1 = 1
  /\ Votes.total_votes_of (Votes.delete_vote voted_studio 1 4).1 1 = Some 3.
Proof.
  assert (Hd : is_Some (Votes.get_design_by_id voted_studio 1)) by (by eexists).
  destruct (first_vote_and_removal_recount voted_studio 1 5 Hd) as [Hnew _].
  destruct (first_vote_and_removal_recount voted_studio 1 4 Hd) as [_ Hdel].
  split; [apply Hnew; reflexivity|]. split; [reflexivity|].
  destruct Hdel as [_ ->]; [by eexists|reflexivity].
Defined.

Lemma vote_calls_are_local_witness :
  Votes.total_votes_of (VoteOps.step voted_studio (VoteOps.CastVote 2 1 "upvote")) 1
  = Some 2
  /\ length (VoteOps.get_design_votes
               (VoteOps.step voted_studio (VoteOps.CastVote 2 1 "upvote")) 1) = 4%nat.
Proof.
  destruct (vote_calls_are_local voted_studio (VoteOps.CastVote 2 1 "upvote") 1)
    as [-> ->]; [discriminate|]. split; reflexivity.
Defined.

Lemma totals_stay_within_votes_witness :
  VoteOps.totals_within_votes
    (VoteOps.run demo_studio
       [VoteOps.CastVote 1 1 "upvote"; VoteOps.CastVote 1 1 "downvote";
        VoteOps.CastVote 1 2 "downvote"; VoteOps.RemoveVote 1 1]).
Proof.
  apply (totals_stay_within_votes _ demo_studio).
  intros d n. unfold Votes.total_votes_of, Votes.get_design_by_id. simpl.
  destruct (Votes.is_design d _) eqn:E; [|done]. simpl. intros [= <-].
  unfold VoteOps.get_design_votes. simpl. lia.
Defined.

Lemma issued_coupon_is_fresh_witness :
  String.prefix "LOYALTY" (CouponCode.code demo_coupon) = true
  /\ Coupons.get_coupon_by_code demo_ledger (CouponCode.code demo_coupon)
     = Some demo_coupon
  /\ Coupons.create_coupon_code demo_ledger ["AB12CD34"] 8 10 3 None None = None.
Proof.
  destruct (issued_coupon_is_fresh (amount := Z) Coupons.empty ["AB12CD34"] 7 10 3
              (Some 1000) None) as [Hissued _].
  destruct (Hissued demo_ledger demo_coupon eq_refl) as (_ & Hprefix & _ & Hfound & _).
  split; [exact Hprefix|]. split; [exact Hfound|].
  apply (issued_coupon_is_fresh demo_ledger ["AB12CD34"] 8 10 3 None None).
  repeat constructor. by eexists.
Defined.

Lemma demo_ledger_reachable : Coupons.reachable demo_ledger.
Proof. by eexists. Defined.

Lemma reachable_coupons_are_distinct_witness :
  CouponCode.code <$> Ledger.coupons busy_ledger
  = ["LOYALTYAAAA0000"; "LOYALTYBBBB1111"; "LOYALTYCCCC2222"]
  /\ NoDup (CouponCode.id <$> Ledger.coupons busy_ledger)
  /\ NoDup (CouponCode.code <$> Ledger.coupons busy_ledger).
Proof.
  split; [reflexivity|].
  apply (reachable_coupons_are_distinct busy_ledger). by eexists.
Defined.

Lemma deactivated_coupon_stays_invalid_witness :
  Coupons.validate_coupon
    (Coupons.run (Coupons.deactivate_coupon demo_ledger 1).1
       [Coupons.RedeemCoupon 1 1 250;
        Coupons.IssueCoupon ["QQQQ1111"] 7 10 3 None None])
    "LOYALTYAB12CD34" 7 10 = None.
Proof.
  apply (deactivated_coupon_stays_invalid demo_ledger 1 demo_coupon
           [Coupons.RedeemCoupon 1 1 250;
            Coupons.IssueCoupon ["QQQQ1111"] 7 10 3 None None] 7 10).
  - exact demo_ledger_reachable.
  - reflexivity.
Defined.

Lemma used_count_is_backed_by_usages_witness :
  Forall (fun c => CouponCode.used_count c
                   <= CouponOps.usages_of twice_redeemed_ledger (CouponCode.id c))
    (Ledger.coupons twice_redeemed_ledger).
Proof. apply (used_count_is_backed_by_usages twice_redeemed_ledger). by eexists. Defined.

Lemma written_cart_is_read_back_witness :
  create_guest_order demo_shop
    (GuestOrderCreate.mk (PyStr.join [PyStr.comma] (PyStr.decimal <$> [1; 2]))
       (PyStr.join [PyStr.comma] (PyStr.decimal <$> [2; -3])) demo_contact)
  = place_order demo_shop None demo_contact
      [OrderItemBase.mk 1 2; OrderItemBase.mk 2 (-3)]
  /\ create_guest_order demo_shop
       (GuestOrderCreate.mk (PyStr.join [PyStr.comma] (PyStr.decimal <$> [1; 2]))
          (PyStr.join [PyStr.comma] (PyStr.decimal <$> [2; 10 ^ 4300])) demo_contact)
     = (demo_shop, Err InvalidFormat).
Proof.
  split.
  - apply (written_cart_is_read_back demo_shop [1; 2] [2; -3] demo_contact);
      [discriminate|reflexivity|].
    repeat constructor; vm_compute; reflexivity.
  - apply (written_cart_is_read_back demo_shop [1; 2] [2; 10 ^ 4300] demo_contact);
      [discriminate|reflexivity|].
    right. right. right. left. vm_compute. discriminate.
Defined.
